(** * workflow-automation: configuration validator, update propagator and
    version checker.

    A shallow embedding of [scripts/config-validator.ts] and
    [scripts/update-propagation.ts] (which also holds the version checker),
    and the properties of the specification proved or refuted on it.

    Layout: the JavaScript value layer, the state-and-exception monad, the
    three tools, concrete sample inputs, and then the theorems. *)

From Stdlib Require Import QArith Ascii String.
From Stdlib Require OrderedTypeEx.
From stdpp Require Import base option list strings pretty gmap.

Set Warnings "-register-all".
Local Open Scope string_scope.
Local Open Scope list_scope.

(* ===================================================================== *)
(** ** JavaScript values as the scripts see them *)
(* ===================================================================== *)

Module JS.

(** An ECMAScript number, as far as the scripts compare numbers: a parsed
    JSON literal is taken as the rational it denotes. *)
Inductive number : Type :=
| NaN
| NegInf
| Fin (q : Q)
| PosInf.

(** [a < b] of ECMAScript: false as soon as one side is NaN. *)
Definition num_lt (a b : number) : bool :=
  match a, b with
  | NaN, _ | _, NaN => false
  | NegInf, NegInf => false
  | NegInf, _ => true
  | _, NegInf => false
  | PosInf, _ => false
  | Fin _, PosInf => true
  | Fin x, Fin y => negb (Qle_bool y x)
  end.

Definition num_gt (a b : number) : bool := num_lt b a.

Definition of_nat (n : nat) : Q := inject_Z (Z.of_nat n).

(** The result of [JSON.parse]. An object lists its own properties in
    enumeration order, each key once. [undefined] is [None] at type
    [option json]. *)
Inductive json : Type :=
| JNull
| JBool (b : bool)
| JNum (q : Q)
| JStr (s : string)
| JArr (l : list json)
| JObj (kvs : list (string * json)).

(** What the scripts read from an exception: [error.status] and
    [error.message]. *)
Record JsError : Type := mkError {
  err_status : option nat;
  err_message : string
}.

(** [new Error(msg)]: no [status] property. *)
Definition Error (msg : string) : JsError := mkError None msg.

Inductive result (A : Type) : Type :=
| Ok (a : A)
| Throw (e : JsError).
Arguments Ok {A} a.
Arguments Throw {A} e.

Definition is_throw {A} (r : result A) : bool :=
  match r with Throw _ => true | Ok _ => false end.

(** The TypeErrors the validator can run into on a document of the wrong
    shape. *)
Inductive type_error : Type :=
| NullProperty (prop : string)
| NotAFunction (receiver : json) (method : string)
| NotIterable (v : json).

(** What the engine and the libraries decide, not the scripts. *)
Record Runtime : Type := {
  JSON_parse : string -> string + json;
  string_to_number : string -> number;
  number_to_string : Q -> string;
  type_error_message : type_error -> string;
  path_join : string -> string -> string;
  extname : string -> string
}.

Definition throw_type_error {A} (rt : Runtime) (te : type_error) : result A :=
  Throw (Error (type_error_message rt te)).

(** *** Strings *)

(** [hay.includes(needle)] *)
Fixpoint includes (needle hay : string) : bool :=
  String.prefix needle hay ||
  match hay with
  | EmptyString => false
  | String _ rest => includes needle rest
  end.

(** [s.startsWith(p)] *)
Definition startsWith (p s : string) : bool := String.prefix p s.

Fixpoint drop_chars (n : nat) (s : string) : string :=
  match n, s with
  | O, _ => s
  | S _, EmptyString => EmptyString
  | S k, String _ rest => drop_chars k rest
  end.

Fixpoint take_chars (n : nat) (s : string) : string :=
  match n, s with
  | O, _ => EmptyString
  | S _, EmptyString => EmptyString
  | S k, String c rest => String c (take_chars k rest)
  end.

(** [s.replace(pat, rep)] with a string pattern: the first occurrence only
    ([rep] holds no dollar sign in the scripts). *)
Fixpoint replace_first (pat rep s : string) : string :=
  if String.prefix pat s then rep +:+ drop_chars (String.length pat) s
  else match s with
       | EmptyString => EmptyString
       | String c rest => String c (replace_first pat rep rest)
       end.

(** [xs.join(sep)] on strings. *)
Fixpoint join (sep : string) (xs : list string) : string :=
  match xs with
  | [] => EmptyString
  | [x] => x
  | x :: rest => x +:+ sep +:+ join sep rest
  end.

Fixpoint chars (s : string) : list string :=
  match s with
  | EmptyString => []
  | String c rest => String c EmptyString :: chars rest
  end.

(** *** Conversions *)

(** [String(v)], as a template literal and [Array.prototype.join] apply it. *)
Fixpoint to_string (rt : Runtime) (v : json) : string :=
  match v with
  | JNull => "null"
  | JBool true => "true"
  | JBool false => "false"
  | JNum q => number_to_string rt q
  | JStr s => s
  | JArr l =>
      join "," (map (fun x => match x with
                              | JNull => EmptyString
                              | _ => to_string rt x
                              end) l)
  | JObj _ => "[object Object]"
  end.

(** [xs.join(sep)] on values: null elements give the empty string. *)
Definition join_values (rt : Runtime) (sep : string) (xs : list json) : string :=
  join sep (map (fun x => match x with
                          | JNull => EmptyString
                          | _ => to_string rt x
                          end) xs).

(** ToNumber, for the relational comparisons against a numeric literal. *)
Definition to_number (rt : Runtime) (v : option json) : number :=
  match v with
  | None => NaN
  | Some JNull => Fin 0
  | Some (JBool true) => Fin 1
  | Some (JBool false) => Fin 0
  | Some (JNum q) => Fin q
  | Some (JStr s) => string_to_number rt s
  | Some w => string_to_number rt (to_string rt w)
  end.

(** [v < n] and [v > n] for a numeric literal [n]. *)
Definition lt_lit (rt : Runtime) (v : option json) (n : Q) : bool :=
  num_lt (to_number rt v) (Fin n).
Definition gt_lit (rt : Runtime) (v : option json) (n : Q) : bool :=
  num_gt (to_number rt v) (Fin n).

(** ToBoolean. *)
Definition truthy (v : option json) : bool :=
  match v with
  | None | Some JNull => false
  | Some (JBool b) => b
  | Some (JNum q) => negb (Qeq_bool q 0)
  | Some (JStr s) => negb (String.eqb s EmptyString)
  | Some (JArr _) | Some (JObj _) => true
  end.

(** [v === b] for a boolean literal [b]. *)
Definition is_bool (b : bool) (v : option json) : bool :=
  match v with
  | Some (JBool b') => Bool.eqb b b'
  | _ => false
  end.

(** *** Property access *)

Fixpoint assoc (k : string) (kvs : list (string * json)) : option json :=
  match kvs with
  | [] => None
  | (k', v) :: rest => if String.eqb k k' then Some v else assoc k rest
  end.

(** [v.k] on a value that is not null, for the configuration keys the
    validator reads (none of them is [length], an index, or a name on a
    prototype). *)
Definition get_prop (v : json) (k : string) : option json :=
  match v with
  | JObj kvs => assoc k kvs
  | _ => None
  end.

(** [o?.k] *)
Definition opt_chain (o : option json) (k : string) : option json :=
  match o with
  | None | Some JNull => None
  | Some v => get_prop v k
  end.

(** [config.k] where [config] may be null. *)
Definition member (rt : Runtime) (v : json) (k : string) : result (option json) :=
  match v with
  | JNull => throw_type_error rt (NullProperty k)
  | _ => Ok (get_prop v k)
  end.

(** [o?.length] *)
Definition opt_length (o : option json) : option json :=
  match o with
  | None | Some JNull => None
  | Some (JArr l) => Some (JNum (of_nat (length l)))
  | Some (JStr s) => Some (JNum (of_nat (String.length s)))
  | Some (JObj kvs) => assoc "length" kvs
  | Some _ => None
  end.

(** [Object.values(v)] and [Object.entries(v)] on a truthy value. *)
Definition object_values (v : json) : list json :=
  match v with
  | JObj kvs => map snd kvs
  | JArr l => l
  | JStr s => map JStr (chars s)
  | _ => []
  end.

Definition object_entries (v : json) : list (string * json) :=
  match v with
  | JObj kvs => kvs
  | JArr l => imap (fun i x => (pretty i, x)) l
  | JStr s => imap (fun i c => (pretty i, JStr c)) (chars s)
  | _ => []
  end.

(** What [for (const x of v)] runs through. *)
Definition iterate (rt : Runtime) (v : json) : result (list json) :=
  match v with
  | JArr l => Ok l
  | JStr s => Ok (map JStr (chars s))
  | _ => throw_type_error rt (NotIterable v)
  end.

(** [recv.includes(arg)] once [arg] is a string: a string searches for a
    substring, an array for an element. *)
Definition call_includes (rt : Runtime) (recv : json) (arg : string) : result bool :=
  match recv with
  | JStr s => Ok (includes arg s)
  | JArr l => Ok (existsb (fun x => match x with
                                    | JStr t => String.eqb t arg
                                    | _ => false
                                    end) l)
  | _ => throw_type_error rt (NotAFunction recv "includes")
  end.

(** [recv.replace('/', '')] *)
Definition call_replace_slash (rt : Runtime) (recv : json) : result string :=
  match recv with
  | JStr s => Ok (replace_first "/" EmptyString s)
  | JNull => throw_type_error rt (NullProperty "replace")
  | _ => throw_type_error rt (NotAFunction recv "replace")
  end.

(** [recv.startsWith(p)] on a truthy value. *)
Definition call_startsWith (rt : Runtime) (recv : json) (p : string) : result bool :=
  match recv with
  | JStr s => Ok (startsWith p s)
  | _ => throw_type_error rt (NotAFunction recv "startsWith")
  end.

End JS.

(* ===================================================================== *)
(** ** Mutable state and exceptions *)
(* ===================================================================== *)

(** A computation that mutates a state of type [S] and either returns or
    throws; what it did to the state before throwing stays done. *)
Module Eff.
Import JS.

Definition M (S A : Type) : Type := S -> result A * S.

Definition ret {S A} (a : A) : M S A := fun s => (Ok a, s).

Definition bind {S A B} (m : M S A) (k : A -> M S B) : M S B :=
  fun s => match m s with
           | (Ok a, s') => k a s'
           | (Throw e, s') => (Throw e, s')
           end.

Definition lift {S A} (r : result A) : M S A := fun s => (r, s).

Definition modify {S} (f : S -> S) : M S unit := fun s => (Ok tt, f s).

Definition get {S} : M S S := fun s => (Ok s, s).

(** [try { m } catch (e) { h e }] *)
Definition try_catch {S A} (m : M S A) (h : JsError -> M S A) : M S A :=
  fun s => match m s with
           | (Ok a, s') => (Ok a, s')
           | (Throw e, s') => h e s'
           end.

Definition when {S} (b : bool) (m : M S unit) : M S unit :=
  if b then m else ret tt.

(** [for (const x of xs) { body x }] *)
Fixpoint for_each {S A} (body : A -> M S unit) (xs : list A) : M S unit :=
  match xs with
  | [] => ret tt
  | x :: rest => bind (body x) (fun _ => for_each body rest)
  end.

End Eff.

Declare Scope eff_scope.
Delimit Scope eff_scope with eff.
Notation "x <- m ;; k" := (Eff.bind m (fun x => k))
  (at level 100, m at next level, right associativity) : eff_scope.
Notation "m ;; k" := (Eff.bind m (fun _ => k))
  (at level 100, right associativity) : eff_scope.

(* ===================================================================== *)
(** ** scripts/config-validator.ts *)
(* ===================================================================== *)

Module ConfigValidator.
Import JS Eff.
Local Open Scope eff_scope.

Record ValidationResult : Type := mkResult {
  file : string;
  valid : bool;
  errors : list string;
  warnings : list string
}.

(** The report's summary: two [Record<string, number>] objects, keyed by
    message text. *)
Record Summary : Type := mkSummary {
  commonErrors : gmap string nat;
  commonWarnings : gmap string nat
}.

Record ValidationReport : Type := mkReport {
  timestamp : nat;
  schemaVersion : json;
  totalFiles : nat;
  validFiles : nat;
  invalidFiles : nat;
  results : list ValidationResult;
  summary : Summary
}.

(** The part of [fs] and [Bun.file] the validator calls. *)
Record FileSystem : Type := {
  existsSync : string -> bool;
  readFileSync : string -> result string;
  readdirSync : string -> result (list string);
  (** [Bun.file(p).size === undefined], the script's test for a directory *)
  size_undefined : string -> bool
}.

(** An Ajv error object, by [keyword], with [instancePath], [message] and
    the [params] the formatter reads for that keyword. [OtherError] is any
    keyword other than the five named ones. *)
Inductive ErrorObject : Type :=
| RequiredError (instancePath message missingProperty : string)
| TypeError (instancePath message type : string)
| EnumError (instancePath message : string) (allowedValues : list json)
| MinimumError (instancePath message : string) (limit : Q)
| MaximumError (instancePath message : string) (limit : Q)
| OtherError (keyword instancePath message : string).

(** A compiled schema: [None] when the document satisfies it ([validate]
    returns true), [Some errs] with [validate.errors] otherwise. *)
Definition ValidateFunction : Type := json -> option (list ErrorObject).

(** [ajv.compile(schema)], which throws on a schema it cannot compile. *)
Record Ajv : Type := {
  compile : json -> result ValidateFunction
}.

(** The validator object: the engine, the Ajv instance, the file system,
    and the fields the constructor sets. *)
Record Validator : Type := {
  runtime : Runtime;
  ajv : Ajv;
  fs : FileSystem;
  schema : json;
  schemaPath : string;
  configPaths : list string
}.

Definition V : Type -> Type := M ValidationResult.

(** [result.errors.push(m)] *)
Definition push_error (m : string) : V unit :=
  modify (fun r => mkResult (file r) (valid r) (errors r ++ [m]) (warnings r)).

(** [result.warnings.push(m)] *)
Definition push_warning (m : string) : V unit :=
  modify (fun r => mkResult (file r) (valid r) (errors r) (warnings r ++ [m])).

(** [result.valid = b] *)
Definition set_valid (b : bool) : V unit :=
  modify (fun r => mkResult (file r) b (errors r) (warnings r)).

Definition quote (s : string) : string := "'" +:+ s +:+ "'".

(** [error.instancePath || 'root'] *)
Definition path_or_root (instancePath : string) : string :=
  if String.eqb instancePath EmptyString then "root" else instancePath.

Definition formatAjvError (rt : Runtime) (error : ErrorObject) : string :=
  match error with
  | RequiredError _ _ missingProperty =>
      "Missing required property: " +:+ missingProperty
  | TypeError instancePath _ type =>
      "Property " +:+ quote (path_or_root instancePath) +:+ " should be " +:+ type
  | EnumError instancePath _ allowedValues =>
      "Property " +:+ quote (path_or_root instancePath) +:+ " should be one of: " +:+
      join_values rt ", " allowedValues
  | MinimumError instancePath _ limit =>
      "Property " +:+ quote (path_or_root instancePath) +:+ " should be >= " +:+
      number_to_string rt limit
  | MaximumError instancePath _ limit =>
      "Property " +:+ quote (path_or_root instancePath) +:+ " should be <= " +:+
      number_to_string rt limit
  | OtherError _ instancePath message =>
      path_or_root instancePath +:+ ": " +:+ message
  end.

(** The names of the entries of [security_rules] that are [false]. *)
Definition disabledRules (security_rules : json) : list string :=
  map fst (filter (fun kv => is_bool false (Some (snd kv)) = true)
                  (object_entries security_rules)).

Definition addCustomWarnings (rt : Runtime) (config : json) : V unit :=
  review_rules <- lift (member rt config "review_rules");;
  when (lt_lit rt (opt_chain review_rules "min_test_coverage") 50)
    (push_warning "Low test coverage requirement (< 50%) may indicate insufficient testing standards");;
  when (gt_lit rt (opt_chain review_rules "max_complexity") 20)
    (push_warning "High complexity threshold (> 20) may allow overly complex code");;
  when (gt_lit rt (opt_chain review_rules "max_function_length") 100)
    (push_warning "High function length limit (> 100) may allow overly long functions");;
  match get_prop config "security_rules" with
  | Some security_rules =>
      when (truthy (Some security_rules) &&
            existsb (fun rule => is_bool false (Some rule)) (object_values security_rules))
        (push_warning ("Disabled security checks: " +:+
                       join ", " (disabledRules security_rules)))
  | None => ret tt
  end;;
  when (gt_lit rt (opt_length (opt_chain (get_prop config "exclusions") "file_patterns")) 20)
    (push_warning "Large number of file exclusion patterns may hide important files from review");;
  when (gt_lit rt (opt_chain (get_prop config "response_settings") "max_response_length") 5000)
    (push_warning "Very high response length limit may lead to overly verbose responses");;
  match get_prop config "model" with
  | Some model =>
      if truthy (Some model) then
        hit <- lift (call_includes rt model "haiku");;
        when hit
          (push_warning "Using Haiku model may provide less comprehensive reviews than Sonnet")
      else ret tt
  | None => ret tt
  end;;
  when (is_bool false
          (opt_chain (opt_chain (get_prop config "language_specific") "typescript") "strict_mode"))
    (push_warning "TypeScript strict mode disabled - may miss type-related issues");;
  when (is_bool false
          (opt_chain (opt_chain (get_prop config "language_specific") "python") "check_type_hints"))
    (push_warning "Python type hint checking disabled - may miss type-related issues").

(** The four parts of [performSemanticValidation], in source order. *)

Definition check_test_consistency (rt : Runtime) (config : json) : V unit :=
  review_rules <- lift (member rt config "review_rules");;
  when (is_bool false (opt_chain review_rules "check_tests") &&
        gt_lit rt (opt_chain review_rules "min_test_coverage") 0)
    (push_error "Inconsistent configuration: test coverage specified but test checking disabled").

Definition check_documentation_consistency (config : json) : V unit :=
  when (is_bool false (opt_chain (get_prop config "review_rules") "check_documentation") &&
        (is_bool true (opt_chain (get_prop config "documentation_rules") "require_function_docs") ||
         is_bool true (opt_chain (get_prop config "documentation_rules") "require_class_docs")))
    (push_error "Inconsistent configuration: documentation requirements specified but documentation checking disabled").

Definition redundant_exclusion_message (filePattern dirPattern : string) : string :=
  "Potential redundant exclusion: file pattern " +:+ quote filePattern +:+
  " may be covered by directory pattern " +:+ quote dirPattern.

(** The body of the inner loop: [filePattern.includes] is read first, the
    argument [dirPattern.replace('/', '')] is evaluated next, the call
    comes last. *)
Definition check_pattern_pair (rt : Runtime) (filePattern dirPattern : json) : V unit :=
  _ <- lift (member rt filePattern "includes");;
  needle <- lift (call_replace_slash rt dirPattern);;
  hit <- lift (call_includes rt filePattern needle);;
  when hit
    (push_warning (redundant_exclusion_message (to_string rt filePattern)
                                               (to_string rt dirPattern))).

Definition check_exclusions (rt : Runtime) (config : json) : V unit :=
  match opt_chain (get_prop config "exclusions") "file_patterns",
        opt_chain (get_prop config "exclusions") "directory_patterns" with
  | Some filePatterns, Some dirPatterns =>
      if truthy (Some filePatterns) && truthy (Some dirPatterns) then
        fps <- lift (iterate rt filePatterns);;
        for_each (fun filePattern =>
                    dps <- lift (iterate rt dirPatterns);;
                    for_each (check_pattern_pair rt filePattern) dps)
                 fps
      else ret tt
  | _, _ => ret tt
  end.

Definition check_webhook (rt : Runtime) (config : json)
    (key pfx msg : string) : V unit :=
  match opt_chain (get_prop config "notification_settings") key with
  | Some hook =>
      if truthy (Some hook) then
        ok <- lift (call_startsWith rt hook pfx);;
        when (negb ok) (push_error msg)
      else ret tt
  | None => ret tt
  end.

Definition performSemanticValidation (rt : Runtime) (config : json) : V unit :=
  check_test_consistency rt config;;
  check_documentation_consistency config;;
  check_exclusions rt config;;
  check_webhook rt config "slack_webhook" "https://hooks.slack.com/"
    "Invalid Slack webhook URL format";;
  check_webhook rt config "discord_webhook" "https://discord.com/api/webhooks/"
    "Invalid Discord webhook URL format".

(** The schema branch of [validateConfig]. *)
Definition apply_schema (rt : Runtime) (validate : ValidateFunction) (config : json) : V unit :=
  match validate config with
  | None =>
      set_valid true;;
      addCustomWarnings rt config
  | Some validate_errors =>
      set_valid false;;
      for_each (fun error =>
                  let errorMsg := formatAjvError rt error in
                  push_error errorMsg)
               validate_errors
  end.

(** The [try] block of [validateConfig]; the two early [return result]
    are the branches that stop without throwing. *)
Definition validateConfig_body (v : Validator) (filePath : string) : V unit :=
  if negb (existsSync (fs v) filePath) then
    push_error "Configuration file not found"
  else
    configContent <- lift (readFileSync (fs v) filePath);;
    match JSON_parse (runtime v) configContent with
    | inl parseError_message =>
        push_error ("JSON parsing error: " +:+ parseError_message)
    | inr config =>
        validate <- lift (compile (ajv v) (schema v));;
        apply_schema (runtime v) validate config;;
        performSemanticValidation (runtime v) config
    end.

Definition validateConfig (v : Validator) (filePath : string) : ValidationResult :=
  snd (try_catch (validateConfig_body v filePath)
                 (fun error => push_error ("Validation error: " +:+ err_message error))
                 (mkResult filePath false [] [])).

(** [findConfigFiles]: the files found and the warnings logged. *)
Definition findConfigFiles_step (v : Validator)
    (acc : list string * list string) (configPath : string) : list string * list string :=
  let '(files, log) := acc in
  if negb (existsSync (fs v) configPath) then
    (files, (log ++ ["Configuration path not found: " +:+ configPath])%list)
  else if size_undefined (fs v) configPath then
    match readdirSync (fs v) configPath with
    | Ok dirFiles =>
        ((files ++ map (path_join (runtime v) configPath)
                       (filter (fun f => extname (runtime v) f = ".json") dirFiles))%list,
         log)
    | Throw error =>
        (files,
         (log ++ ["Error reading path " +:+ configPath +:+ ": " +:+ err_message error])%list)
    end
  else if String.eqb (extname (runtime v) configPath) ".json" then
    ((files ++ [configPath])%list, log)
  else (files, log).

Definition findConfigFiles (v : Validator) : list string * list string :=
  fold_left (findConfigFiles_step v) (configPaths v) ([], []).

(** [counts[m] = (counts[m] || 0) + 1] *)
Definition bump (counts : gmap string nat) (m : string) : gmap string nat :=
  <[m := default 0 (counts !! m) + 1]> counts.

Definition generateSummary_step (acc : Summary) (result : ValidationResult) : Summary :=
  mkSummary (fold_left bump (errors result) (commonErrors acc))
            (fold_left bump (warnings result) (commonWarnings acc)).

Definition generateSummary (results : list ValidationResult) : Summary :=
  fold_left generateSummary_step results (mkSummary ∅ ∅).

(** The loop of [run]: the results and the two counters. *)
Definition run_step (v : Validator)
    (acc : list ValidationResult * nat * nat) (file : string)
    : list ValidationResult * nat * nat :=
  let '(results, validFiles, invalidFiles) := acc in
  let result := validateConfig v file in
  if valid result then ((results ++ [result])%list, S validFiles, invalidFiles)
  else ((results ++ [result])%list, validFiles, S invalidFiles).

(** [this.schema.title || 'Unknown'], which throws on a null schema. *)
Definition schema_title (rt : Runtime) (schema : json) : result json :=
  match member rt schema "title" with
  | Ok (Some t) => Ok (if truthy (Some t) then t else JStr "Unknown")
  | Ok None => Ok (JStr "Unknown")
  | Throw error => Throw error
  end.

(** [run], without its console output; [now] is [new Date()]. *)
Definition run (v : Validator) (now : nat) : result ValidationReport :=
  let configFiles := fst (findConfigFiles v) in
  if Nat.eqb (length configFiles) 0 then
    Throw (Error "No configuration files found to validate")
  else
    let '(results, validFiles, invalidFiles) :=
      fold_left (run_step v) configFiles ([], 0, 0) in
    match schema_title (runtime v) (schema v) with
    | Ok title =>
        Ok (mkReport now title (length configFiles)
                     validFiles invalidFiles results (generateSummary results))
    | Throw error => Throw error
    end.

(** [main]: the exit code once the validator is built. *)
Definition exit_code (v : Validator) (now : nat) : nat :=
  match run v now with
  | Ok report => if Nat.ltb 0 (invalidFiles report) then 1 else 0
  | Throw _ => 1
  end.

End ConfigValidator.

(* ===================================================================== *)
(** ** The remote hosting API, as the two API-driven tools call it *)
(* ===================================================================== *)

Module GitHub.
Import JS Eff.

(** An Octokit client: the app-level one, or the one of an installation. *)
Inductive Octokit : Type :=
| AppClient
| InstallationClient (installationId : nat).

(** The endpoints the scripts call, with the arguments they pass. *)
Inductive Call : Type :=
| AppsGetRepoInstallation (owner repo : string)
| ReposGetContent (owner repo path : string) (ref : option string)
| ReposGet (owner repo : string)
| ReposGetBranch (owner repo branch : string)
| GitCreateRef (owner repo ref sha : string)
| GitUpdateRef (owner repo ref sha : string)
| ReposCreateOrUpdateFileContents
    (owner repo path message content branch : string) (sha : option string)
| PullsCreate (owner repo title body head base : string)
| IssuesAddLabels (owner repo : string) (issue_number : nat) (labels : list string)
| PullsList (owner repo state head : string)
| ReposGetLatestRelease (owner repo : string)
| ReposListCommits (owner repo : string) (per_page : nat).

(** [data] of a [getContent] response: ['content' in data] and
    ['sha' in data] are the tests the scripts make. File text is held
    decoded; the base64 transport encoding is left out. *)
Record ContentData : Type := mkContent {
  content : option string;
  sha : option string
}.

Record PullRequest : Type := mkPull {
  html_url : string;
  number : nat
}.

(** The fields the scripts read from each response. *)
Definition payload (c : Call) : Type :=
  match c with
  | AppsGetRepoInstallation _ _ => nat
  | ReposGetContent _ _ _ _ => ContentData
  | ReposGet _ _ => string
  | ReposGetBranch _ _ _ => string
  | GitCreateRef _ _ _ _ => unit
  | GitUpdateRef _ _ _ _ => unit
  | ReposCreateOrUpdateFileContents _ _ _ _ _ _ _ => unit
  | PullsCreate _ _ _ _ _ _ => PullRequest
  | IssuesAddLabels _ _ _ _ => unit
  | PullsList _ _ _ _ => list PullRequest
  | ReposGetLatestRelease _ _ => string
  | ReposListCommits _ _ _ => list string
  end.

(** The remote side: how the [n]-th request of the process is answered,
    whatever it is. Every sequence of successes and failures is some
    [Remote]. *)
Definition Remote : Type := forall (n : nat) (via : Octokit) (c : Call), result (payload c).

(** The process state: how many requests were made, which ones, and the
    console. *)
Record World : Type := mkWorld {
  clock : nat;
  calls : list (Octokit * Call);
  console : list string
}.

Definition request (remote : Remote) (via : Octokit) (c : Call) : M World (payload c) :=
  fun w => (remote (clock w) via c,
            mkWorld (S (clock w)) (calls w ++ [(via, c)]) (console w)).

(** [console.log], [console.error]: the text without its pictograph. *)
Definition console_log (line : string) : M World unit :=
  modify (fun w => mkWorld (clock w) (calls w) (console w ++ [line])).

Definition throw {S A} (e : JsError) : M S A := lift (Throw e).

Definition status_is (e : JsError) (code : nat) : bool :=
  match err_status e with
  | Some s => Nat.eqb s code
  | None => false
  end.

End GitHub.

(* ===================================================================== *)
(** ** scripts/update-propagation.ts: the update propagator *)
(* ===================================================================== *)

Module UpdatePropagator.
Import JS Eff GitHub.
Local Open Scope eff_scope.

Record RepositoryConfig : Type := mkRepo {
  owner : string;
  repo : string;
  workflowPath : string;
  configProfile : option string;
  enabled : bool;
  lastUpdated : option string
}.

Record UpdateConfig : Type := mkConfig {
  repositories : list RepositoryConfig;
  workflowVersion : string;
  updateMessage : string;
  dryRun : bool
}.

Record Tally : Type := mkTally {
  success : nat;
  skipped : nat;
  failed : nat
}.

Definition dq : string := String "034"%char EmptyString.

(** [repo.configProfile || 'default'] *)
Definition profile_or_default (r : RepositoryConfig) : string :=
  match configProfile r with
  | Some p => if String.eqb p EmptyString then "default" else p
  | None => "default"
  end.

Definition slug (r : RepositoryConfig) : string := owner r +:+ "/" +:+ repo r.

Definition getInstallationOctokit (remote : Remote) (owner repo : string) : M World Octokit :=
  try_catch
    (installation_id <- request remote AppClient (AppsGetRepoInstallation owner repo);;
     ret (InstallationClient installation_id))
    (fun error =>
       if status_is error 404 then
         throw (Error ("GitHub App not installed on " +:+ owner +:+ "/" +:+ repo))
       else throw error).

Definition secrets_block : string :=
"    secrets:
      DEV_OPS_BOT_CLAUDE_CODE_OAUTH_TOKEN: ${{ secrets.DEV_OPS_BOT_CLAUDE_CODE_OAUTH_TOKEN }}
      DEV_OPS_BOT_APP_ID: ${{ secrets.DEV_OPS_BOT_APP_ID }}
      DEV_OPS_BOT_PRIVATE_KEY: ${{ secrets.DEV_OPS_BOT_PRIVATE_KEY }}
      DEV_OPS_BOT_ALLOWED_USER_LIST: ${{ secrets.DEV_OPS_BOT_ALLOWED_USER_LIST }}".

Definition generateCallerWorkflow (cfg : UpdateConfig) (r : RepositoryConfig) : string :=
  let profile := profile_or_default r in
"name: AI Code Review
on:
  pull_request:
    types: [opened, synchronize, reopened]

permissions:
  contents: read
  pull-requests: write
  issues: write
  actions: read    

jobs:
  ai-review:
    uses: signinwithethereum/workflow-automation/.github/workflows/pr-review.yml@v"
  +:+ workflowVersion cfg +:+ "
    with:
      config-profile: " +:+ dq +:+ profile +:+ dq +:+ "
" +:+ secrets_block.

Definition generateOnDemandWorkflow (cfg : UpdateConfig) (r : RepositoryConfig) : string :=
"name: AI On-Demand Assistant  
on:
  issue_comment:
    types: [created]
  pull_request_review_comment:
    types: [created]
  pull_request_review:
    types: [submitted]
  issues:
    types: [opened]

permissions:
  contents: read
  issues: write
  pull-requests: write
  actions: read

jobs:
  ai-response:
    uses: signinwithethereum/workflow-automation/.github/workflows/issue-response.yml@v"
  +:+ workflowVersion cfg +:+ "
    with:
      config-profile: " +:+ dq +:+ profile_or_default r +:+ dq +:+ "
      bot-mention: " +:+ dq +:+ "@siwe-dev-ops" +:+ dq +:+ "
      enable-auto-labeling: true
      enable-escalation: true
" +:+ secrets_block.

Definition needsUpdate (remote : Remote) (cfg : UpdateConfig) (r : RepositoryConfig)
    : M World bool :=
  try_catch
    (installationOctokit <- getInstallationOctokit remote (owner r) (repo r);;
     currentFile <- request remote installationOctokit
                      (ReposGetContent (owner r) (repo r) (workflowPath r) None);;
     match content currentFile with
     | Some currentContent =>
         ret (negb (includes ("@v" +:+ workflowVersion cfg) currentContent))
     | None => ret true
     end)
    (fun error => if status_is error 404 then ret true else throw error).

Definition updateFile (remote : Remote) (octokit : Octokit) (r : RepositoryConfig)
    (branch filePath content commitMessage : string) : M World unit :=
  sha <- try_catch
           (existingFile <- request remote octokit
                              (ReposGetContent (owner r) (repo r) filePath (Some branch));;
            ret (sha existingFile))
           (fun error => if negb (status_is error 404) then throw error else ret None);;
  request remote octokit
    (ReposCreateOrUpdateFileContents (owner r) (repo r) filePath commitMessage
                                     content branch sha).

Definition pull_request_title (cfg : UpdateConfig) : string :=
  "Update AI Workflow Automation to v" +:+ workflowVersion cfg.

Definition pull_request_body (cfg : UpdateConfig) (r : RepositoryConfig) : string :=
"## Workflow Automation Update

This PR updates the AI workflow automation to version **v" +:+ workflowVersion cfg +:+ "**.

### Changes
- Updated AI review workflow to use latest central workflow version
- Updated AI on-demand response workflow
- Improved configuration handling and error management
- Enhanced prompt templates and language support

### What This Enables
- Latest AI review capabilities
- Improved prompt templates
- Enhanced security and quality checks
- Better configuration management

### Configuration
- **Profile**: " +:+ profile_or_default r +:+ "
- **Central Repository**: signinwithethereum/workflow-automation@v" +:+ workflowVersion cfg +:+ "

" +:+ updateMessage cfg +:+ "

---
This PR was automatically created by the [SIWE Workflow Automation System](https://github.com/signinwithethereum/workflow-automation)".

Definition createPullRequest (remote : Remote) (cfg : UpdateConfig) (octokit : Octokit)
    (r : RepositoryConfig) (branchName baseBranch : string) : M World unit :=
  try_catch
    (pr <- request remote octokit
             (PullsCreate (owner r) (repo r) (pull_request_title cfg)
                          (pull_request_body cfg r) branchName baseBranch);;
     console_log ("Created pull request: " +:+ html_url pr);;
     try_catch
       (request remote octokit
          (IssuesAddLabels (owner r) (repo r) (number pr)
                           ["automation"; "workflow-update"; "ai-review"]))
       (fun labelError =>
          console_log "Could not add labels to PR (this is normal if labels don't exist)"))
    (fun error =>
       if status_is error 422 then
         console_log ("Pull request already exists for " +:+ branchName)
       else throw error).

(** The [try] block of [updateRepository]. *)
Definition updateRepository_body (remote : Remote) (cfg : UpdateConfig)
    (r : RepositoryConfig) : M World unit :=
  installationOctokit <- getInstallationOctokit remote (owner r) (repo r);;
  let branchName := "workflow-automation/update-v" +:+ workflowVersion cfg in
  defaultBranch <- request remote installationOctokit (ReposGet (owner r) (repo r));;
  commit_sha <- request remote installationOctokit
                  (ReposGetBranch (owner r) (repo r) defaultBranch);;
  try_catch
    (request remote installationOctokit
       (GitCreateRef (owner r) (repo r) ("refs/heads/" +:+ branchName) commit_sha);;
     console_log ("Created branch: " +:+ branchName))
    (fun error =>
       if status_is error 422 then
         request remote installationOctokit
           (GitUpdateRef (owner r) (repo r) ("heads/" +:+ branchName) commit_sha);;
         console_log ("Updated existing branch: " +:+ branchName)
       else throw error);;
  let workflowContent := generateCallerWorkflow cfg r in
  let onDemandContent := generateOnDemandWorkflow cfg r in
  updateFile remote installationOctokit r branchName (workflowPath r) workflowContent
    ("Update AI review workflow to v" +:+ workflowVersion cfg);;
  let onDemandPath := replace_first "ai-review.yml" "ai-on-demand.yml" (workflowPath r) in
  updateFile remote installationOctokit r branchName onDemandPath onDemandContent
    ("Update AI on-demand workflow to v" +:+ workflowVersion cfg);;
  createPullRequest remote cfg installationOctokit r branchName defaultBranch;;
  console_log ("Successfully updated " +:+ slug r).

Definition updateRepository (remote : Remote) (cfg : UpdateConfig)
    (r : RepositoryConfig) : M World unit :=
  if negb (enabled r) then
    console_log ("Skipping disabled repository: " +:+ slug r)
  else
    console_log ("Checking repository: " +:+ slug r);;
    stale <- needsUpdate remote cfg r;;
    if negb stale then
      console_log ("Repository " +:+ slug r +:+ " is up to date")
    else if dryRun cfg then
      console_log ("[DRY RUN] Would update " +:+ slug r)
    else
      try_catch (updateRepository_body remote cfg r)
        (fun error =>
           console_log ("Failed to update " +:+ slug r +:+ ": " +:+ err_message error);;
           throw error).

(** What the [try] block of the loop of [run] does for one target. *)
Definition attempt (remote : Remote) (cfg : UpdateConfig) (r : RepositoryConfig)
    : M World bool :=
  updateRepository remote cfg r;;
  if enabled r then needsUpdate remote cfg r else ret false.

(** One turn of the loop of [run]. *)
Definition run_step (remote : Remote) (cfg : UpdateConfig)
    (results : Tally) (r : RepositoryConfig) : M World Tally :=
  try_catch
    (counted <- attempt remote cfg r;;
     if counted then
       ret (mkTally (S (success results)) (skipped results) (failed results))
     else
       ret (mkTally (success results) (S (skipped results)) (failed results)))
    (fun error =>
       console_log ("Failed to process " +:+ slug r +:+ ": " +:+ err_message error);;
       ret (mkTally (success results) (skipped results) (S (failed results)))).

Fixpoint run_loop (remote : Remote) (cfg : UpdateConfig)
    (results : Tally) (repos : list RepositoryConfig) : M World Tally :=
  match repos with
  | [] => ret results
  | r :: rest =>
      results' <- run_step remote cfg results r;;
      run_loop remote cfg results' rest
  end.

Definition summary_lines (results : Tally) : list string :=
  [ "Update Summary:";
    "  Successful updates: " +:+ pretty (success results);
    "  Skipped (up-to-date or disabled): " +:+ pretty (skipped results);
    "  Failed updates: " +:+ pretty (failed results) ].

(** What [run] prints before the loop. *)
Definition header_lines (cfg : UpdateConfig) : list string :=
  [ "Starting workflow update propagation";
    "Target version: v" +:+ workflowVersion cfg;
    "Repositories to process: " +:+ pretty (length (repositories cfg)) ] ++
  (if dryRun cfg then ["Running in DRY RUN mode"] else []).

(** [results] before the loop. *)
Definition zero : Tally := mkTally 0 0 0.

(** [run]: the value is the exit code, 1 for [process.exit(1)] and 0 when
    [run] returns. *)
Definition run (remote : Remote) (cfg : UpdateConfig) : M World nat :=
  for_each console_log (header_lines cfg);;
  results <- run_loop remote cfg zero (repositories cfg);;
  for_each console_log (summary_lines results);;
  if Nat.ltb 0 (failed results) then ret 1 else ret 0.

End UpdatePropagator.

(* ===================================================================== *)
(** ** scripts/update-propagation.ts: the version checker *)
(* ===================================================================== *)

Module VersionChecker.
Import JS Eff GitHub.
Local Open Scope eff_scope.

(** ['up-to-date' | 'outdated' | 'missing' | 'error'] *)
Inductive Status : Type :=
| Up_to_date
| Outdated
| Missing
| Error.

Definition Status_eqb (a b : Status) : bool :=
  match a, b with
  | Up_to_date, Up_to_date | Outdated, Outdated
  | Missing, Missing | Error, Error => true
  | _, _ => false
  end.

(** An entry of [this.repositories]. *)
Record Target : Type := mkTarget {
  t_owner : string;
  t_repo : string;
  t_workflowPath : string;
  t_configProfile : option string
}.

Record RepositoryInfo : Type := mkInfo {
  owner : string;
  repo : string;
  workflowPath : string;
  currentVersion : option string;
  lastChecked : nat;
  status : Status;
  errorMessage : option string;
  pullRequestUrl : option string;
  configProfile : option string
}.

(** A value of [versionDistribution]. The object starts as [{}] and so
    inherits the members of [Object.prototype]: for a version that is the
    name of one of them, [versionDistribution[v] || 0] is that member, a
    function, and adding 1 gives a string, the text of the member followed
    by the character [1]; every later occurrence appends another [1]. *)
Inductive Occurrences : Type :=
| Count (n : nat)
| MemberText (member : string) (ones : nat).

Record VersionSummary : Type := mkVersionSummary {
  versionDistribution : gmap string Occurrences;
  oldestVersion : option string;
  newestVersion : option string
}.

Record VersionReport : Type := mkVersionReport {
  centralVersion : string;
  reportDate : nat;
  totalRepositories : nat;
  upToDate : nat;
  outdated : nat;
  missing : nat;
  errors : nat;
  repositories : list RepositoryInfo;
  summary : VersionSummary
}.

Definition centralRepo_owner : string := "signinwithethereum".
Definition centralRepo_repo : string := "workflow-automation".

Definition set_currentVersion (v : option string) (i : RepositoryInfo) : RepositoryInfo :=
  mkInfo (owner i) (repo i) (workflowPath i) v (lastChecked i) (status i)
         (errorMessage i) (pullRequestUrl i) (configProfile i).

Definition set_status (s : Status) (i : RepositoryInfo) : RepositoryInfo :=
  mkInfo (owner i) (repo i) (workflowPath i) (currentVersion i) (lastChecked i) s
         (errorMessage i) (pullRequestUrl i) (configProfile i).

Definition set_errorMessage (m : string) (i : RepositoryInfo) : RepositoryInfo :=
  mkInfo (owner i) (repo i) (workflowPath i) (currentVersion i) (lastChecked i) (status i)
         (Some m) (pullRequestUrl i) (configProfile i).

Definition set_pullRequestUrl (u : string) (i : RepositoryInfo) : RepositoryInfo :=
  mkInfo (owner i) (repo i) (workflowPath i) (currentVersion i) (lastChecked i) (status i)
         (errorMessage i) (Some u) (configProfile i).

Definition getInstallationOctokit (remote : Remote) (owner repo : string) : M World Octokit :=
  try_catch
    (installation_id <- request remote AppClient (AppsGetRepoInstallation owner repo);;
     ret (InstallationClient installation_id))
    (fun error =>
       if status_is error 404 then
         throw (JS.Error ("GitHub App not installed on " +:+ owner +:+ "/" +:+ repo))
       else throw error).

(** [tag.replace(/^v/, '')] *)
Definition strip_leading_v (s : string) : string :=
  match s with
  | String "v" rest => rest
  | _ => s
  end.

(** [commits[0]?.sha.substring(0, 7) || 'unknown'] *)
Definition short_sha (commits : list string) : string :=
  match commits with
  | sha :: _ =>
      let short := take_chars 7 sha in
      if String.eqb short EmptyString then "unknown" else short
  | [] => "unknown"
  end.

Definition getCentralVersion (remote : Remote) : M World string :=
  try_catch
    (centralOctokit <- getInstallationOctokit remote centralRepo_owner centralRepo_repo;;
     tag_name <- request remote centralOctokit
                   (ReposGetLatestRelease centralRepo_owner centralRepo_repo);;
     ret (strip_leading_v tag_name))
    (fun error =>
       if status_is error 404 then
         try_catch
           (centralOctokit <- getInstallationOctokit remote centralRepo_owner centralRepo_repo;;
            commits <- request remote centralOctokit
                         (ReposListCommits centralRepo_owner centralRepo_repo 1);;
            ret (short_sha commits))
           (fun commitError =>
              console_log ("Failed to get commits from central repository: " +:+
                           err_message commitError);;
              ret "unknown")
       else throw error).

(** [\s] on the code units below 256: tab, line feed, vertical tab, form
    feed, carriage return, space and no-break space. *)
Definition is_space (c : ascii) : bool :=
  let n := nat_of_ascii c in
  (Nat.leb 9 n && Nat.leb n 13) || Nat.eqb n 32 || Nat.eqb n 160.

(** The longest prefix of characters that are not white space:
    [([^\s\n]+)] once it has a first character. *)
Fixpoint token (s : string) : string :=
  match s with
  | EmptyString => EmptyString
  | String c rest => if is_space c then EmptyString else String c (token rest)
  end.

(** [[^@]*@([^\s\n]+)] from the start of [s]: the at-sign is the first one,
    and the capture must not be empty. *)
Fixpoint match_reference_tail (s : string) : option string :=
  match s with
  | EmptyString => None
  | String c rest =>
      if Ascii.eqb c "@" then
        (if String.eqb (token rest) EmptyString then None else Some (token rest))
      else match_reference_tail rest
  end.

Definition central_reference : string := "signinwithethereum/workflow-automation".

(** [content.match(/signinwithethereum\/workflow-automation[^@]*@([^\s\n]+)/)]:
    the capture of the leftmost match. *)
Fixpoint match_reference (s : string) : option string :=
  let here :=
    if String.prefix central_reference s then
      match_reference_tail (drop_chars (String.length central_reference) s)
    else None in
  match here with
  | Some capture => Some capture
  | None =>
      match s with
      | EmptyString => None
      | String _ rest => match_reference rest
      end
  end.

Definition extractVersionFromWorkflow (content : string) : option string :=
  match match_reference content with
  | Some version => Some (if startsWith "v" version then drop_chars 1 version else version)
  | None => None
  end.

(** The local [repoInfo] lives next to the process state while a target is
    checked. *)
Definition C : Type -> Type := M (World * RepositoryInfo).

Definition in_world {A} (m : M World A) : C A :=
  fun s => let '(r, w') := m (fst s) in (r, (w', snd s)).

Definition update_info (f : RepositoryInfo -> RepositoryInfo) : C unit :=
  modify (fun s => (fst s, f (snd s))).

(** [if (repoInfo.currentVersion)] *)
Definition version_truthy (v : option string) : bool :=
  match v with
  | Some s => negb (String.eqb s EmptyString)
  | None => false
  end.

(** The [try] block of [checkRepositoryVersion]. *)
Definition checkRepositoryVersion_body (remote : Remote) (t : Target) : C unit :=
  in_world (console_log ("Checking " +:+ t_owner t +:+ "/" +:+ t_repo t +:+ "..."));;
  installationOctokit <- in_world (getInstallationOctokit remote (t_owner t) (t_repo t));;
  fileData <- in_world (request remote installationOctokit
                          (ReposGetContent (t_owner t) (t_repo t) (t_workflowPath t) None));;
  match content fileData with
  | Some text =>
      update_info (set_currentVersion (extractVersionFromWorkflow text));;
      s <- get;;
      if version_truthy (currentVersion (snd s)) then
        update_info (set_status Up_to_date)
      else
        update_info (set_status Error);;
        update_info (set_errorMessage "Could not extract version from workflow file")
  | None =>
      update_info (set_status Error);;
      update_info (set_errorMessage "Workflow file is not a regular file")
  end;;
  pulls <- in_world (request remote installationOctokit
                       (PullsList (t_owner t) (t_repo t) "open"
                                  (t_owner t +:+ ":workflow-automation/update-")));;
  match pulls with
  | first :: _ => update_info (set_pullRequestUrl (html_url first))
  | [] => ret tt
  end.

(** The [catch] block of [checkRepositoryVersion]. *)
Definition checkRepositoryVersion_handler (t : Target) (error : JsError) : C unit :=
  if includes "not installed" (err_message error) then
    update_info (set_status Error);;
    update_info (set_errorMessage "GitHub App not installed on repository");;
    in_world (console_log ("GitHub App not installed on " +:+ t_owner t +:+ "/" +:+ t_repo t))
  else if status_is error 404 then
    update_info (set_status Missing);;
    update_info (set_errorMessage "Workflow file not found or repository not accessible");;
    in_world (console_log ("Repository or workflow file not found: " +:+
                           t_owner t +:+ "/" +:+ t_repo t))
  else
    update_info (set_status Error);;
    update_info (set_errorMessage (err_message error));;
    in_world (console_log ("Error checking " +:+ t_owner t +:+ "/" +:+ t_repo t +:+ ": " +:+
                           err_message error)).

(** [checkRepositoryVersion]; [lastChecked] is the logical time of the
    check. *)
Definition checkRepositoryVersion (remote : Remote) (t : Target) : M World RepositoryInfo :=
  fun w =>
    let repoInfo :=
      mkInfo (t_owner t) (t_repo t) (t_workflowPath t) None (clock w) Error
             None None (t_configProfile t) in
    let '(_, (w', repoInfo')) :=
      try_catch (checkRepositoryVersion_body remote t)
                (checkRepositoryVersion_handler t) (w, repoInfo) in
    (Ok repoInfo', w').

Definition version_matches (current : option string) (centralVersion : string) : bool :=
  match current with
  | Some v =>
      String.eqb v centralVersion || String.eqb v ("v" +:+ centralVersion) ||
      String.eqb v "main"
  | None => false
  end.

(** One turn of the loop of [updateVersionStatus]. *)
Definition updateVersionStatus_step (centralVersion : string) (r : RepositoryInfo)
    : RepositoryInfo :=
  match status r with
  | Error | Missing => r
  | _ =>
      if version_matches (currentVersion r) centralVersion
      then set_status Up_to_date r
      else set_status Outdated r
  end.

(** [updateVersionStatus]: the array after the loop has run over it. *)
Fixpoint updateVersionStatus (repositories : list RepositoryInfo) (centralVersion : string)
    : list RepositoryInfo :=
  match repositories with
  | [] => []
  | r :: rest =>
      updateVersionStatus_step centralVersion r :: updateVersionStatus rest centralVersion
  end.

(** The loop of [run] that checks every target. *)
Fixpoint check_all (remote : Remote) (targets : list Target)
    (acc : list RepositoryInfo) : M World (list RepositoryInfo) :=
  match targets with
  | [] => ret acc
  | t :: rest =>
      repoInfo <- checkRepositoryVersion remote t;;
      check_all remote rest (acc ++ [repoInfo])
  end.

Definition count_status (s : Status) (repositories : list RepositoryInfo) : nat :=
  length (filter (fun r => Status_eqb (status r) s = true) repositories).

(** [lt a b] is [a < b] on strings, by code unit. *)
Definition string_lt (a b : string) : bool :=
  match String.compare a b with
  | Lt => true
  | _ => false
  end.

(** The names an empty object inherits from [Object.prototype], apart
    from [__proto__]. *)
Definition object_prototype_members : list string :=
  [ "constructor"; "hasOwnProperty"; "isPrototypeOf"; "propertyIsEnumerable";
    "toLocaleString"; "toString"; "valueOf";
    "__defineGetter__"; "__defineSetter__"; "__lookupGetter__"; "__lookupSetter__" ].

(** [versionDistribution[v] = (versionDistribution[v] || 0) + 1]. Reading
    [__proto__] gives the prototype object and assigning a string to it
    does nothing, so that version never gets an entry. *)
Definition count_version (dist : gmap string Occurrences) (v : string)
    : gmap string Occurrences :=
  match dist !! v with
  | Some (Count n) => <[v := Count (n + 1)]> dist
  | Some (MemberText member ones) => <[v := MemberText member (ones + 1)]> dist
  | None =>
      if String.eqb v "__proto__" then dist
      else if bool_decide (v ∈ object_prototype_members) then <[v := MemberText v 1]> dist
      else <[v := Count 1]> dist
  end.

Definition generateSummary_step (acc : VersionSummary) (r : RepositoryInfo) : VersionSummary :=
  match currentVersion r with
  | Some v =>
      if String.eqb v EmptyString then acc
      else
        mkVersionSummary
          (count_version (versionDistribution acc) v)
          (match oldestVersion acc with
           | Some o => if String.eqb o EmptyString || string_lt v o then Some v else Some o
           | None => Some v
           end)
          (match newestVersion acc with
           | Some n => if String.eqb n EmptyString || string_lt n v then Some v else Some n
           | None => Some v
           end)
  | None => acc
  end.

Definition generateSummary (repositories : list RepositoryInfo) : VersionSummary :=
  fold_left generateSummary_step repositories (mkVersionSummary ∅ None None).

(** [run], up to the report object (the two files written from it and the
    console summary are left out). *)
Definition run (remote : Remote) (targets : list Target) : M World VersionReport :=
  centralVersion <- getCentralVersion remote;;
  console_log ("Central version: v" +:+ centralVersion);;
  console_log ("Repositories to check: " +:+ pretty (length targets));;
  checked <- check_all remote targets [];;
  let repositories := updateVersionStatus checked centralVersion in
  w <- get;;
  ret (mkVersionReport centralVersion (clock w) (length repositories)
         (count_status Up_to_date repositories) (count_status Outdated repositories)
         (count_status Missing repositories) (count_status Error repositories)
         repositories (generateSummary repositories)).

(** [main]: the exit code once the checker is built. *)
Definition exit_code (remote : Remote) (targets : list Target) (w : World) : nat :=
  match fst (run remote targets w) with
  | Ok report =>
      if Nat.ltb 0 (outdated report) || Nat.ltb 0 (missing report) ||
         Nat.ltb 0 (errors report)
      then 1 else 0
  | Throw _ => 1
  end.

End VersionChecker.

(* ===================================================================== *)
(** ** Concrete engines, documents and remotes *)
(* ===================================================================== *)

Module Samples.
Import JS Eff.

(** Node's [path.extname] on POSIX paths: the last dot of the last path
    segment and what follows, unless that dot opens the segment or the
    segment is [..]. *)
Fixpoint skip_slashes (cs : list ascii) : list ascii :=
  match cs with
  | c :: rest => if Ascii.eqb c "/" then skip_slashes rest else cs
  | [] => []
  end.

Fixpoint up_to (stop : ascii) (cs : list ascii) : list ascii :=
  match cs with
  | c :: rest => if Ascii.eqb c stop then [] else c :: up_to stop rest
  | [] => []
  end.

(** The last path segment, read from its end. *)
Definition last_segment_rev (p : string) : list ascii :=
  up_to "/" (skip_slashes (rev (list_ascii_of_string p))).

Definition node_extname (p : string) : string :=
  let seg := last_segment_rev p in
  let after_dot := up_to "." seg in
  let from_dot := drop (length after_dot) seg in
  match from_dot with
  | [] => EmptyString
  | _ :: [] => EmptyString
  | _ :: _ :: _ =>
      if bool_decide (seg = ["."%char; "."%char]) then EmptyString
      else string_of_list_ascii (rev (take (S (length after_dot)) seg))
  end.

Definition ends_with_slash (p : string) : bool :=
  match rev (list_ascii_of_string p) with
  | c :: _ => Ascii.eqb c "/"
  | [] => false
  end.

(** [path.join(dir, name)] on a normalised directory and a plain name. *)
Definition simple_join (dir name : string) : string :=
  if ends_with_slash dir then dir +:+ name else dir +:+ "/" +:+ name.

Definition doc_contradiction_text : string :=
  "{ 'review_rules': { 'check_tests': false, 'min_test_coverage': 80 } }".

Definition doc_contradiction : json :=
  JObj [("review_rules",
         JObj [("check_tests", JBool false); ("min_test_coverage", JNum 80)])].

Definition doc_exclusions_text : string :=
  "{ 'exclusions': { 'file_patterns': ['build/x.js', 'build/x.js', 'src/a.ts'], 'directory_patterns': ['build/', 'dist/'] } }".

Definition doc_exclusions : json :=
  JObj [("exclusions",
         JObj [("file_patterns", JArr [JStr "build/x.js"; JStr "build/x.js"; JStr "src/a.ts"]);
               ("directory_patterns", JArr [JStr "build/"; JStr "dist/"])])].

Definition doc_clean_text : string := "{ 'review_rules': { 'check_tests': true } }".

Definition doc_clean : json :=
  JObj [("review_rules", JObj [("check_tests", JBool true)])].

(** [JSON.parse] on the sample texts (written here with single quotes for
    the double quotes of JSON). *)
Definition sample_parse (text : string) : string + json :=
  if String.eqb text doc_contradiction_text then inr doc_contradiction
  else if String.eqb text doc_exclusions_text then inr doc_exclusions
  else if String.eqb text doc_clean_text then inr doc_clean
  else inl "Unexpected token".

Definition sample_type_error_message (te : type_error) : string :=
  match te with
  | NullProperty p => "null is not an object (reading " +:+ p +:+ ")"
  | NotAFunction _ m => m +:+ " is not a function"
  | NotIterable _ => "value is not iterable"
  end.

Definition sample_runtime : Runtime :=
  {| JSON_parse := sample_parse;
     string_to_number := fun s => if String.eqb s EmptyString then Fin 0 else NaN;
     number_to_string := fun q => pretty (Qnum q `div` Z.pos (Qden q))%Z;
     type_error_message := sample_type_error_message;
     path_join := simple_join;
     extname := node_extname |}.

(** Ajv on the empty schema [{}], which every document satisfies. *)
Definition accept_all : ConfigValidator.Ajv :=
  {| ConfigValidator.compile := fun _ => Ok (fun _ => None) |}.

Definition sample_fs : ConfigValidator.FileSystem :=
  {| ConfigValidator.existsSync := fun p =>
       bool_decide (p ∈ ["configs"; "configs/contradiction.json"; "configs/exclusions.json";
                         "configs/clean.json"; "notes.txt"]);
     ConfigValidator.readFileSync := fun p =>
       if String.eqb p "configs/contradiction.json" then Ok doc_contradiction_text
       else if String.eqb p "configs/exclusions.json" then Ok doc_exclusions_text
       else if String.eqb p "configs/clean.json" then Ok doc_clean_text
       else if String.eqb p "notes.txt" then Ok "remember the milk"
       else Throw (Error "EISDIR: illegal operation on a directory, read");
     ConfigValidator.readdirSync := fun p =>
       if String.eqb p "configs"
       then Ok ["contradiction.json"; "exclusions.json"; "clean.json"; "README.md"]
       else Throw (Error "ENOTDIR: not a directory, scandir");
     (* Bun answers a number for every path, the directory included. *)
     ConfigValidator.size_undefined := fun _ => false |}.

Definition sample_validator (paths : list string) : ConfigValidator.Validator :=
  {| ConfigValidator.runtime := sample_runtime;
     ConfigValidator.ajv := accept_all;
     ConfigValidator.fs := sample_fs;
     ConfigValidator.schema := JObj [];
     ConfigValidator.schemaPath := "./configs/schema.json";
     ConfigValidator.configPaths := paths |}.

(** The same documents under another directory. *)
Definition moved_fs : ConfigValidator.FileSystem :=
  {| ConfigValidator.existsSync := fun p =>
       bool_decide (p ∈ ["copy/exclusions.json"; "copy/clean.json"]);
     ConfigValidator.readFileSync := fun p =>
       if String.eqb p "copy/exclusions.json" then Ok doc_exclusions_text
       else if String.eqb p "copy/clean.json" then Ok doc_clean_text
       else Throw (Error "ENOENT: no such file or directory, open");
     ConfigValidator.readdirSync := fun p =>
       Throw (Error "ENOTDIR: not a directory, scandir");
     ConfigValidator.size_undefined := fun p => false |}.

Definition moved_validator : ConfigValidator.Validator :=
  {| ConfigValidator.runtime := sample_runtime;
     ConfigValidator.ajv := accept_all;
     ConfigValidator.fs := moved_fs;
     ConfigValidator.schema := JObj [];
     ConfigValidator.schemaPath := "./configs/schema.json";
     ConfigValidator.configPaths := ["copy"] |}.

End Samples.

Module RemoteSamples.
Import JS Eff GitHub.

Definition fresh_world : World := mkWorld 0 [] [].

Definition caller_workflow_text : string :=
"jobs:
  ai-review:
    uses: signinwithethereum/workflow-automation/.github/workflows/pr-review.yml@v1.2.3
    with:
      config-profile: default".

(** Every request succeeds; the workflow file references v1.2.3. *)
Definition all_well : Remote :=
  fun n via c =>
    match c return result (payload c) with
    | AppsGetRepoInstallation _ _ => Ok 7
    | ReposGetContent _ _ _ _ => Ok (mkContent (Some caller_workflow_text) (Some "3f2a"))
    | ReposGet _ _ => Ok "main"
    | ReposGetBranch _ _ _ => Ok "9c1d2e3f4a5b"
    | GitCreateRef _ _ _ _ => Ok tt
    | GitUpdateRef _ _ _ _ => Ok tt
    | ReposCreateOrUpdateFileContents _ _ _ _ _ _ _ => Ok tt
    | PullsCreate _ _ _ _ _ _ => Ok (mkPull "https://github.com/acme/app/pull/12" 12)
    | IssuesAddLabels _ _ _ _ => Ok tt
    | PullsList _ _ _ _ => Ok []
    | ReposGetLatestRelease _ _ => Ok "v1.2.3"
    | ReposListCommits _ _ _ => Ok ["9c1d2e3f4a5b6c7d"]
    end.

(** As [all_well], but listing the open pull requests fails with 500. *)
Definition pulls_unavailable : Remote :=
  fun n via c =>
    match c return result (payload c) with
    | PullsList _ _ _ _ => Throw (mkError (Some 500) "Internal Server Error")
    | other => all_well n via other
    end.

(** As [all_well], but listing the open pull requests answers 404. *)
Definition pulls_hidden : Remote :=
  fun n via c =>
    match c return result (payload c) with
    | PullsList _ _ _ _ => Throw (mkError (Some 404) "Not Found")
    | other => all_well n via other
    end.

(** As [all_well], but the workflow file names no version after [@v]. *)
Definition dangling_reference : Remote :=
  fun n via c =>
    match c return result (payload c) with
    | ReposGetContent _ _ _ _ =>
        Ok (mkContent (Some "uses: signinwithethereum/workflow-automation/x.yml@v
    with:") (Some "3f2a"))
    | other => all_well n via other
    end.

(** As [all_well], but the latest release cannot be read: 500. *)
Definition release_unavailable : Remote :=
  fun n via c =>
    match c return result (payload c) with
    | ReposGetLatestRelease _ _ => Throw (mkError (Some 500) "Internal Server Error")
    | other => all_well n via other
    end.

(** As [all_well], but there is no release: 404. *)
Definition no_release : Remote :=
  fun n via c =>
    match c return result (payload c) with
    | ReposGetLatestRelease _ _ => Throw (mkError (Some 404) "Not Found")
    | other => all_well n via other
    end.

(** As [all_well], but every request about the repository [broken] fails
    with 403. *)
Definition one_forbidden : Remote :=
  fun n via c =>
    match c return result (payload c) with
    | AppsGetRepoInstallation _ repo =>
        if String.eqb repo "broken" then Throw (mkError (Some 403) "Forbidden") else Ok 7
    | other => all_well n via other
    end.

Definition sample_target : VersionChecker.Target :=
  VersionChecker.mkTarget "acme" "app" ".github/workflows/ai-review.yml" None.

Definition repo_named (name : string) (enabled : bool) : UpdatePropagator.RepositoryConfig :=
  UpdatePropagator.mkRepo "acme" name ".github/workflows/ai-review.yml" None enabled None.

Definition sample_config : UpdatePropagator.UpdateConfig :=
  UpdatePropagator.mkConfig
    [repo_named "app" true; repo_named "broken" true; repo_named "paused" false;
     repo_named "site" true]
    "2.0.0" "Routine update." false.

Definition info_with (token : option string) (s : VersionChecker.Status)
    : VersionChecker.RepositoryInfo :=
  VersionChecker.mkInfo "acme" "app" ".github/workflows/ai-review.yml" token 0 s
                        None None None.

Definition sample_infos : list VersionChecker.RepositoryInfo :=
  [ info_with (Some "1.2.3") VersionChecker.Up_to_date;
    info_with (Some "v1.2.3") VersionChecker.Up_to_date;
    info_with (Some "main") VersionChecker.Up_to_date;
    info_with (Some "1.0.0") VersionChecker.Up_to_date;
    info_with None VersionChecker.Missing ].

End RemoteSamples.

(* ===================================================================== *)
(** ** What a validator computation does to its result record *)
(* ===================================================================== *)

Module ValidatorLog.
Import JS Eff ConfigValidator.

(** A result record after [valid] was assigned [vd] (if at all) and the
    messages [es] and [ws] were pushed. *)
Definition amend (vd : option bool) (es ws : list string) (r : ValidationResult)
    : ValidationResult :=
  mkResult (file r) (default (valid r) vd) (errors r ++ es) (warnings r ++ ws).

(** [m] ends in [o] and does exactly that, whatever record it starts from:
    it reads nothing back. *)
Definition effect {A} (m : V A) (o : result A) (vd : option bool)
    (es ws : list string) : Prop :=
  forall r, m r = (o, amend vd es ws r).

(** Later assignments to [valid] win. *)
Definition then_valid (vd vd' : option bool) : option bool :=
  match vd' with
  | Some b => Some b
  | None => vd
  end.

Definition has_effect {A} (m : V A) : Prop :=
  exists o vd es ws, effect m o vd es ws.

(** [m] never assigns [valid]; the errors it pushes satisfy [P], the
    warnings [Q]. *)
Definition writes {A} (P Q : string -> Prop) (m : V A) : Prop :=
  exists o es ws, effect m o None es ws /\ Forall P es /\ Forall Q ws.

(** [m] returns: it does not throw. *)
Definition returns (m : V unit) : Prop :=
  exists vd es ws, effect m (Ok tt) vd es ws.

Definition any_message (m : string) : Prop := True.
Definition no_message (m : string) : Prop := False.

(** The messages of the redundant-exclusion check, file patterns outside,
    directory patterns inside. *)
Definition redundant_warnings (files dirs : list string) : list string :=
  flat_map (fun F =>
              flat_map (fun P =>
                          if includes (replace_first "/" EmptyString P) F
                          then [redundant_exclusion_message F P]
                          else [])
                       dirs)
           files.

(** The formatted schema violations of a document. *)
Definition schema_messages (rt : Runtime) (outcome : option (list ErrorObject))
    : list string :=
  match outcome with
  | None => []
  | Some violations => map (formatAjvError rt) violations
  end.

(** The [model] entry of a document is absent or a string. *)
Definition model_is_text (config : json) : Prop :=
  match get_prop config "model" with
  | None | Some (JStr _) => True
  | Some _ => False
  end.

(** A message the redundant-exclusion check could not have written. *)
Definition not_redundant_message (m : string) : Prop :=
  startsWith "Potential redundant exclusion" m = false.

(** How often [m] occurs in the message lists of [rs]. *)
Definition occurrences (field : ValidationResult -> list string) (m : string)
    (rs : list ValidationResult) : nat :=
  list_sum (map (fun r => count_occ string_dec (field r) m) rs).

(** How many of [rs] hold [m] in the message list. *)
Definition results_containing (field : ValidationResult -> list string) (m : string)
    (rs : list ValidationResult) : nat :=
  length (filter (fun r => m ∈ field r) rs).

(** A counter object read at [m]: absent until [m] was counted once. *)
Definition counted (n : nat) : option nat :=
  if Nat.eqb n 0 then None else Some n.

End ValidatorLog.

(* ===================================================================== *)
(** ** Vocabulary for the further properties *)
(* ===================================================================== *)

Module Vocabulary.
Import JS Eff ConfigValidator GitHub.




(** Whether a string holds a white-space character. *)
Fixpoint has_space (s : string) : bool :=
  match s with
  | EmptyString => false
  | String c rest => VersionChecker.is_space c || has_space rest
  end.

(** Whether a string holds an at-sign. *)
Fixpoint has_at (s : string) : bool :=
  match s with
  | EmptyString => false
  | String c rest => Ascii.eqb c "@" || has_at rest
  end.

(** No suffix of [head], followed by the reference to the central
    repository, starts with that reference: in [head] followed by the
    reference, the reference occurs at the end first. *)
Fixpoint clear_before (head : string) : bool :=
  match head with
  | EmptyString => true
  | String _ rest =>
      negb (String.prefix VersionChecker.central_reference
              (head +:+ VersionChecker.central_reference)) &&
      clear_before rest
  end.

(** The generated workflow files, cut at the reference to the central
    repository. *)
Definition caller_preamble : string :=
"name: AI Code Review
on:
  pull_request:
    types: [opened, synchronize, reopened]

permissions:
  contents: read
  pull-requests: write
  issues: write
  actions: read    

jobs:
  ai-review:
    uses: ".

Definition caller_rest (r : UpdatePropagator.RepositoryConfig) : string :=
"    with:
      config-profile: " +:+ UpdatePropagator.dq +:+ UpdatePropagator.profile_or_default r
  +:+ UpdatePropagator.dq +:+ "
" +:+ UpdatePropagator.secrets_block.

Definition on_demand_preamble : string :=
"name: AI On-Demand Assistant  
on:
  issue_comment:
    types: [created]
  pull_request_review_comment:
    types: [created]
  pull_request_review:
    types: [submitted]
  issues:
    types: [opened]

permissions:
  contents: read
  issues: write
  pull-requests: write
  actions: read

jobs:
  ai-response:
    uses: ".

Definition on_demand_rest (r : UpdatePropagator.RepositoryConfig) : string :=
"    with:
      config-profile: " +:+ UpdatePropagator.dq +:+ UpdatePropagator.profile_or_default r
  +:+ UpdatePropagator.dq +:+ "
      bot-mention: " +:+ UpdatePropagator.dq +:+ "@siwe-dev-ops" +:+ UpdatePropagator.dq +:+ "
      enable-auto-labeling: true
      enable-escalation: true
" +:+ UpdatePropagator.secrets_block.

Definition line_feed : ascii := "010"%char.

(** The requests that change nothing on the remote side. *)
Definition is_read (c : Call) : bool :=
  match c with
  | AppsGetRepoInstallation _ _ | ReposGetContent _ _ _ _ | ReposGet _ _
  | ReposGetBranch _ _ _ | PullsList _ _ _ _ | ReposGetLatestRelease _ _
  | ReposListCommits _ _ _ => true
  | GitCreateRef _ _ _ _ | GitUpdateRef _ _ _ _
  | ReposCreateOrUpdateFileContents _ _ _ _ _ _ _ | PullsCreate _ _ _ _ _ _
  | IssuesAddLabels _ _ _ _ => false
  end.

(** The two requests of [needsUpdate]: the lookup of the installation and
    the lookup of a file on the default branch. Neither changes anything
    on the remote side. *)
Definition is_lookup (c : Call) : bool :=
  match c with
  | AppsGetRepoInstallation _ _ | ReposGetContent _ _ _ None => true
  | _ => false
  end.

(** The repository a request names. *)
Definition call_owner (c : Call) : string :=
  match c with
  | AppsGetRepoInstallation o _ | ReposGetContent o _ _ _ | ReposGet o _
  | ReposGetBranch o _ _ | PullsList o _ _ _ | ReposGetLatestRelease o _
  | ReposListCommits o _ _ | GitCreateRef o _ _ _ | GitUpdateRef o _ _ _
  | ReposCreateOrUpdateFileContents o _ _ _ _ _ _ | PullsCreate o _ _ _ _ _
  | IssuesAddLabels o _ _ _ => o
  end.

Definition call_repo (c : Call) : string :=
  match c with
  | AppsGetRepoInstallation _ r | ReposGetContent _ r _ _ | ReposGet _ r
  | ReposGetBranch _ r _ | PullsList _ r _ _ | ReposGetLatestRelease _ r
  | ReposListCommits _ r _ | GitCreateRef _ r _ _ | GitUpdateRef _ r _ _
  | ReposCreateOrUpdateFileContents _ r _ _ _ _ _ | PullsCreate _ r _ _ _ _
  | IssuesAddLabels _ r _ _ => r
  end.

(** The branch the propagator works on. *)
Definition update_branch (cfg : UpdatePropagator.UpdateConfig) : string :=
  "workflow-automation/update-v" +:+ UpdatePropagator.workflowVersion cfg.

(** A request that creates or moves a reference, writes a file or opens a
    pull request does so on [branch]; a file is looked up on [branch] or
    on the default branch. *)
Definition on_branch (branch : string) (c : Call) : Prop :=
  match c with
  | GitCreateRef _ _ ref _ => ref = "refs/heads/" +:+ branch
  | GitUpdateRef _ _ ref _ => ref = "heads/" +:+ branch
  | ReposCreateOrUpdateFileContents _ _ _ _ _ b _ => b = branch
  | PullsCreate _ _ _ _ head _ => head = branch
  | ReposGetContent _ _ _ ref => ref = None \/ ref = Some branch
  | _ => True
  end.

(** What the propagator may ask on behalf of the target [r]. *)
Definition addressed (cfg : UpdatePropagator.UpdateConfig)
    (r : UpdatePropagator.RepositoryConfig) (c : Call) : Prop :=
  call_owner c = UpdatePropagator.owner r /\
  call_repo c = UpdatePropagator.repo r /\
  on_branch (update_branch cfg) c.

(** Running [m] adds the requests [new] to the log, one tick of the
    request counter each, and every one of them satisfies [P]. *)
Definition emits {S A} (world : S -> World) (P : Call -> Prop) (m : M S A) : Prop :=
  forall s,
    exists new,
      calls (world (snd (m s))) = calls (world s) ++ new /\
      clock (world (snd (m s))) = clock (world s) + length new /\
      Forall (fun vc => P (snd vc)) new.

(** Running [m] makes at most [n] requests, all of them reads. *)
Definition reads_within {A} (n : nat) (m : M World A) : Prop :=
  forall w,
    exists new,
      calls (snd (m w)) = calls w ++ new /\
      clock (snd (m w)) = clock w + length new /\
      length new <= n /\
      Forall (fun vc => is_read (snd vc) = true) new.

(** A failed answer that the propagator does not take as a failure of the
    target: a file that is not there (404 on a file lookup), a branch or
    a pull request that is there already (422 on their creation), and
    whatever the label request answers. *)
Definition tolerated (c : Call) (e : JsError) : bool :=
  match c with
  | ReposGetContent _ _ _ _ => status_is e 404
  | GitCreateRef _ _ _ _ => status_is e 422
  | PullsCreate _ _ _ _ _ _ => status_is e 422
  | IssuesAddLabels _ _ _ _ => true
  | _ => false
  end.

(** Among the requests [new], the first of which was the [n]-th request of
    the process, one was answered by a failure that is not tolerated. *)
Definition hard_failure (remote : Remote) (n : nat) (new : list (Octokit * Call)) : Prop :=
  exists i via c e,
    new !! i = Some (via, c) /\ remote (n + i) via c = Throw e /\ tolerated c e = false.

(** The requests of an update of the target [r] that goes through, in
    order: the installation, the default branch [base] and its head
    [commit], the update branch (created, and moved by [moved] when it was
    there), each generated file looked up and written, the pull request,
    and the label request [labelled] when the pull request was opened. *)
Definition update_sequence (cfg : UpdatePropagator.UpdateConfig)
    (r : UpdatePropagator.RepositoryConfig)
    (client : Octokit) (base commit : string) (found found' : option string)
    (moved labelled : list (Octokit * Call)) : list (Octokit * Call) :=
  let owner := UpdatePropagator.owner r in
  let repo := UpdatePropagator.repo r in
  let version := UpdatePropagator.workflowVersion cfg in
  let branch := "workflow-automation/update-v" +:+ version in
  let onDemandPath :=
    replace_first "ai-review.yml" "ai-on-demand.yml" (UpdatePropagator.workflowPath r) in
  [(AppClient, AppsGetRepoInstallation owner repo);
   (client, ReposGet owner repo);
   (client, ReposGetBranch owner repo base);
   (client, GitCreateRef owner repo ("refs/heads/" +:+ branch) commit)]
  ++ moved ++
  [(client, ReposGetContent owner repo (UpdatePropagator.workflowPath r) (Some branch));
   (client, ReposCreateOrUpdateFileContents owner repo (UpdatePropagator.workflowPath r)
              ("Update AI review workflow to v" +:+ version)
              (UpdatePropagator.generateCallerWorkflow cfg r) branch found);
   (client, ReposGetContent owner repo onDemandPath (Some branch));
   (client, ReposCreateOrUpdateFileContents owner repo onDemandPath
              ("Update AI on-demand workflow to v" +:+ version)
              (UpdatePropagator.generateOnDemandWorkflow cfg r) branch found');
   (client, PullsCreate owner repo (UpdatePropagator.pull_request_title cfg)
              (UpdatePropagator.pull_request_body cfg r) branch base)]
  ++ labelled.

(** Running [m] throws exactly when one of its requests was answered by a
    failure that is not tolerated. *)
Definition faithful {A} (remote : Remote) (m : M World A) : Prop :=
  forall w,
    exists new,
      calls (snd (m w)) = calls w ++ new /\
      clock (snd (m w)) = clock w + length new /\
      (is_throw (fst (m w)) = true <-> hard_failure remote (clock w) new).

(** The requests of a log that change something on the remote side. *)
Definition changes (log : list (Octokit * Call)) : list (Octokit * Call) :=
  filter (fun vc => is_read (snd vc) = false) log.

(** The versions [generateSummary] counts: the truthy [currentVersion]s,
    in the order of the entries. *)
Definition reported_version (r : VersionChecker.RepositoryInfo) : option string :=
  match VersionChecker.currentVersion r with
  | Some v => if String.eqb v EmptyString then None else Some v
  | None => None
  end.

Definition reported_versions (repos : list VersionChecker.RepositoryInfo) : list string :=
  omap reported_version repos.

Definition occurrences (v : string) (vs : list string) : nat :=
  length (filter (fun x => x = v) vs).

(** What [versionDistribution] holds for the string [v] when [n] entries
    carry it. *)
Definition recorded (v : string) (n : nat) : option VersionChecker.Occurrences :=
  match n with
  | 0 => None
  | S _ =>
      if String.eqb v "__proto__" then None
      else if bool_decide (v ∈ VersionChecker.object_prototype_members)
           then Some (VersionChecker.MemberText v n)
           else Some (VersionChecker.Count n)
  end.

(** [oldest] and [newest] are a least and a greatest element of [vs] in
    the order of [<] on strings, and are absent when [vs] is empty. *)
Definition extremes (vs : list string) (oldest newest : option string) : Prop :=
  match vs with
  | [] => oldest = None /\ newest = None
  | _ :: _ =>
      exists o n,
        oldest = Some o /\ newest = Some n /\ o ∈ vs /\ n ∈ vs /\
        Forall (fun v => VersionChecker.string_lt v o = false /\
                         VersionChecker.string_lt n v = false) vs
  end.

(** The entry [info] of a version report is the one of the target [t]. *)
Definition entry_of (t : VersionChecker.Target) (info : VersionChecker.RepositoryInfo)
    : Prop :=
  VersionChecker.owner info = VersionChecker.t_owner t /\
  VersionChecker.repo info = VersionChecker.t_repo t /\
  VersionChecker.workflowPath info = VersionChecker.t_workflowPath t /\
  VersionChecker.configProfile info = VersionChecker.t_configProfile t.

(** The target of the version checker that names the repository [r] of
    the propagator. *)
Definition target_of (r : UpdatePropagator.RepositoryConfig) : VersionChecker.Target :=
  VersionChecker.mkTarget (UpdatePropagator.owner r) (UpdatePropagator.repo r)
    (UpdatePropagator.workflowPath r) (UpdatePropagator.configProfile r).

End Vocabulary.

Module FurtherSamples.
Import JS Eff GitHub.







(** Two documents with the same exclusion lists, in which the file pattern
    [build/x.js] contains the directory pattern [build/] without its
    slash; the [model] of the first is a number, that of the second a
    string. *)
Definition numeric_model_exclusions_text : string :=
  "{ 'model': 4, 'exclusions': { 'file_patterns': ['build/x.js'], 'directory_patterns': ['build/'] } }".

Definition numeric_model_exclusions : json :=
  JObj [("model", JNum 4);
        ("exclusions",
         JObj [("file_patterns", JArr [JStr "build/x.js"]);
               ("directory_patterns", JArr [JStr "build/"])])].

Definition text_model_exclusions_text : string :=
  "{ 'model': 'sonnet', 'exclusions': { 'file_patterns': ['build/x.js'], 'directory_patterns': ['build/'] } }".

Definition text_model_exclusions : json :=
  JObj [("model", JStr "sonnet");
        ("exclusions",
         JObj [("file_patterns", JArr [JStr "build/x.js"]);
               ("directory_patterns", JArr [JStr "build/"])])].

Definition exclusions_runtime : Runtime :=
  {| JSON_parse := fun text =>
       if String.eqb text numeric_model_exclusions_text then inr numeric_model_exclusions
       else if String.eqb text text_model_exclusions_text then inr text_model_exclusions
       else inl "Unexpected token";
     string_to_number := string_to_number Samples.sample_runtime;
     number_to_string := number_to_string Samples.sample_runtime;
     type_error_message := type_error_message Samples.sample_runtime;
     path_join := path_join Samples.sample_runtime;
     extname := extname Samples.sample_runtime |}.

(** The validator on the empty schema [{}], with the two documents. *)
Definition exclusions_validator : ConfigValidator.Validator :=
  {| ConfigValidator.runtime := exclusions_runtime;
     ConfigValidator.ajv := Samples.accept_all;
     ConfigValidator.fs :=
       {| ConfigValidator.existsSync := fun p =>
            String.eqb p "configs/numeric-model.json" ||
            String.eqb p "configs/text-model.json";
          ConfigValidator.readFileSync := fun p =>
            if String.eqb p "configs/numeric-model.json"
            then Ok numeric_model_exclusions_text
            else if String.eqb p "configs/text-model.json"
            then Ok text_model_exclusions_text
            else Throw (Error "ENOENT: no such file or directory, open");
          ConfigValidator.readdirSync := fun _ =>
            Throw (Error "ENOTDIR: not a directory, scandir");
          ConfigValidator.size_undefined := fun _ => false |};
     ConfigValidator.schema := JObj [];
     ConfigValidator.schemaPath := "./configs/schema.json";
     ConfigValidator.configPaths :=
       ["configs/numeric-model.json"; "configs/text-model.json"] |}.

(** The sample configuration in dry-run mode. *)
Definition dry_config : UpdatePropagator.UpdateConfig :=
  UpdatePropagator.mkConfig
    (UpdatePropagator.repositories RemoteSamples.sample_config)
    "2.0.0" "Routine update." true.

(** As [all_well], but the workflow file is the one the propagator
    generates for [acme/app] from the sample configuration. *)
Definition update_merged : Remote :=
  fun n via c =>
    match c return result (payload c) with
    | ReposGetContent _ _ _ _ =>
        Ok (mkContent
              (Some (UpdatePropagator.generateCallerWorkflow RemoteSamples.sample_config
                       (RemoteSamples.repo_named "app" true)))
              (Some "7b1e"))
    | other => RemoteSamples.all_well n via other
    end.

Definition broken_target : VersionChecker.Target :=
  VersionChecker.mkTarget "acme" "broken" ".github/workflows/ai-review.yml" None.

(** One enabled target, outside a dry run. *)
Definition one_target : UpdatePropagator.UpdateConfig :=
  UpdatePropagator.mkConfig [RemoteSamples.repo_named "app" true]
    "2.0.0" "Routine update." false.

(** As [all_well], but no workflow file is there yet (every file lookup
    answers 404) and the labels cannot be attached (403). *)
Definition files_missing_labels_refused : Remote :=
  fun n via c =>
    match c return result (payload c) with
    | ReposGetContent _ _ _ _ => Throw (mkError (Some 404) "Not Found")
    | IssuesAddLabels _ _ _ _ =>
        Throw (mkError (Some 403) "Resource not accessible by integration")
    | other => RemoteSamples.all_well n via other
    end.

(** As [all_well], but the update branch and the pull request are there
    already: both creations answer 422. *)
Definition branch_and_pull_request_exist : Remote :=
  fun n via c =>
    match c return result (payload c) with
    | GitCreateRef _ _ _ _ => Throw (mkError (Some 422) "Reference already exists")
    | PullsCreate _ _ _ _ _ _ =>
        Throw (mkError (Some 422) "A pull request already exists")
    | other => RemoteSamples.all_well n via other
    end.

End FurtherSamples.

(* ===================================================================== *)
(** * Theorems *)
(* ===================================================================== *)

(** ** The validator's computations only ever add to the result *)

Module ValidatorFacts.
Import JS Eff ConfigValidator ValidatorLog.
Local Open Scope eff_scope.

Lemma amend_nothing r : amend None [] [] r = r.
Proof. destruct r; unfold amend; simpl. by rewrite !app_nil_r. Qed.

Lemma amend_amend vd es ws vd' es' ws' r :
  amend vd' es' ws' (amend vd es ws r)
  = amend (then_valid vd vd') (es ++ es') (ws ++ ws') r.
Proof.
  unfold amend; simpl. rewrite !app_assoc.
  by destruct vd', vd.
Qed.

Lemma effect_ret {A} (a : A) : effect (ret a) (Ok a) None [] [].
Proof. intros r. unfold ret. by rewrite amend_nothing. Qed.

Lemma effect_lift {A} (o : result A) : effect (lift o) o None [] [].
Proof. intros r. unfold lift. by rewrite amend_nothing. Qed.

Lemma effect_push_error m : effect (push_error m) (Ok tt) None [m] [].
Proof. intros r. unfold push_error, modify, amend; simpl. by rewrite app_nil_r. Qed.

Lemma effect_push_warning m : effect (push_warning m) (Ok tt) None [] [m].
Proof. intros r. unfold push_warning, modify, amend; simpl. by rewrite app_nil_r. Qed.

Lemma effect_set_valid b : effect (set_valid b) (Ok tt) (Some b) [] [].
Proof. intros r. unfold set_valid, modify, amend; simpl. by rewrite !app_nil_r. Qed.

Lemma effect_bind {A B} (m : V A) (k : A -> V B) a vd es ws o vd' es' ws' :
  effect m (Ok a) vd es ws ->
  effect (k a) o vd' es' ws' ->
  effect (bind m k) o (then_valid vd vd') (es ++ es') (ws ++ ws').
Proof.
  intros Hm Hk r. unfold bind. rewrite Hm, Hk. by rewrite amend_amend.
Qed.

Lemma effect_bind_throw {A B} (m : V A) (k : A -> V B) e vd es ws :
  effect m (Throw e) vd es ws ->
  effect (bind m k) (Throw e) vd es ws.
Proof. intros Hm r. unfold bind. by rewrite Hm. Qed.

Lemma effect_catch {A} (m : V A) (h : JsError -> V A) e vd es ws o vd' es' ws' :
  effect m (Throw e) vd es ws ->
  effect (h e) o vd' es' ws' ->
  effect (try_catch m h) o (then_valid vd vd') (es ++ es') (ws ++ ws').
Proof.
  intros Hm Hh r. unfold try_catch. rewrite Hm, Hh. by rewrite amend_amend.
Qed.

Lemma effect_catch_ok {A} (m : V A) (h : JsError -> V A) a vd es ws :
  effect m (Ok a) vd es ws ->
  effect (try_catch m h) (Ok a) vd es ws.
Proof. intros Hm r. unfold try_catch. by rewrite Hm. Qed.

(** Two descriptions of one computation agree. *)
Lemma effect_unique {A} (m : V A) o vd es ws o' vd' es' ws' :
  effect m o vd es ws -> effect m o' vd' es' ws' ->
  o = o' /\ es = es' /\ ws = ws'.
Proof.
  intros H H'. specialize (H (mkResult EmptyString false [] [])).
  rewrite H' in H. unfold amend in H; simpl in H.
  by simplify_eq.
Qed.

Lemma writes_ret {A} P Q (a : A) : writes P Q (ret a : V A).
Proof. exists (Ok a), [], []. split; [apply effect_ret | by split]. Qed.

Lemma writes_lift {A} P Q (o : result A) : writes P Q (lift o : V A).
Proof. exists o, [], []. split; [apply effect_lift | by split]. Qed.

Lemma writes_push_error (P Q : string -> Prop) m : P m -> writes P Q (push_error m).
Proof.
  intros Hm. exists (Ok tt), [m], []. split; [apply effect_push_error|].
  split; by repeat constructor.
Qed.

Lemma writes_push_warning (P Q : string -> Prop) m : Q m -> writes P Q (push_warning m).
Proof.
  intros Hm. exists (Ok tt), [], [m]. split; [apply effect_push_warning|].
  split; by repeat constructor.
Qed.

Lemma writes_bind {A B} P Q (m : V A) (k : A -> V B) :
  writes P Q m -> (forall a, writes P Q (k a)) -> writes P Q (bind m k).
Proof.
  intros (o & es & ws & Hm & HP & HQ) Hk. destruct o as [a|e].
  - destruct (Hk a) as (o' & es' & ws' & Hka & HP' & HQ').
    exists o', (es ++ es'), (ws ++ ws'). split.
    + apply (effect_bind m k a None es ws o' None es' ws' Hm Hka).
    + split; by apply Forall_app.
  - exists (Throw e), es, ws. split; [by apply effect_bind_throw | done].
Qed.

Lemma writes_when P Q b (m : V unit) : writes P Q m -> writes P Q (when b m).
Proof. destruct b; simpl; [done | intros _; apply writes_ret]. Qed.

Lemma writes_for_each {A} P Q (body : A -> V unit) xs :
  (forall x, writes P Q (body x)) -> writes P Q (for_each body xs).
Proof.
  intros Hbody. induction xs as [|x xs IH]; simpl.
  - apply writes_ret.
  - apply writes_bind; [apply Hbody | intros _; apply IH].
Qed.

(** Follows the structure of [m] in a goal [writes P Q m]; a pushed
    message leaves its side condition to [tac]. *)
Ltac writes_step tac :=
  first
    [ apply writes_ret | apply writes_lift
    | apply writes_push_error; tac
    | apply writes_push_warning; tac
    | apply writes_when
    | apply writes_for_each; intros
    | apply writes_bind; [ | intros ]
    | match goal with
      | |- writes _ _ (match ?x with _ => _ end) => destruct x
      end ].

Ltac message_side := first [ exact I | reflexivity ].

(** The best-practice checks push warnings only, and none of them reads
    like a redundant-exclusion warning. *)
Lemma writes_addCustomWarnings rt config :
  writes no_message not_redundant_message (addCustomWarnings rt config).
Proof. unfold addCustomWarnings. repeat writes_step message_side. Qed.

Lemma writes_check_pattern_pair rt f d :
  writes no_message any_message (check_pattern_pair rt f d).
Proof. unfold check_pattern_pair. repeat writes_step message_side. Qed.

(** The semantic checks push four fixed error texts and warnings. *)
Lemma writes_performSemanticValidation rt config :
  writes not_redundant_message any_message (performSemanticValidation rt config).
Proof.
  unfold performSemanticValidation, check_test_consistency,
    check_documentation_consistency, check_exclusions, check_webhook, check_pattern_pair.
  repeat writes_step message_side.
Qed.

Lemma effect_format_errors rt violations :
  effect (for_each (fun error => let errorMsg := formatAjvError rt error in
                                 push_error errorMsg) violations)
         (Ok tt) None (map (formatAjvError rt) violations) [].
Proof.
  induction violations as [|x xs IH]; simpl.
  - apply effect_ret.
  - apply (effect_bind _ _ tt None [_] [] (Ok tt) None _ [] (effect_push_error _) IH).
Qed.

(** The schema branch settles [valid] and pushes the formatted violations;
    beyond that it only adds best-practice warnings. *)
Lemma effect_apply_schema rt validate config :
  exists o ws,
    effect (apply_schema rt validate config) o
           (Some (bool_decide (validate config = None)))
           (schema_messages rt (validate config)) ws /\
    Forall not_redundant_message ws.
Proof.
  unfold apply_schema. destruct (validate config) as [violations|]; simpl.
  - exists (Ok tt), []. split; [|done].
    apply (effect_bind _ _ tt (Some false) [] [] (Ok tt) None _ []
             (effect_set_valid false) (effect_format_errors rt violations)).
  - destruct (writes_addCustomWarnings rt config) as (o & es & ws & H & HP & HQ).
    assert (es = []) as -> by (destruct es; [done | by inversion HP]).
    exists o, ws. split; [|done].
    apply (effect_bind _ _ tt (Some true) [] [] o None [] ws (effect_set_valid true) H).
Qed.

End ValidatorFacts.

(** ** Computations that return *)

Module ValidatorReturns.
Import JS Eff ConfigValidator ValidatorLog ValidatorFacts.
Local Open Scope eff_scope.

Lemma returns_ret : returns (ret tt).
Proof. exists None, [], []. apply effect_ret. Qed.

Lemma returns_push_error m : returns (push_error m).
Proof. exists None, [m], []. apply effect_push_error. Qed.

Lemma returns_push_warning m : returns (push_warning m).
Proof. exists None, [], [m]. apply effect_push_warning. Qed.

Lemma returns_when b m : returns m -> returns (when b m).
Proof. destruct b; simpl; [done | intros _; apply returns_ret]. Qed.

Lemma returns_seq (m k : V unit) : returns m -> returns k -> returns (m;; k).
Proof.
  intros (vd & es & ws & Hm) (vd' & es' & ws' & Hk).
  exists (then_valid vd vd'), (es ++ es'), (ws ++ ws').
  apply (effect_bind m (fun _ => k) tt vd es ws (Ok tt) vd' es' ws' Hm Hk).
Qed.

Lemma returns_after_lift {A} (a : A) (k : A -> V unit) :
  returns (k a) -> returns (x <- lift (Ok a);; k x).
Proof. intros (vd & es & ws & Hk). exists vd, es, ws. intros r. apply Hk. Qed.

Ltac returns_step :=
  first
    [ apply returns_ret | apply returns_push_error | apply returns_push_warning
    | apply returns_when
    | apply returns_after_lift
    | apply returns_seq ].

(** On an object whose [model] is a string or absent, no best-practice
    check throws. *)
Lemma returns_addCustomWarnings rt kvs :
  model_is_text (JObj kvs) -> returns (addCustomWarnings rt (JObj kvs)).
Proof.
  unfold model_is_text, addCustomWarnings. cbn [member get_prop].
  intros Hmodel. repeat returns_step.
  - destruct (assoc "security_rules" kvs); repeat returns_step.
  - destruct (assoc "model" kvs) as [[]|]; try done; [|returns_step].
    destruct (truthy _); cbn [call_includes]; repeat returns_step.
Qed.

Lemma returns_check_test_consistency rt kvs :
  returns (check_test_consistency rt (JObj kvs)).
Proof. unfold check_test_consistency. cbn [member]. repeat returns_step. Qed.

Lemma returns_check_documentation_consistency config :
  returns (check_documentation_consistency config).
Proof. unfold check_documentation_consistency. repeat returns_step. Qed.

(** A computation that returns and pushes no warning is described by its
    errors, and the other way round. *)
Lemma errors_of P (m : V unit) :
  writes P no_message m -> returns m ->
  exists es, effect m (Ok tt) None es [] /\ Forall P es.
Proof.
  intros (o & es & ws & Hm & HP & HQ) (vd & es' & ws' & Hr).
  destruct (effect_unique _ _ _ _ _ _ _ _ _ Hm Hr) as (-> & _ & _).
  assert (ws = []) as -> by (destruct ws; [done | by inversion HQ]).
  by exists es.
Qed.

Lemma warnings_of Q (m : V unit) :
  writes no_message Q m -> returns m ->
  exists ws, effect m (Ok tt) None [] ws /\ Forall Q ws.
Proof.
  intros (o & es & ws & Hm & HP & HQ) (vd & es' & ws' & Hr).
  destruct (effect_unique _ _ _ _ _ _ _ _ _ Hm Hr) as (-> & _ & _).
  assert (es = []) as -> by (destruct es; [done | by inversion HP]).
  by exists ws.
Qed.

End ValidatorReturns.

(** ** The validator: validity, determinism and the exclusion check *)

Module ValidatorTheorems.
Import JS Eff ConfigValidator ValidatorLog ValidatorFacts ValidatorReturns.
Local Open Scope eff_scope.

(** Once the document is read and parsed and the schema compiled,
    [validateConfig] is the schema branch followed by the semantic checks. *)
Lemma validateConfig_body_checked v p text config validate :
  existsSync (fs v) p = true ->
  readFileSync (fs v) p = Ok text ->
  JSON_parse (runtime v) text = inr config ->
  compile (ajv v) (schema v) = Ok validate ->
  validateConfig_body v p
  = (apply_schema (runtime v) validate config;;
     performSemanticValidation (runtime v) config).
Proof.
  intros Hex Hread Hparse Hcompile. unfold validateConfig_body.
  rewrite Hex, Hread; simpl. unfold bind at 1, lift at 1.
  rewrite Hparse, Hcompile. reflexivity.
Qed.

(** The shape of every result for a document that was read and parsed
    against a schema that compiled: [valid] is the schema outcome, the
    errors start with the formatted violations. *)
Lemma validateConfig_checked v p text config validate :
  existsSync (fs v) p = true ->
  readFileSync (fs v) p = Ok text ->
  JSON_parse (runtime v) text = inr config ->
  compile (ajv v) (schema v) = Ok validate ->
  exists es ws,
    validateConfig v p
    = mkResult p (bool_decide (validate config = None))
               (schema_messages (runtime v) (validate config) ++ es) ws /\
    Forall not_redundant_message es.
Proof.
  intros Hex Hread Hparse Hcompile. unfold validateConfig.
  rewrite (validateConfig_body_checked v p text config validate) by done.
  destruct (effect_apply_schema (runtime v) validate config) as (o & ws & Hs & _).
  destruct o as [[]|e].
  - destruct (writes_performSemanticValidation (runtime v) config)
      as (o' & es' & ws' & Hp & HP & _).
    pose proof (effect_bind _ (fun _ => performSemanticValidation (runtime v) config)
                  tt _ _ _ _ _ _ _ Hs Hp) as Hb.
    destruct o' as [[]|e'].
    + exists es', (ws ++ ws'). split; [|done].
      rewrite (effect_catch_ok _ _ _ _ _ _ Hb). by unfold amend.
    + exists (es' ++ ["Validation error: " +:+ err_message e']), (ws ++ ws').
      split; [|apply Forall_app; split; [done | by repeat constructor]].
      rewrite (effect_catch _ _ _ _ _ _ _ _ _ _ Hb (effect_push_error _)).
      unfold amend; simpl. by rewrite !app_nil_r, !app_assoc.
  - exists ["Validation error: " +:+ err_message e], ws.
    split; [|by repeat constructor].
    pose proof (effect_bind_throw _ (fun _ => performSemanticValidation (runtime v) config)
                  _ _ _ _ Hs) as Hb.
    rewrite (effect_catch _ _ _ _ _ _ _ _ _ _ Hb (effect_push_error _)).
    unfold amend; simpl. by rewrite !app_nil_r.
Qed.

(** What the code does: [valid] reports the schema outcome alone. *)
Lemma validateConfig_valid_is_schema_outcome v p text config validate :
  existsSync (fs v) p = true ->
  readFileSync (fs v) p = Ok text ->
  JSON_parse (runtime v) text = inr config ->
  compile (ajv v) (schema v) = Ok validate ->
  valid (validateConfig v p) = true <-> validate config = None.
Proof.
  intros Hex Hread Hparse Hcompile.
  destruct (validateConfig_checked v p text config validate) as (es & ws & -> & _);
    try done.
  simpl. by rewrite bool_decide_eq_true.
Qed.

(** C1, at the failing input. Against the empty schema, the document
    [{ review_rules: { check_tests: false, min_test_coverage: 80 } }]
    passes the schema, the semantic check pushes its contradiction error,
    and the result still has [valid = true]: [validateConfig] never
    revisits [valid] after the semantic checks. *)
Theorem validateConfig_contradiction_stays_valid :
  ConfigValidator.validateConfig (Samples.sample_validator [])
    "configs/contradiction.json"
  = ConfigValidator.mkResult "configs/contradiction.json" true
      ["Inconsistent configuration: test coverage specified but test checking disabled"]
      [].
Proof. vm_compute. reflexivity. Qed.

(** The whole of [validateConfig] has one effect on the record it starts
    from. *)
Lemma validateConfig_has_effect v p :
  has_effect (try_catch (validateConfig_body v p)
                (fun error => push_error ("Validation error: " +:+ err_message error))).
Proof.
  assert (forall (m : V unit),
            has_effect m ->
            has_effect (try_catch m (fun error =>
                          push_error ("Validation error: " +:+ err_message error))))
    as Hcatch.
  { intros m (o & vd & es & ws & Hm). destruct o as [[]|e].
    - exists (Ok tt), vd, es, ws. by apply effect_catch_ok.
    - do 4 eexists. apply (effect_catch _ _ _ _ _ _ _ _ _ _ Hm (effect_push_error _)). }
  assert (forall (m : V unit), writes any_message any_message m -> has_effect m)
    as Hwrites.
  { intros m (o & es & ws & Hm & _). by exists o, None, es, ws. }
  apply Hcatch. unfold validateConfig_body.
  destruct (existsSync (fs v) p); simpl.
  2: { apply Hwrites. by apply writes_push_error. }
  destruct (readFileSync (fs v) p) as [text|e].
  2: { exists (Throw e), None, [], []. intros r. unfold bind, lift. by rewrite amend_nothing. }
  unfold bind at 1, lift at 1.
  destruct (JSON_parse (runtime v) text) as [msg|config].
  { apply Hwrites. by apply writes_push_error. }
  destruct (compile (ajv v) (schema v)) as [validate|e].
  2: { exists (Throw e), None, [], []. intros r. unfold bind, lift. by rewrite amend_nothing. }
  unfold bind at 1, lift at 1.
  destruct (effect_apply_schema (runtime v) validate config) as (o & ws & Hs & _).
  destruct o as [[]|e].
  - destruct (writes_performSemanticValidation (runtime v) config)
      as (o' & es' & ws' & Hp & _).
    do 4 eexists.
    apply (effect_bind _ (fun _ => performSemanticValidation (runtime v) config)
             tt _ _ _ _ _ _ _ Hs Hp).
  - do 4 eexists. apply (effect_bind_throw _ _ _ _ _ _ Hs).
Qed.

(** Errors, warnings and [valid] depend on the engine, the schema and the
    content of the document, not on where the document lies. *)
Lemma validateConfig_content v1 v2 p1 p2 :
  runtime v1 = runtime v2 -> ajv v1 = ajv v2 -> schema v1 = schema v2 ->
  existsSync (fs v1) p1 = existsSync (fs v2) p2 ->
  readFileSync (fs v1) p1 = readFileSync (fs v2) p2 ->
  errors (validateConfig v1 p1) = errors (validateConfig v2 p2) /\
  warnings (validateConfig v1 p1) = warnings (validateConfig v2 p2) /\
  valid (validateConfig v1 p1) = valid (validateConfig v2 p2).
Proof.
  intros Hrt Hajv Hschema Hex Hread.
  assert (validateConfig_body v1 p1 = validateConfig_body v2 p2) as Hbody.
  { unfold validateConfig_body. by rewrite Hrt, Hajv, Hschema, Hex, Hread. }
  unfold validateConfig. rewrite Hbody.
  destruct (validateConfig_has_effect v2 p2) as (o & vd & es & ws & H).
  by rewrite !H.
Qed.

(** C10. Two runs of the validator with the same engine and schema, over
    document sets whose documents exist and read alike pairwise, give for
    each document the same error messages and the same warning messages,
    in the same order. *)
Theorem validator_runs_agree v1 v2 docs1 docs2 :
  runtime v1 = runtime v2 -> ajv v1 = ajv v2 -> schema v1 = schema v2 ->
  Forall2 (fun p1 p2 =>
             existsSync (fs v1) p1 = existsSync (fs v2) p2 /\
             readFileSync (fs v1) p1 = readFileSync (fs v2) p2) docs1 docs2 ->
  map (fun p => (errors (validateConfig v1 p), warnings (validateConfig v1 p))) docs1
  = map (fun p => (errors (validateConfig v2 p), warnings (validateConfig v2 p))) docs2.
Proof.
  intros Hrt Hajv Hschema Hdocs.
  induction Hdocs as [|p1 p2 docs1 docs2 [Hex Hread] _ IH]; simpl; [done|].
  destruct (validateConfig_content v1 v2 p1 p2) as (-> & -> & _); try done.
  by rewrite IH.
Qed.


Lemma effect_seq (m k : V unit) es ws o es' ws' :
  effect m (Ok tt) None es ws ->
  effect k o None es' ws' ->
  effect (m;; k) o None (es ++ es') (ws ++ ws').
Proof. intros Hm Hk. apply (effect_bind m (fun _ => k) tt None es ws o None es' ws' Hm Hk). Qed.

(** One pair of patterns: a warning exactly when the file pattern holds the
    directory pattern without its first slash. *)
Lemma effect_check_pattern_pair rt F P :
  effect (check_pattern_pair rt (JStr F) (JStr P)) (Ok tt) None []
         (if includes (replace_first "/" EmptyString P) F
          then [redundant_exclusion_message F P] else []).
Proof.
  intros r. unfold check_pattern_pair; cbn [member call_replace_slash call_includes to_string].
  unfold bind at 1 2 3, lift.
  destruct (includes _ F); simpl.
  - apply effect_push_warning.
  - apply effect_ret.
Qed.

Lemma effect_inner_loop rt F dirs :
  effect (for_each (check_pattern_pair rt (JStr F)) (map JStr dirs)) (Ok tt) None []
         (flat_map (fun P => if includes (replace_first "/" EmptyString P) F
                             then [redundant_exclusion_message F P] else []) dirs).
Proof.
  induction dirs as [|P dirs IH]; simpl.
  - apply effect_ret.
  - apply (effect_bind _ _ tt None [] _ (Ok tt) None [] _
             (effect_check_pattern_pair rt F P) IH).
Qed.

Lemma effect_outer_loop rt files dirs :
  effect (for_each (fun filePattern =>
                      dps <- lift (iterate rt (JArr (map JStr dirs)));;
                      for_each (check_pattern_pair rt filePattern) dps)
                   (map JStr files))
         (Ok tt) None [] (redundant_warnings files dirs).
Proof.
  induction files as [|F files IH]; simpl.
  - apply effect_ret.
  - apply (effect_bind _ _ tt None [] _ (Ok tt) None [] _); [|exact IH].
    intros r. cbn [iterate]. unfold bind at 1, lift. apply effect_inner_loop.
Qed.

(** The exclusion check on two lists of strings: it returns, pushes no
    error, and pushes one warning per pair that matches. *)
Lemma effect_check_exclusions rt config files dirs :
  opt_chain (get_prop config "exclusions") "file_patterns" = Some (JArr (map JStr files)) ->
  opt_chain (get_prop config "exclusions") "directory_patterns"
    = Some (JArr (map JStr dirs)) ->
  effect (check_exclusions rt config) (Ok tt) None [] (redundant_warnings files dirs).
Proof.
  intros Hf Hd r. unfold check_exclusions. rewrite Hf, Hd. cbn [truthy andb iterate].
  unfold bind at 1, lift. apply effect_outer_loop.
Qed.

Lemma writes_check_webhook rt config key pfx msg :
  not_redundant_message msg ->
  writes not_redundant_message no_message (check_webhook rt config key pfx msg).
Proof.
  intros Hmsg. unfold check_webhook. repeat writes_step ltac:(exact Hmsg).
Qed.

(** The schema branch returns when no best-practice check throws. *)
Lemma effect_apply_schema_returns rt validate kvs :
  (validate (JObj kvs) = None -> model_is_text (JObj kvs)) ->
  exists ws,
    effect (apply_schema rt validate (JObj kvs)) (Ok tt)
           (Some (bool_decide (validate (JObj kvs) = None)))
           (schema_messages rt (validate (JObj kvs))) ws /\
    Forall not_redundant_message ws.
Proof.
  intros Hmodel. unfold apply_schema.
  destruct (validate (JObj kvs)) as [violations|]; simpl.
  - exists []. split; [|done].
    apply (effect_bind _ _ tt (Some false) [] [] (Ok tt) None _ []
             (effect_set_valid false) (effect_format_errors rt violations)).
  - destruct (warnings_of not_redundant_message (addCustomWarnings rt (JObj kvs)))
      as (ws & H & HQ).
    { apply writes_addCustomWarnings. }
    { by apply returns_addCustomWarnings, Hmodel. }
    exists ws. split; [|done].
    apply (effect_bind _ _ tt (Some true) [] [] (Ok tt) None [] ws
             (effect_set_valid true) H).
Qed.

(** The semantic checks on a document with two lists of patterns. *)
Lemma effect_performSemanticValidation rt kvs files dirs :
  opt_chain (get_prop (JObj kvs) "exclusions") "file_patterns"
    = Some (JArr (map JStr files)) ->
  opt_chain (get_prop (JObj kvs) "exclusions") "directory_patterns"
    = Some (JArr (map JStr dirs)) ->
  exists o es,
    effect (performSemanticValidation rt (JObj kvs)) o None es
           (redundant_warnings files dirs) /\
    Forall not_redundant_message es.
Proof.
  intros Hf Hd. unfold performSemanticValidation.
  destruct (errors_of not_redundant_message (check_test_consistency rt (JObj kvs)))
    as (es1 & H1 & HP1).
  { unfold check_test_consistency. repeat writes_step message_side. }
  { apply returns_check_test_consistency. }
  destruct (errors_of not_redundant_message (check_documentation_consistency (JObj kvs)))
    as (es2 & H2 & HP2).
  { unfold check_documentation_consistency. repeat writes_step message_side. }
  { apply returns_check_documentation_consistency. }
  pose proof (effect_check_exclusions rt (JObj kvs) files dirs Hf Hd) as H3.
  assert (writes not_redundant_message no_message
            (check_webhook rt (JObj kvs) "slack_webhook" "https://hooks.slack.com/"
               "Invalid Slack webhook URL format";;
             check_webhook rt (JObj kvs) "discord_webhook"
               "https://discord.com/api/webhooks/" "Invalid Discord webhook URL format"))
    as (o & es4 & ws4 & H4 & HP4 & HQ4).
  { apply writes_bind; [|intros _]; by apply writes_check_webhook. }
  assert (ws4 = []) as -> by (destruct ws4; [done | by inversion HQ4]).
  exists o, (es1 ++ es2 ++ es4). split.
  - pose proof (effect_seq _ _ _ _ _ _ _ H3 H4) as H34.
    pose proof (effect_seq _ _ _ _ _ _ _ H2 H34) as H234.
    pose proof (effect_seq _ _ _ _ _ _ _ H1 H234) as H1234.
    simpl in H1234. by rewrite app_nil_r in H1234.
  - by rewrite !Forall_app.
Qed.

(** For a document that holds a list of file patterns and a list of
    directory patterns, and on which the best-practice checks return,
    the result of [validateConfig] ends its warnings
    with one redundant-exclusion warning for every pair of a file pattern
    and a directory pattern such that the file pattern contains the
    directory pattern without its first slash, in loop order; the warnings
    before them are none of that kind; and the check adds no error: every
    error is a formatted schema violation or does not read like a
    redundant-exclusion message. *)
Lemma redundant_exclusions_are_warned v p text config validate files dirs :
  existsSync (fs v) p = true ->
  readFileSync (fs v) p = Ok text ->
  JSON_parse (runtime v) text = inr config ->
  compile (ajv v) (schema v) = Ok validate ->
  opt_chain (get_prop config "exclusions") "file_patterns"
    = Some (JArr (map JStr files)) ->
  opt_chain (get_prop config "exclusions") "directory_patterns"
    = Some (JArr (map JStr dirs)) ->
  (validate config = None -> model_is_text config) ->
  (exists before,
     warnings (validateConfig v p) = before ++ redundant_warnings files dirs /\
     Forall not_redundant_message before) /\
  (forall F P,
     F ∈ files -> P ∈ dirs ->
     includes (replace_first "/" EmptyString P) F = true ->
     redundant_exclusion_message F P ∈ warnings (validateConfig v p)) /\
  (forall e,
     e ∈ errors (validateConfig v p) ->
     e ∈ schema_messages (runtime v) (validate config) \/ not_redundant_message e).
Proof.
  intros Hex Hread Hparse Hcompile Hf Hd Hmodel.
  assert (exists kvs, config = JObj kvs) as (kvs & ->).
  { destruct config; try discriminate Hf. by eexists. }
  assert (exists before es,
            validateConfig v p
            = mkResult p (bool_decide (validate (JObj kvs) = None))
                (schema_messages (runtime v) (validate (JObj kvs)) ++ es)
                (before ++ redundant_warnings files dirs) /\
            Forall not_redundant_message before /\
            Forall not_redundant_message es) as (before & es & Hr & Hbefore & Hes).
  { unfold validateConfig.
    rewrite (validateConfig_body_checked v p text (JObj kvs) validate) by done.
    destruct (effect_apply_schema_returns (runtime v) validate kvs Hmodel)
      as (ws & Hs & Hws).
    destruct (effect_performSemanticValidation (runtime v) kvs files dirs Hf Hd)
      as (o' & es' & Hp & HP).
    pose proof (effect_bind _ (fun _ => performSemanticValidation (runtime v) (JObj kvs))
                  tt _ _ _ _ _ _ _ Hs Hp) as Hb.
    destruct o' as [[]|e'].
    - exists ws, es'. split; [|done].
      rewrite (effect_catch_ok _ _ _ _ _ _ Hb). by unfold amend.
    - exists ws, (es' ++ ["Validation error: " +:+ err_message e']).
      split; [|split; [done | apply Forall_app; split; [done | by repeat constructor]]].
      rewrite (effect_catch _ _ _ _ _ _ _ _ _ _ Hb (effect_push_error _)).
      unfold amend; simpl. by rewrite !app_nil_r, !app_assoc. }
  rewrite Hr; simpl. split; [by exists before | split].
  - intros F P HF HP Hhit. apply elem_of_app; right.
    unfold redundant_warnings. apply list_elem_of_In, in_flat_map.
    exists F. split; [by apply list_elem_of_In|].
    apply in_flat_map. exists P. split; [by apply list_elem_of_In|].
    rewrite Hhit. by left.
  - intros e [He|He]%elem_of_app; [by left | right].
    by apply (proj1 (Forall_forall _ _) Hes).
Qed.

End ValidatorTheorems.

(** ** The validator: discovery and the report *)

Module ReportTheorems.
Import JS Eff ConfigValidator ValidatorLog.

Lemma counted_default n : default 0 (counted n) = n.
Proof. unfold counted. by destruct n. Qed.

Lemma bump_lookup (counts : gmap string nat) k m n :
  counts !! m = counted n ->
  bump counts k !! m = counted (n + (if string_dec k m then 1 else 0)).
Proof.
  intros H. unfold bump. destruct (string_dec k m) as [->|Hne].
  - rewrite lookup_insert_eq, H, counted_default.
    unfold counted. by replace (n + 1 =? 0)%nat with false by (symmetry; apply Nat.eqb_neq; lia).
  - rewrite lookup_insert_ne by done. by rewrite Nat.add_0_r.
Qed.

Lemma fold_bump_lookup msgs (counts : gmap string nat) m n :
  counts !! m = counted n ->
  fold_left bump msgs counts !! m = counted (n + count_occ string_dec msgs m).
Proof.
  revert counts n. induction msgs as [|k msgs IH]; intros counts n H; simpl.
  - by rewrite Nat.add_0_r.
  - rewrite (IH _ _ (bump_lookup counts k m n H)).
    f_equal. destruct (string_dec k m); lia.
Qed.

Lemma generateSummary_fold rs acc m ne nw :
  commonErrors acc !! m = counted ne ->
  commonWarnings acc !! m = counted nw ->
  commonErrors (fold_left generateSummary_step rs acc) !! m
    = counted (ne + occurrences errors m rs) /\
  commonWarnings (fold_left generateSummary_step rs acc) !! m
    = counted (nw + occurrences warnings m rs).
Proof.
  revert acc ne nw. induction rs as [|r rs IH]; intros acc ne nw He Hw.
  - unfold occurrences; simpl. by rewrite !Nat.add_0_r.
  - simpl. unfold occurrences; simpl.
    destruct (IH (generateSummary_step acc r)
                 (ne + count_occ string_dec (errors r) m)
                 (nw + count_occ string_dec (warnings r) m)) as [IHe IHw].
    + by apply fold_bump_lookup.
    + by apply fold_bump_lookup.
    + rewrite IHe, IHw. unfold occurrences. split; f_equal; lia.
Qed.

(** The summary counts occurrences. *)
Lemma generateSummary_counts rs m :
  commonErrors (generateSummary rs) !! m = counted (occurrences errors m rs) /\
  commonWarnings (generateSummary rs) !! m = counted (occurrences warnings m rs).
Proof.
  apply (generateSummary_fold rs (mkSummary ∅ ∅) m 0 0); simpl; apply lookup_empty.
Qed.

(** Where no result repeats a message, occurrences are results. *)
Lemma occurrences_without_repeats field m rs :
  Forall (fun r => NoDup (field r)) rs ->
  occurrences field m rs = results_containing field m rs.
Proof.
  unfold occurrences, results_containing.
  induction 1 as [|r rs Hr _ IH]; simpl; [done|].
  rewrite filter_cons. destruct (decide (m ∈ field r)) as [Hin|Hout]; simpl.
  - rewrite IH. f_equal.
    apply NoDup_ListNoDup in Hr. apply list_elem_of_In in Hin.
    pose proof (proj1 (List.NoDup_count_occ string_dec (field r)) Hr m).
    pose proof (proj1 (count_occ_In string_dec (field r) m) Hin). lia.
  - rewrite IH.
    by rewrite (proj1 (count_occ_not_In string_dec (field r) m))
      by (by rewrite <- list_elem_of_In).
Qed.

Lemma run_loop_counts v files rs a b :
  exists rs' a' b',
    fold_left (run_step v) files (rs, a, b) = (rs', a', b') /\
    length rs' = length rs + length files /\
    a' + b' = a + b + length files.
Proof.
  revert rs a b. induction files as [|f files IH]; intros rs a b; simpl.
  - exists rs, a, b. repeat split; lia.
  - destruct (valid (validateConfig v f)).
    + destruct (IH (rs ++ [validateConfig v f]) (S a) b) as (rs' & a' & b' & -> & Hl & Hc).
      exists rs', a', b'. rewrite length_app in Hl; simpl in Hl. repeat split; lia.
    + destruct (IH (rs ++ [validateConfig v f]) a (S b)) as (rs' & a' & b' & -> & Hl & Hc).
      exists rs', a', b'. rewrite length_app in Hl; simpl in Hl. repeat split; lia.
Qed.

(** In every report that [run] returns, the total is the number of
    results and the sum of the valid and the invalid counts; and the
    summary maps a message to the number of its occurrences over all
    results, an error (a warning) repeated within one result counting each
    time, with no entry for a message that never occurs. Where no result
    repeats a message, that is the number of results holding it. *)
Lemma report_counts v now report :
  run v now = Ok report ->
  totalFiles report = validFiles report + invalidFiles report /\
  totalFiles report = length (results report) /\
  (forall m,
     commonErrors (summary report) !! m
       = counted (occurrences errors m (results report)) /\
     commonWarnings (summary report) !! m
       = counted (occurrences warnings m (results report))) /\
  (forall m,
     (Forall (fun r => NoDup (errors r)) (results report) ->
      occurrences errors m (results report)
        = results_containing errors m (results report)) /\
     (Forall (fun r => NoDup (warnings r)) (results report) ->
      occurrences warnings m (results report)
        = results_containing warnings m (results report))).
Proof.
  unfold run. destruct (length (findConfigFiles v).1 =? 0)%nat; [done|].
  destruct (run_loop_counts v (findConfigFiles v).1 [] 0 0) as (rs & a & b & -> & Hl & Hc).
  destruct (schema_title (runtime v) (schema v)) as [title|error]; [|done].
  intros [= <-]; simpl in *.
  split; [lia | split; [lia | split; intros m]].
  - apply generateSummary_counts.
  - split; apply occurrences_without_repeats.
Qed.

(** C4. One file is validated, the document whose file patterns name
    [build/x.js] twice: its single result holds the same warning twice,
    and the summary gives that warning the count 2, where the claim has 1,
    the number of results that hold it. *)
Theorem summary_counts_a_repeated_warning_twice :
  exists report,
    run (Samples.sample_validator ["configs/exclusions.json"]) 0 = Ok report /\
    totalFiles report = 1 /\
    length (results report) = 1 /\
    commonWarnings (summary report)
      !! "Potential redundant exclusion: file pattern 'build/x.js' may be covered by directory pattern 'build/'"
    = Some 2.
Proof. eexists. split; [reflexivity|]. repeat split; vm_compute; reflexivity. Qed.

Lemma findConfigFiles_fold v paths files log :
  fold_left (findConfigFiles_step v) paths (files, log)
  = (files ++ concat (map (fun p => fst (findConfigFiles_step v ([], []) p)) paths),
     log ++ concat (map (fun p => snd (findConfigFiles_step v ([], []) p)) paths)).
Proof.
  revert files log. induction paths as [|p paths IH]; intros files log; cbn [fold_left map concat].
  - by rewrite !app_nil_r.
  - assert (findConfigFiles_step v (files, log) p
            = (files ++ fst (findConfigFiles_step v ([], []) p),
               log ++ snd (findConfigFiles_step v ([], []) p))) as ->.
    { unfold findConfigFiles_step.
      destruct (existsSync (fs v) p); simpl; [|by rewrite app_nil_r].
      destruct (size_undefined (fs v) p).
      - destruct (readdirSync (fs v) p); simpl; by rewrite !app_nil_r.
      - destruct (String.eqb _ _); simpl; by rewrite !app_nil_r. }
    rewrite IH. by rewrite !app_assoc.
Qed.

(** C9, as amended. When every argument is a path that does not exist or
    a file, discovery returns, in the order of the arguments, exactly the
    existing ones whose own extension is [.json], each unchanged; an
    existing file with another extension is dropped without a warning;
    and one warning is logged for each path that does not exist, nothing
    being thrown. *)
Theorem findConfigFiles_passes_json_files v :
  (forall p, p ∈ configPaths v ->
             existsSync (fs v) p = true -> size_undefined (fs v) p = false) ->
  fst (findConfigFiles v)
  = filter (fun p => existsSync (fs v) p = true /\ extname (runtime v) p = ".json")
           (configPaths v) /\
  snd (findConfigFiles v)
  = map (fun p => "Configuration path not found: " +:+ p)
        (filter (fun p => existsSync (fs v) p = false) (configPaths v)).
Proof.
  unfold findConfigFiles. rewrite findConfigFiles_fold; simpl.
  induction (configPaths v) as [|p paths IH]; intros Hfiles; [done|].
  destruct IH as [IHf IHw]; [intros q Hq; apply Hfiles; by right|].
  cbn [map concat]. rewrite IHf, IHw, !filter_cons.
  unfold findConfigFiles_step.
  destruct (existsSync (fs v) p) eqn:Hex; simpl.
  - rewrite (Hfiles p (list_elem_of_here _ _) Hex).
    destruct (String.eqb (extname (runtime v) p) ".json") eqn:Hext; simpl.
    + apply String.eqb_eq in Hext. repeat case_decide; intuition congruence.
    + apply String.eqb_neq in Hext. repeat case_decide; intuition congruence.
  - repeat case_decide; intuition congruence.
Qed.

(** C9, as stated, fails: [notes.txt] exists and is a file, and discovery
    does not pass it through. *)
Lemma findConfigFiles_drops_other_files :
  existsSync Samples.sample_fs "notes.txt" = true /\
  size_undefined Samples.sample_fs "notes.txt" = false /\
  findConfigFiles (Samples.sample_validator ["notes.txt"]) = ([], []).
Proof. repeat split. Qed.

Lemma findConfigFiles_passes_json_files_witness :
  fst (findConfigFiles
         (Samples.sample_validator
            ["configs/clean.json"; "notes.txt"; "missing.json"; "configs/exclusions.json"]))
  = ["configs/clean.json"; "configs/exclusions.json"] /\
  snd (findConfigFiles
         (Samples.sample_validator
            ["configs/clean.json"; "notes.txt"; "missing.json"; "configs/exclusions.json"]))
  = ["Configuration path not found: missing.json"].
Proof.
  exact (findConfigFiles_passes_json_files
           (Samples.sample_validator
              ["configs/clean.json"; "notes.txt"; "missing.json"; "configs/exclusions.json"])
           (fun _ _ _ => eq_refl)).
Defined.

End ReportTheorems.

(** ** The version checker *)

Module VersionTheorems.
Import JS Eff GitHub VersionChecker.
Local Open Scope eff_scope.

Lemma set_status_same r : set_status (status r) r = r.
Proof. by destruct r. Qed.

Lemma version_matches_spec current centralVersion :
  version_matches current centralVersion = true <->
  current = Some centralVersion \/ current = Some ("v" +:+ centralVersion) \/
  current = Some "main".
Proof.
  unfold version_matches. destruct current as [v|].
  - rewrite !orb_true_iff, !String.eqb_eq. split.
    + intros [[->| ->]| ->]; auto.
    + intros [[= ->]|[[= ->]|[= ->]]]; auto.
  - split; [done | intros [|[|]]; done].
Qed.

(** One entry, finalised. *)
Lemma updateVersionStatus_step_spec centralVersion r :
  let r' := updateVersionStatus_step centralVersion r in
  r' = set_status (status r') r /\
  (status r = Error \/ status r = Missing -> r' = r) /\
  (status r <> Error -> status r <> Missing ->
   (status r' = Up_to_date <->
    currentVersion r = Some centralVersion \/
    currentVersion r = Some ("v" +:+ centralVersion) \/
    currentVersion r = Some "main") /\
   (status r' = Outdated <-> status r' <> Up_to_date)).
Proof.
  simpl. unfold updateVersionStatus_step.
  rewrite <- version_matches_spec.
  destruct r as [o rp wp cv lc st em pr cp]; simpl.
  destruct st; destruct (version_matches cv centralVersion); simpl;
    intuition congruence.
Qed.

Lemma updateVersionStatus_lookup repos centralVersion i :
  updateVersionStatus repos centralVersion !! i
  = updateVersionStatus_step centralVersion <$> repos !! i.
Proof.
  revert i. induction repos as [|r repos IH]; intros [|i]; simpl; auto.
Qed.

(** C2. [updateVersionStatus] keeps the list's length and order and
    touches only [status]: an entry in status error or missing stays as it
    is; any other entry becomes up-to-date exactly when its version token
    is the authoritative version, that version behind a [v], or [main],
    and outdated otherwise. *)
Theorem updateVersionStatus_compares repos centralVersion :
  length (updateVersionStatus repos centralVersion) = length repos /\
  forall i r,
    repos !! i = Some r ->
    exists r',
      updateVersionStatus repos centralVersion !! i = Some r' /\
      r' = set_status (status r') r /\
      (status r = Error \/ status r = Missing -> r' = r) /\
      (status r <> Error -> status r <> Missing ->
       (status r' = Up_to_date <->
        currentVersion r = Some centralVersion \/
        currentVersion r = Some ("v" +:+ centralVersion) \/
        currentVersion r = Some "main") /\
       (status r' = Outdated <-> status r' <> Up_to_date)).
Proof.
  split.
  - induction repos as [|r repos IH]; simpl; congruence.
  - intros i r Hi. exists (updateVersionStatus_step centralVersion r).
    split; [by rewrite updateVersionStatus_lookup, Hi|].
    apply updateVersionStatus_step_spec.
Qed.

(** The four cases the specification lists, and an entry that is left
    alone. *)
Example updateVersionStatus_examples :
  map status (updateVersionStatus RemoteSamples.sample_infos "1.2.3")
  = [Up_to_date; Up_to_date; Up_to_date; Outdated; Missing].
Proof. reflexivity. Qed.

Lemma updateVersionStatus_compares_witness :
  exists r',
    updateVersionStatus RemoteSamples.sample_infos "1.2.3" !! 3 = Some r' /\
    status r' = Outdated.
Proof.
  destruct (proj2 (updateVersionStatus_compares RemoteSamples.sample_infos "1.2.3")
              3 (RemoteSamples.info_with (Some "1.0.0") Up_to_date) eq_refl)
    as (r' & Hlookup & _ & _ & Hstatus).
  exists r'. split; [exact Hlookup|].
  destruct (Hstatus ltac:(discriminate) ltac:(discriminate)) as [Hup Hout].
  apply Hout. intros Hr'. apply Hup in Hr'.
  destruct Hr' as [|[|]]; discriminate.
Defined.

(** C3, at the failing input. The workflow file is fetched and its token
    1.2.3 extracted; listing the open pull requests then fails with 500;
    the [catch] block sets [status] to error and leaves [currentVersion]
    at the token, and [updateVersionStatus] does not touch the entry. *)
Theorem late_failure_keeps_currentVersion :
  exists info,
    fst (checkRepositoryVersion RemoteSamples.pulls_unavailable
           RemoteSamples.sample_target RemoteSamples.fresh_world) = Ok info /\
    updateVersionStatus [info] "1.2.3" = [info] /\
    status info = Error /\
    currentVersion info = Some "1.2.3".
Proof. eexists. split; [vm_compute; reflexivity|]. by vm_compute. Qed.

(** The same with a late 404: the entry is reported missing, with the
    message of a file that was not found, next to the version read from
    that file. *)
Example late_not_found_keeps_currentVersion :
  exists info,
    fst (checkRepositoryVersion RemoteSamples.pulls_hidden
           RemoteSamples.sample_target RemoteSamples.fresh_world) = Ok info /\
    status info = Missing /\
    errorMessage info = Some "Workflow file not found or repository not accessible" /\
    currentVersion info = Some "1.2.3".
Proof. eexists. split; [vm_compute; reflexivity|]. by vm_compute. Qed.

(** A reference that ends in [@v]: the token is the empty string, the
    status error, and [currentVersion] the empty string rather than null. *)
Example empty_token_is_not_null :
  exists info,
    fst (checkRepositoryVersion RemoteSamples.dangling_reference
           RemoteSamples.sample_target RemoteSamples.fresh_world) = Ok info /\
    status info = Error /\
    currentVersion info = Some EmptyString.
Proof. eexists. split; [vm_compute; reflexivity|]. by vm_compute. Qed.

(** Up to the fetch of the workflow file the invariant holds: a check that
    fails at the installation lookup or at the fetch leaves
    [currentVersion] null. *)
Lemma early_failure_leaves_no_version remote t w info :
  fst (checkRepositoryVersion remote t w) = Ok info ->
  (is_throw (remote (clock w) AppClient (AppsGetRepoInstallation (t_owner t) (t_repo t)))
   = true \/
   exists id,
     remote (clock w) AppClient (AppsGetRepoInstallation (t_owner t) (t_repo t)) = Ok id /\
     is_throw (remote (S (clock w)) (InstallationClient id)
                 (ReposGetContent (t_owner t) (t_repo t) (t_workflowPath t) None)) = true) ->
  currentVersion info = None /\ (status info = Error \/ status info = Missing).
Proof.
  unfold checkRepositoryVersion, checkRepositoryVersion_body, checkRepositoryVersion_handler,
    getInstallationOctokit, try_catch, bind, in_world, request, console_log, modify,
    update_info, throw, lift, ret; simpl.
  intros Hinfo [Hinst|(id & Hinst & Hcontent)].
  - destruct (remote (clock w) AppClient _) as [id|e]; [done|]; simpl in Hinfo.
    destruct (status_is e 404); simpl in Hinfo.
    + injection Hinfo as <-. simpl. auto.
    + destruct (includes "not installed" (err_message e)); simpl in Hinfo;
        [|destruct (status_is e 404); simpl in Hinfo];
        injection Hinfo as <-; simpl; auto.
  - rewrite Hinst in Hinfo; simpl in Hinfo.
    destruct (remote (S (clock w)) _ _) as [data|e]; [done|]; simpl in Hinfo.
    destruct (includes "not installed" (err_message e)); simpl in Hinfo;
      [|destruct (status_is e 404); simpl in Hinfo];
      injection Hinfo as <-; simpl; auto.
Qed.

(** C6, as amended. [getCentralVersion] returns the latest release tag
    without a leading [v]; when the release lookup fails with status 404
    it returns the first seven characters of the latest commit's
    identifier, or [unknown] when there is no commit or anything in that
    second attempt fails, and does not raise; every other failure, of the
    installation lookup (an app that is not installed included) or of the
    release lookup, is raised to the caller. *)
Theorem getCentralVersion_outcomes remote w :
  fst (getCentralVersion remote w) =
  match remote (clock w) AppClient
          (AppsGetRepoInstallation centralRepo_owner centralRepo_repo) with
  | Throw e =>
      Throw (if status_is e 404
             then JS.Error "GitHub App not installed on signinwithethereum/workflow-automation"
             else e)
  | Ok id =>
      match remote (S (clock w)) (InstallationClient id)
              (ReposGetLatestRelease centralRepo_owner centralRepo_repo) with
      | Ok tag_name => Ok (strip_leading_v tag_name)
      | Throw e =>
          if status_is e 404 then
            Ok (match remote (S (S (clock w))) AppClient
                        (AppsGetRepoInstallation centralRepo_owner centralRepo_repo) with
                | Ok id' =>
                    match remote (S (S (S (clock w)))) (InstallationClient id')
                            (ReposListCommits centralRepo_owner centralRepo_repo 1) with
                    | Ok commits => short_sha commits
                    | Throw _ => "unknown"
                    end
                | Throw _ => "unknown"
                end)
          else Throw e
      end
  end.
Proof.
  unfold getCentralVersion, getInstallationOctokit, try_catch, bind, request, console_log,
    modify, throw, lift, ret; simpl.
  destruct (remote (clock w) AppClient _) as [id|e]; simpl.
  - destruct (remote (S (clock w)) _ _) as [tag|e]; simpl; [done|].
    destruct (status_is e 404); simpl; [|done].
    destruct (remote (S (S (clock w))) AppClient _) as [id'|e']; simpl.
    + by destruct (remote (S (S (S (clock w)))) _ _).
    + by destruct (status_is e' 404).
  - destruct (status_is e 404) eqn:He; simpl; [done|]. by rewrite He.
Qed.

(** C6, as stated, fails: the release lookup answers 500 and
    [getCentralVersion] raises that error. *)
Lemma getCentralVersion_raises :
  fst (getCentralVersion RemoteSamples.release_unavailable RemoteSamples.fresh_world)
  = Throw (mkError (Some 500) "Internal Server Error").
Proof. reflexivity. Qed.

Example getCentralVersion_falls_back :
  fst (getCentralVersion RemoteSamples.no_release RemoteSamples.fresh_world) = Ok "9c1d2e3".
Proof. reflexivity. Qed.

End VersionTheorems.

(** ** The update propagator *)

Module PropagatorTheorems.
Import JS Eff GitHub UpdatePropagator.
Local Open Scope eff_scope.

Lemma for_each_console_log lines w :
  for_each console_log lines w
  = (Ok tt, mkWorld (clock w) (calls w) (console w ++ lines)).
Proof.
  revert w. induction lines as [|l lines IH]; intros w; simpl.
  - unfold ret. destruct w; simpl. by rewrite app_nil_r.
  - unfold bind, console_log, modify. rewrite IH; simpl. by rewrite <- app_assoc.
Qed.

(** One turn of the loop never throws: it tallies what the attempt did. *)
Lemma run_step_spec remote cfg t r w :
  run_step remote cfg t r w =
  match attempt remote cfg r w with
  | (Ok true, w') => (Ok (mkTally (S (success t)) (skipped t) (failed t)), w')
  | (Ok false, w') => (Ok (mkTally (success t) (S (skipped t)) (failed t)), w')
  | (Throw error, w') =>
      (Ok (mkTally (success t) (skipped t) (S (failed t))),
       mkWorld (clock w') (calls w')
               (console w' ++ ["Failed to process " +:+ slug r +:+ ": " +:+
                               err_message error]))
  end.
Proof.
  unfold run_step, try_catch, bind.
  by destruct (attempt remote cfg r w) as [[[]|e] w'].
Qed.

Lemma run_step_returns remote cfg t r w :
  exists t',
    run_step remote cfg t r w = (Ok t', snd (run_step remote cfg zero r w)) /\
    success t' + skipped t' + failed t' = S (success t + skipped t + failed t) /\
    failed t' = failed t + (if is_throw (fst (attempt remote cfg r w)) then 1 else 0).
Proof.
  rewrite !run_step_spec.
  destruct (attempt remote cfg r w) as [[[]|e] w']; simpl;
    eexists; (split; [reflexivity|]); simpl; lia.
Qed.

Lemma run_loop_app remote cfg t before after w :
  run_loop remote cfg t (before ++ after) w =
  match run_loop remote cfg t before w with
  | (Ok t1, w1) => run_loop remote cfg t1 after w1
  | (Throw e, w1) => (Throw e, w1)
  end.
Proof.
  revert t w. induction before as [|r before IH]; intros t w; simpl; [done|].
  unfold bind.
  destruct (run_step remote cfg t r w) as [[t1|e] w1]; [apply IH | done].
Qed.

(** The world a turn leaves does not depend on the tally so far. *)
Lemma run_loop_world remote cfg t t0 repos w :
  snd (run_loop remote cfg t repos w) = snd (run_loop remote cfg t0 repos w).
Proof.
  revert t t0 w. induction repos as [|r repos IH]; intros t t0 w; simpl; [done|].
  unfold bind.
  destruct (run_step_returns remote cfg t r w) as (t' & -> & _).
  destruct (run_step_returns remote cfg t0 r w) as (t0' & -> & _).
  apply IH.
Qed.

Lemma run_loop_returns remote cfg t repos w :
  exists t' w',
    run_loop remote cfg t repos w = (Ok t', w') /\
    success t' + skipped t' + failed t' = success t + skipped t + failed t + length repos /\
    failed t <= failed t'.
Proof.
  revert t w. induction repos as [|r repos IH]; intros t w; simpl.
  - exists t, w. unfold ret. repeat split; lia.
  - unfold bind. destruct (run_step_returns remote cfg t r w) as (t1 & -> & Hsum & Hfail).
    destruct (IH t1 (snd (run_step remote cfg zero r w))) as (t' & w' & -> & Hsum' & Hfail').
    exists t', w'. repeat split; lia.
Qed.

(** A failure is tallied exactly when some target's attempt threw. *)
Lemma run_loop_failed remote cfg t repos w t' w' :
  run_loop remote cfg t repos w = (Ok t', w') ->
  failed t < failed t' <->
  exists before r after,
    repos = before ++ r :: after /\
    is_throw (fst (attempt remote cfg r (snd (run_loop remote cfg t before w)))) = true.
Proof.
  revert t w. induction repos as [|r repos IH]; intros t w; simpl.
  - unfold ret. intros [= <- <-]. split; [lia|].
    intros (before & r & after & H & _). by destruct before.
  - unfold bind. destruct (run_step_returns remote cfg t r w) as (t1 & Hstep & _ & Hfail).
    rewrite Hstep. intros Hloop.
    destruct (run_loop_returns remote cfg t1 repos (snd (run_step remote cfg zero r w)))
      as (t2 & w2 & Hloop' & _ & Hmono).
    rewrite Hloop in Hloop'. injection Hloop' as <- <-.
    specialize (IH _ _ Hloop). split.
    + intros Hlt. destruct (is_throw (fst (attempt remote cfg r w))) eqn:Hthrow.
      * exists [], r, repos. by split.
      * destruct (proj1 IH ltac:(lia)) as (before & r' & after & -> & Hr').
        exists (r :: before), r', after. split; [done|].
        simpl. unfold bind. by rewrite Hstep.
    + intros (before & r' & after & Heq & Hr').
      destruct before as [|r0 before]; simpl in Heq; injection Heq as <- ->.
      * simpl in Hr'. unfold ret in Hr'; simpl in Hr'. rewrite Hr' in Hfail. lia.
      * simpl in Hr'. unfold bind in Hr'. rewrite Hstep in Hr'.
        assert (failed t1 < failed t') by (apply IH; by exists before, r', after).
        lia.
Qed.

(** The two outcomes that are not failures. *)
Lemma createPullRequest_existing remote cfg octokit r branchName baseBranch w error :
  remote (clock w) octokit
    (PullsCreate (owner r) (repo r) (pull_request_title cfg) (pull_request_body cfg r)
                 branchName baseBranch) = Throw error ->
  status_is error 422 = true ->
  createPullRequest remote cfg octokit r branchName baseBranch w
  = (Ok tt, mkWorld (S (clock w))
              (calls w ++ [(octokit, PullsCreate (owner r) (repo r) (pull_request_title cfg)
                                       (pull_request_body cfg r) branchName baseBranch)])
              (console w ++ ["Pull request already exists for " +:+ branchName])).
Proof.
  intros Hcreate H422.
  unfold createPullRequest, try_catch, bind, request. rewrite Hcreate, H422.
  reflexivity.
Qed.



(** A run in which the second of four targets fails: the other three are
    processed, and the exit code is 1. *)
Example run_with_one_failure :
  fst (run RemoteSamples.one_forbidden RemoteSamples.sample_config RemoteSamples.fresh_world)
  = Ok 1 /\
  fst (run_loop RemoteSamples.one_forbidden RemoteSamples.sample_config zero
         (repositories RemoteSamples.sample_config) RemoteSamples.fresh_world)
  = Ok (mkTally 2 1 1).
Proof. split; vm_compute; reflexivity. Qed.

End PropagatorTheorems.

(** ** The theorems at concrete inputs *)

Module Witnesses.
Import JS Eff ConfigValidator ValidatorLog.

(** The exclusions document: [build/x.js] is listed twice, and both
    entries are warned about. *)
Lemma redundant_exclusions_are_warned_witness :
  redundant_exclusion_message "build/x.js" "build/"
  ∈ warnings (validateConfig (Samples.sample_validator []) "configs/exclusions.json").
Proof.
  refine (proj1 (proj2 (ValidatorTheorems.redundant_exclusions_are_warned
                          (Samples.sample_validator []) "configs/exclusions.json"
                          Samples.doc_exclusions_text Samples.doc_exclusions
                          (fun _ => None)
                          ["build/x.js"; "build/x.js"; "src/a.ts"] ["build/"; "dist/"]
                          eq_refl eq_refl eq_refl eq_refl eq_refl eq_refl _))
            "build/x.js" "build/" _ _ eq_refl).
  - intros _. exact I.
  - apply list_elem_of_here.
  - apply list_elem_of_here.
Defined.

(** The same two documents, read from two directories by two validators. *)
Lemma validator_runs_agree_witness :
  map (fun p => (errors (validateConfig (Samples.sample_validator []) p),
                 warnings (validateConfig (Samples.sample_validator []) p)))
      ["configs/exclusions.json"; "configs/clean.json"]
  = map (fun p => (errors (validateConfig Samples.moved_validator p),
                   warnings (validateConfig Samples.moved_validator p)))
        ["copy/exclusions.json"; "copy/clean.json"].
Proof.
  apply (ValidatorTheorems.validator_runs_agree
           (Samples.sample_validator []) Samples.moved_validator);
    [reflexivity | reflexivity | reflexivity |].
  repeat constructor.
Defined.

End Witnesses.

(** ** Strings *)

Module StringFacts.
Import JS Vocabulary.

Lemma append_cons c (a b : string) : String c a +:+ b = String c (a +:+ b).
Proof. reflexivity. Qed.

Lemma append_empty (b : string) : EmptyString +:+ b = b.
Proof. reflexivity. Qed.

Lemma prefix_spec p s :
  String.prefix p s = true <-> exists rest, s = p +:+ rest.
Proof.
  revert s. induction p as [|c p IH]; intros s.
  - destruct s; simpl; (split; [by eexists | done]).
  - destruct s as [|c' s]; simpl; [split; [done | by intros (? & ?)]|].
    destruct (ascii_dec c c') as [<-|Hne].
    + rewrite IH. split; intros (rest & H); exists rest;
        rewrite append_cons in *; congruence.
    + split; [done | intros (rest & H); rewrite append_cons in H; congruence].
Qed.

Lemma append_assoc (a b c : string) : (a +:+ b) +:+ c = a +:+ b +:+ c.
Proof.
  induction a as [|x a IH]; [done|]. rewrite !append_cons. congruence.
Qed.

(** [hay.includes(needle)] holds exactly when [needle] lies somewhere in
    [hay]. *)
Lemma includes_spec needle hay :
  includes needle hay = true <-> exists before after, hay = before +:+ needle +:+ after.
Proof.
  induction hay as [|c hay IH].
  - cbn [includes]. rewrite orb_false_r, prefix_spec. split.
    + intros (rest & H). by exists EmptyString, rest.
    + intros ([|? ?] & after & H); [by exists after | done].
  - cbn [includes]. rewrite orb_true_iff, prefix_spec, IH. split.
    + intros [(rest & H)|(before & after & H)].
      * by exists EmptyString, rest.
      * exists (String c before), after. rewrite append_cons. congruence.
    + intros ([|c' before] & after & H).
      * left. by exists after.
      * right. exists before, after. rewrite append_cons in H. congruence.
Qed.

(** A token ends at the first white space. *)
Lemma token_until_space s c rest :
  has_space s = false -> VersionChecker.is_space c = true ->
  VersionChecker.token (s +:+ String c rest) = s.
Proof.
  intros Hs Hc. induction s as [|x s IH].
  - rewrite append_empty. simpl. by rewrite Hc.
  - rewrite append_cons. simpl in *. apply orb_false_iff in Hs as [Hx Hs].
    rewrite Hx. by rewrite IH.
Qed.

Lemma token_has_no_space s : has_space (VersionChecker.token s) = false.
Proof.
  induction s as [|c s IH]; simpl; [done|].
  destruct (VersionChecker.is_space c) eqn:Hc; simpl; [done|]. by rewrite Hc.
Qed.

End StringFacts.

(** ** Finding the reference to the central repository *)

Module ReferenceFacts.
Import JS UpdatePropagator Vocabulary StringFacts.

Lemma length_append (a b : string) :
  String.length (a +:+ b) = String.length a + String.length b.
Proof. induction a as [|c a IH]; [done|]. rewrite append_cons. simpl. by rewrite IH. Qed.

Lemma prefix_long p a b :
  String.length p <= String.length a ->
  String.prefix p (a +:+ b) = String.prefix p a.
Proof.
  revert a. induction p as [|c p IH]; intros a Hlen.
  - by destruct a, b.
  - destruct a as [|c' a]; simpl in Hlen; [lia|].
    rewrite append_cons. simpl. destruct (ascii_dec c c'); [|done].
    apply IH. lia.
Qed.

Lemma match_reference_unfold s :
  VersionChecker.match_reference s
  = match (if String.prefix VersionChecker.central_reference s
           then VersionChecker.match_reference_tail
                  (drop_chars (String.length VersionChecker.central_reference) s)
           else None) with
    | Some capture => Some capture
    | None =>
        match s with
        | EmptyString => None
        | String _ rest => VersionChecker.match_reference rest
        end
    end.
Proof. by destruct s. Qed.

Lemma drop_chars_append (a b : string) : drop_chars (String.length a) (a +:+ b) = b.
Proof. induction a as [|c a IH]; [done|]. by rewrite append_cons. Qed.

Lemma match_reference_here s capture :
  VersionChecker.match_reference_tail s = Some capture ->
  VersionChecker.match_reference (VersionChecker.central_reference +:+ s) = Some capture.
Proof.
  intros Htail. rewrite match_reference_unfold.
  rewrite (proj2 (prefix_spec _ _)) by (by exists s).
  by rewrite drop_chars_append, Htail.
Qed.

Lemma match_reference_skip head s :
  clear_before head = true ->
  VersionChecker.match_reference (head +:+ VersionChecker.central_reference +:+ s)
  = VersionChecker.match_reference (VersionChecker.central_reference +:+ s).
Proof.
  induction head as [|c head IH]; intros Hclear; [done|].
  cbn [clear_before] in Hclear. apply andb_true_iff in Hclear as [Hhere Hrest].
  apply negb_true_iff in Hhere.
  rewrite match_reference_unfold.
  rewrite <- append_assoc, prefix_long, Hhere by (rewrite length_append; lia).
  rewrite append_assoc, append_cons. by apply IH.
Qed.

Lemma match_reference_tail_path path s :
  has_at path = false ->
  VersionChecker.match_reference_tail (path +:+ String "@" s)
  = if String.eqb (VersionChecker.token s) EmptyString then None
    else Some (VersionChecker.token s).
Proof.
  induction path as [|c path IH]; intros Hpath; [done|].
  cbn [has_at] in Hpath. apply orb_false_iff in Hpath as [Hc Hpath].
  rewrite append_cons. cbn [VersionChecker.match_reference_tail].
  rewrite Hc. by apply IH.
Qed.

Lemma extract_reference_shape head path s :
  clear_before head = true -> has_at path = false ->
  VersionChecker.token s <> EmptyString ->
  VersionChecker.extractVersionFromWorkflow
    (head +:+ VersionChecker.central_reference +:+ path +:+ String "@" s)
  = Some (let version := VersionChecker.token s in
          if startsWith "v" version then drop_chars 1 version else version).
Proof.
  intros Hhead Hpath Htoken. unfold VersionChecker.extractVersionFromWorkflow.
  rewrite match_reference_skip by done.
  rewrite (match_reference_here _ (VersionChecker.token s)); [done|].
  rewrite match_reference_tail_path by done.
  by rewrite (proj2 (String.eqb_neq _ _) Htoken).
Qed.

Lemma generateCallerWorkflow_shape cfg r :
  generateCallerWorkflow cfg r
  = caller_preamble +:+ VersionChecker.central_reference +:+
    "/.github/workflows/pr-review.yml" +:+
    String "@" (("v" +:+ workflowVersion cfg) +:+ String line_feed (caller_rest r)).
Proof.
  rewrite (append_assoc "v"). reflexivity.
Qed.

Lemma generateOnDemandWorkflow_shape cfg r :
  generateOnDemandWorkflow cfg r
  = on_demand_preamble +:+ VersionChecker.central_reference +:+
    "/.github/workflows/issue-response.yml" +:+
    String "@" (("v" +:+ workflowVersion cfg) +:+ String line_feed (on_demand_rest r)).
Proof.
  rewrite (append_assoc "v"). reflexivity.
Qed.

Lemma extract_generated head path version rest :
  clear_before head = true -> has_at path = false -> has_space version = false ->
  VersionChecker.extractVersionFromWorkflow
    (head +:+ VersionChecker.central_reference +:+ path +:+
     String "@" (("v" +:+ version) +:+ String line_feed rest))
  = Some version.
Proof.
  intros Hhead Hpath Hversion.
  assert (VersionChecker.token (("v" +:+ version) +:+ String line_feed rest)
          = "v" +:+ version) as Htoken.
  { apply token_until_space; [|reflexivity].
    rewrite append_cons, append_empty. exact Hversion. }
  rewrite extract_reference_shape; try done.
  rewrite Htoken. cbv zeta. unfold startsWith.
  by rewrite (proj2 (prefix_spec "v" _)) by (by exists version).
Qed.

End ReferenceFacts.

(** ** The requests a computation makes *)

Module TraceFacts.
Import JS Eff GitHub Vocabulary.
Local Open Scope eff_scope.

Section Emits.
Context {S : Type} (world : S -> World) (P : Call -> Prop).

Lemma emits_quiet {A} (m : M S A) :
  (forall s, world (snd (m s)) = world s \/
             (calls (world (snd (m s))) = calls (world s) /\
              clock (world (snd (m s))) = clock (world s))) ->
  emits world P m.
Proof.
  intros H s. exists []. rewrite app_nil_r, Nat.add_0_r.
  destruct (H s) as [->|[-> ->]]; by repeat split.
Qed.

Lemma emits_ret {A} (a : A) : emits world P (ret a : M S A).
Proof. apply emits_quiet. by left. Qed.

Lemma emits_lift {A} (o : result A) : emits world P (lift o : M S A).
Proof. apply emits_quiet. by left. Qed.

Lemma emits_throw {A} (e : JsError) : emits world P (throw e : M S A).
Proof. apply emits_quiet. by left. Qed.

Lemma emits_get : emits world P (get : M S S).
Proof. apply emits_quiet. by left. Qed.

Lemma emits_bind {A B} (m : M S A) (k : A -> M S B) :
  emits world P m -> (forall a, emits world P (k a)) -> emits world P (bind m k).
Proof.
  intros Hm Hk s. unfold bind.
  destruct (Hm s) as (new & Hcalls & Hclock & HP).
  destruct (m s) as [[a|e] s']; simpl in *.
  - destruct (Hk a s') as (new' & Hcalls' & Hclock' & HP').
    exists (new ++ new'). rewrite Hcalls', Hcalls, Hclock', Hclock, length_app.
    split; [by rewrite app_assoc | split; [lia | by apply Forall_app]].
  - by exists new.
Qed.

Lemma emits_try_catch {A} (m : M S A) (h : JsError -> M S A) :
  emits world P m -> (forall e, emits world P (h e)) -> emits world P (try_catch m h).
Proof.
  intros Hm Hh s. unfold try_catch.
  destruct (Hm s) as (new & Hcalls & Hclock & HP).
  destruct (m s) as [[a|e] s']; simpl in *.
  - by exists new.
  - destruct (Hh e s') as (new' & Hcalls' & Hclock' & HP').
    exists (new ++ new'). rewrite Hcalls', Hcalls, Hclock', Hclock, length_app.
    split; [by rewrite app_assoc | split; [lia | by apply Forall_app]].
Qed.

Lemma emits_when b (m : M S unit) : emits world P m -> emits world P (when b m).
Proof. destruct b; simpl; [done | intros _; apply emits_ret]. Qed.

Lemma emits_for_each {A} (body : A -> M S unit) xs :
  (forall x, emits world P (body x)) -> emits world P (for_each body xs).
Proof.
  intros Hbody. induction xs as [|x xs IH]; simpl.
  - apply emits_ret.
  - apply emits_bind; [apply Hbody | intros _; apply IH].
Qed.

End Emits.

Lemma emits_weaken {S A} (world : S -> World) (P Q : Call -> Prop) (m : M S A) :
  (forall c, P c -> Q c) -> emits world P m -> emits world Q m.
Proof.
  intros HPQ Hm s. destruct (Hm s) as (new & Hcalls & Hclock & HP).
  exists new. repeat split; try done.
  eapply Forall_impl; [exact HP|]. intros vc. apply HPQ.
Qed.

Lemma emits_request (P : Call -> Prop) remote via c :
  P c -> emits id P (request remote via c).
Proof.
  intros Hc w. exists [(via, c)]. unfold request; simpl.
  split; [done | split; [lia | by repeat constructor]].
Qed.

Lemma emits_console_log (P : Call -> Prop) line : emits id P (console_log line).
Proof. apply emits_quiet. intros w. right. by unfold console_log, modify. Qed.

(** Follows the structure of [m] in a goal [emits id P m]; a request
    leaves its side condition to [tac]. *)
Ltac emits_step tac :=
  lazymatch goal with
  | |- emits _ _ (bind _ _) => apply emits_bind; [ | intros ]
  | |- emits _ _ (try_catch _ _) => apply emits_try_catch; [ | intros ]
  | |- emits _ _ (request _ _ _) => apply emits_request; tac
  | |- emits _ _ (console_log _) => apply emits_console_log
  | |- emits _ _ (ret _) => apply emits_ret
  | |- emits _ _ (lift _) => apply emits_lift
  | |- emits _ _ (throw _) => apply emits_throw
  | |- emits _ _ (when _ _) => apply emits_when
  | |- emits _ _ (for_each _ _) => apply emits_for_each; intros
  | |- emits _ _ (match ?x with _ => _ end) => destruct x
  end.

End TraceFacts.

(** ** Further properties of the validator *)

Module ValidatorExtras.
Import JS Eff ConfigValidator ValidatorLog ValidatorFacts ValidatorReturns Vocabulary.
Local Open Scope eff_scope.

(** A document that cannot be checked: one error, nothing else. *)
Lemma validateConfig_unchecked v p :
  (existsSync (fs v) p = false \/
   (exists error, readFileSync (fs v) p = Throw error) \/
   (exists text msg, readFileSync (fs v) p = Ok text /\
                     JSON_parse (runtime v) text = inl msg) \/
   (exists error, compile (ajv v) (schema v) = Throw error)) ->
  exists e, validateConfig v p = mkResult p false [e] [].
Proof.
  unfold validateConfig, validateConfig_body, try_catch, bind, lift, push_error, modify.
  intros [Hex|[(error & Hread)|[(text & msg & Hread & Hparse)|(error & Hcompile)]]].
  - rewrite Hex; simpl. by eexists.
  - destruct (existsSync (fs v) p); simpl; [|by eexists].
    rewrite Hread; simpl. by eexists.
  - destruct (existsSync (fs v) p); simpl; [|by eexists].
    rewrite Hread, Hparse; simpl. by eexists.
  - destruct (existsSync (fs v) p); simpl; [|by eexists].
    destruct (readFileSync (fs v) p) as [text|e]; simpl; [|by eexists].
    destruct (JSON_parse (runtime v) text) as [msg|config]; simpl; [by eexists|].
    rewrite Hcompile; simpl. by eexists.
Qed.

(** X1. [validateConfig] reports [valid = true] exactly for a document
    that exists, can be read, parses, and satisfies a schema that
    compiles; nothing the later checks find takes part. *)
Theorem valid_exactly_when_schema_passes v p :
  valid (validateConfig v p) = true <->
  exists text config validate,
    existsSync (fs v) p = true /\
    readFileSync (fs v) p = Ok text /\
    JSON_parse (runtime v) text = inr config /\
    compile (ajv v) (schema v) = Ok validate /\
    validate config = None.
Proof.
  split.
  - intros Hvalid.
    destruct (existsSync (fs v) p) eqn:Hex.
    2: { destruct (validateConfig_unchecked v p) as (e & He); [by left|].
         by rewrite He in Hvalid. }
    destruct (readFileSync (fs v) p) as [text|error] eqn:Hread.
    2: { destruct (validateConfig_unchecked v p) as (e & He); [right; left; by eexists|].
         by rewrite He in Hvalid. }
    destruct (JSON_parse (runtime v) text) as [msg|config] eqn:Hparse.
    { destruct (validateConfig_unchecked v p) as (e & He);
        [right; right; left; by exists text, msg|].
      by rewrite He in Hvalid. }
    destruct (compile (ajv v) (schema v)) as [validate|error] eqn:Hcompile.
    2: { destruct (validateConfig_unchecked v p) as (e & He);
           [right; right; right; by eexists|].
         by rewrite He in Hvalid. }
    exists text, config, validate. repeat split; try done.
    by apply (ValidatorTheorems.validateConfig_valid_is_schema_outcome v p text config validate).
  - intros (text & config & validate & Hex & Hread & Hparse & Hcompile & Hvalid).
    by apply (ValidatorTheorems.validateConfig_valid_is_schema_outcome v p text config validate).
Qed.

(** X2. The four ways a document is not checked at all, each with its one
    error: a missing file, a file that cannot be read, text that does not
    parse, and a schema that does not compile. No warning is produced and
    [valid] is false. *)
Theorem unchecked_document_has_one_error v p :
  (existsSync (fs v) p = false ->
   validateConfig v p = mkResult p false ["Configuration file not found"] []) /\
  (forall error,
     existsSync (fs v) p = true -> readFileSync (fs v) p = Throw error ->
     validateConfig v p
     = mkResult p false ["Validation error: " +:+ err_message error] []) /\
  (forall text msg,
     existsSync (fs v) p = true -> readFileSync (fs v) p = Ok text ->
     JSON_parse (runtime v) text = inl msg ->
     validateConfig v p = mkResult p false ["JSON parsing error: " +:+ msg] []) /\
  (forall text config error,
     existsSync (fs v) p = true -> readFileSync (fs v) p = Ok text ->
     JSON_parse (runtime v) text = inr config ->
     compile (ajv v) (schema v) = Throw error ->
     validateConfig v p
     = mkResult p false ["Validation error: " +:+ err_message error] []).
Proof.
  unfold validateConfig, validateConfig_body, try_catch, bind, lift, push_error, modify.
  repeat split.
  - by intros ->.
  - by intros error -> ->.
  - by intros text msg -> -> ->.
  - by intros text config error -> -> -> ->.
Qed.

Lemma unchecked_document_has_one_error_witness :
  validateConfig (Samples.sample_validator []) "notes.txt"
  = mkResult "notes.txt" false ["JSON parsing error: Unexpected token"] [].
Proof.
  exact (proj1 (proj2 (proj2 (unchecked_document_has_one_error
                               (Samples.sample_validator []) "notes.txt")))
           "remember the milk" "Unexpected token" eq_refl eq_refl eq_refl).
Defined.










(** C5. Two documents hold the same pair of a file pattern [build/x.js]
    and a directory pattern [build/], and both satisfy the schema. The
    one whose [model] is a string gets the redundant-exclusion warning.
    The one whose [model] is the number 4 gets none: the best-practice
    check of the model throws, the semantic checks are not reached, and
    the result is [valid] with the exception as its one error. *)
Theorem crash_drops_redundant_exclusion_warning :
  validateConfig FurtherSamples.exclusions_validator "configs/text-model.json"
  = mkResult "configs/text-model.json" true []
      ["Potential redundant exclusion: file pattern 'build/x.js' may be covered by directory pattern 'build/'"] /\
  validateConfig FurtherSamples.exclusions_validator "configs/numeric-model.json"
  = mkResult "configs/numeric-model.json" true
      ["Validation error: includes is not a function"] [].
Proof. split; vm_compute; reflexivity. Qed.

End ValidatorExtras.

(** ** Further properties of the validator's run *)

Module RunExtras.
Import JS Eff ConfigValidator ValidatorLog.

Lemma run_loop_results v files rs a b :
  fold_left (run_step v) files (rs, a, b)
  = (rs ++ map (validateConfig v) files,
     a + length (filter (fun r => valid r = true) (map (validateConfig v) files)),
     b + length (filter (fun r => valid r = false) (map (validateConfig v) files))).
Proof.
  revert rs a b. induction files as [|f files IH]; intros rs a b; simpl.
  - by rewrite app_nil_r, !Nat.add_0_r.
  - rewrite !filter_cons.
    destruct (valid (validateConfig v f)) eqn:Hvalid; rewrite IH.
    + rewrite decide_True, decide_False by done. simpl.
      by rewrite ?Nat.add_succ_r, <- ?app_assoc.
    + rewrite decide_False, decide_True by done. simpl.
      by rewrite ?Nat.add_succ_r, <- ?app_assoc.
Qed.

Lemma run_outcome v now :
  run v now =
  if Nat.eqb (length (fst (findConfigFiles v))) 0 then
    Throw (Error "No configuration files found to validate")
  else
    match schema_title (runtime v) (schema v) with
    | Ok title =>
        let results := map (validateConfig v) (fst (findConfigFiles v)) in
        Ok (mkReport now title (length (fst (findConfigFiles v)))
              (length (filter (fun r => valid r = true) results))
              (length (filter (fun r => valid r = false) results))
              results (generateSummary results))
    | Throw error => Throw error
    end.
Proof.
  unfold run. destruct (Nat.eqb _ 0); [done|].
  by rewrite run_loop_results.
Qed.

(** X5. A report that [run] returns holds one result per discovered file,
    in discovery order, each the result of [validateConfig] on that file;
    the valid and invalid counts are the numbers of results with
    [valid] true and false; and at least one file was discovered. *)
Theorem report_lists_every_file v now report :
  run v now = Ok report ->
  results report = map (validateConfig v) (fst (findConfigFiles v)) /\
  validFiles report = length (filter (fun r => valid r = true) (results report)) /\
  invalidFiles report = length (filter (fun r => valid r = false) (results report)) /\
  fst (findConfigFiles v) <> [].
Proof.
  rewrite run_outcome.
  destruct (Nat.eqb _ 0) eqn:Hempty; [done|].
  destruct (schema_title _ _); [|done].
  intros [= <-]; simpl. repeat split.
  intros Hnil. by rewrite Hnil in Hempty.
Qed.

Lemma report_lists_every_file_witness :
  exists report,
    run (Samples.sample_validator
           ["configs/contradiction.json"; "configs/exclusions.json"; "configs/clean.json"]) 0
    = Ok report /\
    results report
    = map (validateConfig
             (Samples.sample_validator
                ["configs/contradiction.json"; "configs/exclusions.json";
                 "configs/clean.json"]))
          ["configs/contradiction.json"; "configs/exclusions.json"; "configs/clean.json"] /\
    validFiles report = 3.
Proof.
  eexists. split; [reflexivity|].
  split.
  - exact (proj1 (report_lists_every_file
                    (Samples.sample_validator
                       ["configs/contradiction.json"; "configs/exclusions.json";
                        "configs/clean.json"]) 0 _ eq_refl)).
  - reflexivity.
Defined.

Lemma run_counts_invalid v now report :
  run v now = Ok report ->
  invalidFiles report = length (filter (fun r => valid r = false) (results report)).
Proof.
  rewrite run_outcome. destruct (Nat.eqb _ 0); [done|].
  destruct (schema_title _ _); [|done]. by intros [= <-].
Qed.

Lemma filter_invalid_empty (rs : list ValidationResult) :
  length (filter (fun r => valid r = false) rs) = 0 <->
  Forall (fun r => valid r = true) rs.
Proof.
  induction rs as [|r rs IH]; simpl; [by split|].
  rewrite filter_cons. destruct (valid r) eqn:Hvalid.
  - rewrite decide_False by done. rewrite IH. split.
    + by constructor.
    + by inversion 1.
  - rewrite decide_True by done. simpl. split; [done|].
    inversion 1; congruence.
Qed.

(** X6. The validator process ends with exit code 0 exactly when [run]
    returns a report in which every result has [valid] true; it ends
    with 1 when a result is invalid and when [run] throws, which it does
    exactly when no file is discovered or the schema is null. *)
Theorem validator_exit_code v now :
  (exit_code v now = 0 <->
   exists report,
     run v now = Ok report /\ Forall (fun r => valid r = true) (results report)) /\
  (exit_code v now = 0 \/ exit_code v now = 1) /\
  (is_throw (run v now) = true <->
   fst (findConfigFiles v) = [] \/ schema v = JNull).
Proof.
  split; [|split].
  - unfold exit_code. destruct (run v now) as [report|error] eqn:Hrun.
    + pose proof (run_counts_invalid v now report Hrun) as Hinvalid.
      destruct (Nat.ltb 0 (invalidFiles report)) eqn:Hlt.
      * apply Nat.ltb_lt in Hlt. split; [done|].
        intros (report' & [= <-] & Hall). apply filter_invalid_empty in Hall. lia.
      * apply Nat.ltb_ge in Hlt. split; [intros _|done].
        exists report. split; [done|]. apply filter_invalid_empty. lia.
    + split; [done | by intros (? & ? & _)].
  - unfold exit_code. destruct (run v now) as [report|error]; [|by right].
    destruct (Nat.ltb 0 (invalidFiles report)); [by right | by left].
  - rewrite run_outcome.
    destruct (fst (findConfigFiles v)) as [|f files]; simpl.
    { split; [by left | done]. }
    unfold schema_title, member.
    destruct (schema v) as [| | | | |kvs]; simpl.
    1: { split; [by right | done]. }
    all: try (split; [done | by intros [|]]).
    destruct (assoc "title" kvs); simpl; split; try done; by intros [|].
Qed.

End RunExtras.

(** ** Further properties of the propagator *)

Module PropagatorExtras.
Import JS Eff GitHub UpdatePropagator Vocabulary StringFacts TraceFacts.
Local Open Scope eff_scope.

Ltac read_side := reflexivity.

Ltac addressed_side :=
  unfold addressed, on_branch, update_branch; simpl;
  repeat split; first [ reflexivity | left; reflexivity | right; reflexivity | exact I ].

Lemma emits_needsUpdate_reads remote cfg r :
  emits id (fun c => is_lookup c = true) (needsUpdate remote cfg r).
Proof.
  unfold needsUpdate, getInstallationOctokit. repeat emits_step read_side.
Qed.

Lemma emits_updateRepository_dry remote cfg r :
  dryRun cfg = true ->
  emits id (fun c => is_lookup c = true) (updateRepository remote cfg r).
Proof.
  intros Hdry. unfold updateRepository. rewrite Hdry.
  destruct (negb (enabled r)); [apply emits_console_log|].
  apply emits_bind; [apply emits_console_log | intros _].
  apply emits_bind; [apply emits_needsUpdate_reads | intros stale].
  destruct (negb stale); apply emits_console_log.
Qed.

Lemma emits_run_loop (P : Call -> Prop) remote cfg repos :
  (forall r, r ∈ repos -> emits id P (attempt remote cfg r)) ->
  forall t, emits id P (run_loop remote cfg t repos).
Proof.
  induction repos as [|r repos IH]; intros Hattempt t; simpl.
  - apply emits_ret.
  - apply emits_bind.
    + unfold run_step. apply emits_try_catch.
      * apply emits_bind; [apply Hattempt; by left | intros []; apply emits_ret].
      * intros e. apply emits_bind; [apply emits_console_log | intros _; apply emits_ret].
    + intros t'. apply IH. intros r' Hr'. apply Hattempt. by right.
Qed.

Lemma emits_run (P : Call -> Prop) remote cfg :
  (forall r, r ∈ repositories cfg -> emits id P (attempt remote cfg r)) ->
  emits id P (run remote cfg).
Proof.
  intros Hattempt. unfold run.
  apply emits_bind; [apply emits_for_each; intros; apply emits_console_log | intros _].
  apply emits_bind; [by apply emits_run_loop | intros t].
  apply emits_bind; [apply emits_for_each; intros; apply emits_console_log | intros _].
  destruct (Nat.ltb 0 (failed t)); apply emits_ret.
Qed.

(** X7. In dry-run mode a whole run only reads: every request it makes is
    the lookup of an installation or the lookup of a file on the default
    branch, whatever the remote side answers. *)
Theorem dry_run_only_reads remote cfg w :
  dryRun cfg = true ->
  exists new,
    calls (snd (run remote cfg w)) = calls w ++ new /\
    clock (snd (run remote cfg w)) = clock w + length new /\
    Forall (fun vc => is_lookup (snd vc) = true) new.
Proof.
  intros Hdry. apply (emits_run (fun c => is_lookup c = true) remote cfg).
  intros r _. unfold attempt.
  apply emits_bind; [by apply emits_updateRepository_dry | intros _].
  destruct (enabled r); [apply emits_needsUpdate_reads | apply emits_ret].
Qed.

Lemma dry_run_only_reads_witness :
  exists new,
    calls (snd (run RemoteSamples.all_well FurtherSamples.dry_config
                  RemoteSamples.fresh_world))
    = calls RemoteSamples.fresh_world ++ new /\
    clock (snd (run RemoteSamples.all_well FurtherSamples.dry_config
                  RemoteSamples.fresh_world))
    = clock RemoteSamples.fresh_world + length new /\
    Forall (fun vc => is_lookup (snd vc) = true) new.
Proof.
  exact (dry_run_only_reads RemoteSamples.all_well FurtherSamples.dry_config
           RemoteSamples.fresh_world eq_refl).
Defined.

Lemma emits_attempt_addressed remote cfg r :
  emits id (addressed cfg r) (attempt remote cfg r).
Proof.
  unfold attempt, updateRepository, updateRepository_body, needsUpdate, updateFile,
    createPullRequest, getInstallationOctokit.
  cbv zeta.
  repeat emits_step addressed_side.
Qed.

(** X8. Every request of a run names the owner and the repository of one
    of the listed targets, and whatever a run creates or changes (a
    reference, a file, a pull request) is on the branch
    [workflow-automation/update-v<version>]: the propagator never writes
    to another branch. *)
Theorem run_stays_on_update_branch remote cfg w :
  exists new,
    calls (snd (run remote cfg w)) = calls w ++ new /\
    clock (snd (run remote cfg w)) = clock w + length new /\
    Forall (fun vc => exists r, r ∈ repositories cfg /\ addressed cfg r (snd vc)) new.
Proof.
  apply (emits_run (fun c => exists r, r ∈ repositories cfg /\ addressed cfg r c)
           remote cfg).
  intros r Hr. eapply emits_weaken; [|apply emits_attempt_addressed].
  intros c Hc. by exists r.
Qed.

Lemma needsUpdate_run remote cfg r w :
  (fst (needsUpdate remote cfg r w),
   clock (snd (needsUpdate remote cfg r w))) =
  match remote (clock w) AppClient (AppsGetRepoInstallation (owner r) (repo r)) with
  | Throw e =>
      (Throw (if status_is e 404
              then JS.Error ("GitHub App not installed on " +:+ owner r +:+ "/" +:+ repo r)
              else e), S (clock w))
  | Ok id =>
      match remote (S (clock w)) (InstallationClient id)
              (ReposGetContent (owner r) (repo r) (workflowPath r) None) with
      | Ok data =>
          (Ok (match content data with
               | Some text => negb (includes ("@v" +:+ workflowVersion cfg) text)
               | None => true
               end), S (S (clock w)))
      | Throw e => (if status_is e 404 then Ok true else Throw e, S (S (clock w)))
      end
  end.
Proof.
  unfold needsUpdate, getInstallationOctokit, try_catch, bind, request, ret, throw, lift;
    simpl.
  destruct (remote (clock w) AppClient _) as [id|e]; simpl.
  - destruct (remote (S (clock w)) (InstallationClient id) _) as [data|e]; simpl.
    + by destruct (content data).
    + by destruct (status_is e 404).
  - destruct (status_is e 404) eqn:H404; simpl; by rewrite ?H404.
Qed.

(** X9. [needsUpdate] answers "current" exactly when the installation
    lookup and the file lookup succeed and the file text holds the marker
    [@v<version>] somewhere; it raises exactly when the installation
    lookup fails (a 404 there is the app not being installed, not a
    missing file) or the file lookup fails with a status other than 404;
    in every other case, a 404 on the file included, it answers "needs
    update". It makes at most these two requests. *)
Theorem needsUpdate_outcomes remote cfg r w :
  let installation :=
    remote (clock w) AppClient (AppsGetRepoInstallation (owner r) (repo r)) in
  let lookup id :=
    remote (S (clock w)) (InstallationClient id)
      (ReposGetContent (owner r) (repo r) (workflowPath r) None) in
  (fst (needsUpdate remote cfg r w) = Ok false <->
   exists id data text before after,
     installation = Ok id /\ lookup id = Ok data /\ content data = Some text /\
     text = before +:+ ("@v" +:+ workflowVersion cfg) +:+ after) /\
  (is_throw (fst (needsUpdate remote cfg r w)) = true <->
   is_throw installation = true \/
   exists id error,
     installation = Ok id /\ lookup id = Throw error /\ status_is error 404 = false) /\
  clock (snd (needsUpdate remote cfg r w)) <= clock w + 2.
Proof.
  cbv zeta. pose proof (needsUpdate_run remote cfg r w) as Hrun.
  destruct (remote (clock w) AppClient _) as [id|e] eqn:Hinst.
  - destruct (remote (S (clock w)) (InstallationClient id) _) as [data|e] eqn:Hlookup;
      injection Hrun as -> ->.
    + split; [|split; [|lia]].
      * split.
        -- intros [= Hfalse]. destruct (content data) as [text|] eqn:Hcontent; [|done].
           apply negb_false_iff, includes_spec in Hfalse as (before & after & Htext).
           by exists id, data, text, before, after.
        -- intros (id' & data' & text & before & after & [= <-] & Hl & Hc & Htext).
           rewrite Hlookup in Hl. injection Hl as <-. rewrite Hc. f_equal.
           apply negb_false_iff, includes_spec. by exists before, after.
      * split; [done|]. intros [|(id' & error & [= <-] & Hl & _)]; [done|].
        by rewrite Hlookup in Hl.
    + split; [|split; [|lia]].
      * split.
        -- by destruct (status_is e 404).
        -- intros (id' & data' & text & before & after & [= <-] & Hl & _).
           by rewrite Hlookup in Hl.
      * destruct (status_is e 404) eqn:H404; simpl.
        -- split; [done|]. intros [|(id' & error & [= <-] & Hl & Hno)]; [done|].
           rewrite Hlookup in Hl. injection Hl as <-. congruence.
        -- split; [|done]. intros _. right. by exists id, e.
  - injection Hrun as -> ->. split; [|split; [|lia]].
    + split; [done | by intros (? & ? & ? & ? & ? & ? & _)].
    + split; [by left | done].
Qed.

(** X10. [createPullRequest] raises exactly when the request that opens
    the pull request fails with a status other than 422; what the label
    request answers never matters. After a failed opening no label
    request is made. *)
Theorem createPullRequest_raises_only_on_create remote cfg octokit r branchName baseBranch w :
  let create :=
    PullsCreate (owner r) (repo r) (pull_request_title cfg) (pull_request_body cfg r)
                branchName baseBranch in
  (is_throw (fst (createPullRequest remote cfg octokit r branchName baseBranch w)) = true <->
   exists error,
     remote (clock w) octokit create = Throw error /\ status_is error 422 = false) /\
  (forall pr,
     remote (clock w) octokit create = Ok pr ->
     calls (snd (createPullRequest remote cfg octokit r branchName baseBranch w))
     = calls w ++ [(octokit, create);
                   (octokit, IssuesAddLabels (owner r) (repo r) (number pr)
                               ["automation"; "workflow-update"; "ai-review"])]) /\
  (forall error,
     remote (clock w) octokit create = Throw error ->
     calls (snd (createPullRequest remote cfg octokit r branchName baseBranch w))
     = calls w ++ [(octokit, create)]).
Proof.
  cbv zeta. unfold createPullRequest, try_catch, bind, request, console_log, modify, ret,
    throw, lift; simpl.
  destruct (remote (clock w) octokit _) as [pr|e] eqn:Hcreate; simpl.
  - split; [|split].
    + destruct (remote (S (clock w)) octokit _) as [[]|e']; simpl;
        (split; [done | by intros (? & ? & _)]).
    + intros pr' [= <-].
      destruct (remote (S (clock w)) octokit _) as [[]|e']; simpl;
        by rewrite <- app_assoc.
    + done.
  - split; [|split; [done|]].
    + destruct (status_is e 422) eqn:H422; simpl.
      * split; [done|]. intros (e' & [= <-] & ?). congruence.
      * split; [|done]. intros _. by exists e.
    + intros e' [= <-]. by destruct (status_is e 422).
Qed.

(** X11. [updateFile] always asks for the file on the given branch
    first. If that lookup fails with a status other than 404, the failure
    is raised and nothing is written. If it fails with 404, the file is
    written once without a content identifier. If it is answered, the
    file is written once with the content identifier of the answer (none
    when the answer has none). In the last two cases the outcome is the
    outcome of the write. *)
Theorem updateFile_looks_up_first (remote : Remote) octokit r branch filePath text commitMessage w :
  let lookup := ReposGetContent (owner r) (repo r) filePath (Some branch) in
  let write found :=
    ReposCreateOrUpdateFileContents (owner r) (repo r) filePath commitMessage text branch
      found in
  let outcome := updateFile remote octokit r branch filePath text commitMessage w in
  (forall error,
     remote (clock w) octokit lookup = Throw error -> status_is error 404 = false ->
     fst outcome = Throw error /\
     calls (snd outcome) = calls w ++ [(octokit, lookup)]) /\
  (forall error,
     remote (clock w) octokit lookup = Throw error -> status_is error 404 = true ->
     fst outcome = remote (S (clock w)) octokit (write None) /\
     calls (snd outcome) = calls w ++ [(octokit, lookup); (octokit, write None)]) /\
  (forall data,
     remote (clock w) octokit lookup = Ok data ->
     fst outcome = remote (S (clock w)) octokit (write (sha data)) /\
     calls (snd outcome) = calls w ++ [(octokit, lookup); (octokit, write (sha data))]).
Proof.
  cbv zeta. unfold updateFile, try_catch, bind, request, ret, throw, lift; simpl.
  split; [|split].
  - intros error -> H404. by rewrite H404.
  - intros error -> H404. rewrite H404; simpl. by rewrite <- app_assoc.
  - intros data ->; simpl. by rewrite <- app_assoc.
Qed.

Lemma bind_Ok {S A B} (m : M S A) (f : A -> M S B) s b :
  fst (bind m f s) = Ok b ->
  exists a, fst (m s) = Ok a /\ fst (f a (snd (m s))) = Ok b /\
            snd (bind m f s) = snd (f a (snd (m s))).
Proof.
  unfold bind. destruct (m s) as [[a|e] s']; simpl; [|done]. intros H. by exists a.
Qed.

Lemma getInstallationOctokit_Ok (remote : Remote) o rp w client :
  fst (getInstallationOctokit remote o rp w) = Ok client ->
  exists id,
    client = InstallationClient id /\
    remote (clock w) AppClient (AppsGetRepoInstallation o rp) = Ok id /\
    snd (getInstallationOctokit remote o rp w)
    = mkWorld (S (clock w)) (calls w ++ [(AppClient, AppsGetRepoInstallation o rp)])
              (console w).
Proof.
  unfold getInstallationOctokit, try_catch, bind, request, ret, throw, lift; simpl.
  destruct (remote (clock w) AppClient _) as [id|e]; simpl.
  - intros [= <-]. by exists id.
  - by destruct (status_is e 404).
Qed.

(** A stale answer of [needsUpdate] takes its two requests. *)
Lemma needsUpdate_stale (remote : Remote) cfg r w :
  fst (needsUpdate remote cfg r w) = Ok true ->
  exists id,
    remote (clock w) AppClient (AppsGetRepoInstallation (owner r) (repo r)) = Ok id /\
    calls (snd (needsUpdate remote cfg r w))
    = calls w ++ [(AppClient, AppsGetRepoInstallation (owner r) (repo r));
                  (InstallationClient id,
                   ReposGetContent (owner r) (repo r) (workflowPath r) None)] /\
    clock (snd (needsUpdate remote cfg r w)) = clock w + 2.
Proof.
  unfold needsUpdate, getInstallationOctokit, try_catch, bind, request, ret, throw, lift;
    simpl.
  destruct (remote (clock w) AppClient _) as [id|e]; simpl.
  - destruct (remote (S (clock w)) (InstallationClient id) _) as [data|e]; simpl.
    + destruct (content data); simpl; intros _; exists id;
        (split; [done|]); (split; [by rewrite <- app_assoc | lia]).
    + destruct (status_is e 404); simpl; [|done]. intros _. exists id.
      split; [done|]. split; [by rewrite <- app_assoc | lia].
  - destruct (status_is e 404) eqn:H404; simpl; rewrite ?H404; by simpl.
Qed.

(** What [needsUpdate] answers depends on the request counter alone. *)
Lemma needsUpdate_outcome_by_clock (remote : Remote) cfg r w w' :
  clock w = clock w' ->
  fst (needsUpdate remote cfg r w) = fst (needsUpdate remote cfg r w').
Proof.
  intros Hclock.
  unfold needsUpdate, getInstallationOctokit, try_catch, bind, request, ret, throw, lift;
    simpl. rewrite Hclock.
  destruct (remote (clock w') AppClient _) as [id|e]; simpl.
  - destruct (remote (S (clock w')) (InstallationClient id) _) as [data|e]; simpl.
    + by destruct (content data).
    + by destruct (status_is e 404).
  - destruct (status_is e 404) eqn:H404; simpl; rewrite ?H404; by simpl.
Qed.

Lemma needsUpdate_calls (remote : Remote) cfg r w :
  exists new, calls (snd (needsUpdate remote cfg r w)) = calls w ++ new /\
              changes new = [].
Proof.
  unfold needsUpdate, getInstallationOctokit, try_catch, bind, request, ret, throw, lift;
    simpl.
  destruct (remote (clock w) AppClient _) as [id|e]; simpl.
  - destruct (remote (S (clock w)) (InstallationClient id) _) as [data|e]; simpl.
    + destruct (content data); simpl; eexists;
        (split; [rewrite <- app_assoc; reflexivity | done]).
    + destruct (status_is e 404); simpl; eexists;
        (split; [rewrite <- app_assoc; reflexivity | done]).
  - destruct (status_is e 404); simpl; rewrite ?Heq; simpl;
      try destruct (status_is _ 404); simpl; by eexists.
Qed.

Lemma updateFile_Ok (remote : Remote) octokit r branch filePath text commitMessage w :
  fst (updateFile remote octokit r branch filePath text commitMessage w) = Ok tt ->
  exists found,
    calls (snd (updateFile remote octokit r branch filePath text commitMessage w))
    = calls w ++
      [(octokit, ReposGetContent (owner r) (repo r) filePath (Some branch));
       (octokit, ReposCreateOrUpdateFileContents (owner r) (repo r) filePath commitMessage
                   text branch found)] /\
    clock (snd (updateFile remote octokit r branch filePath text commitMessage w))
    = clock w + 2.
Proof.
  unfold updateFile, try_catch, bind, request, ret, throw, lift; simpl.
  destruct (remote (clock w) octokit _) as [data|e]; simpl.
  - intros _. exists (sha data). split; [by rewrite <- app_assoc | lia].
  - destruct (status_is e 404); simpl; [|done].
    intros _. exists None. split; [by rewrite <- app_assoc | lia].
Qed.

Lemma createPullRequest_Ok (remote : Remote) cfg octokit r branchName baseBranch w :
  fst (createPullRequest remote cfg octokit r branchName baseBranch w) = Ok tt ->
  let create :=
    PullsCreate (owner r) (repo r) (pull_request_title cfg) (pull_request_body cfg r)
                branchName baseBranch in
  exists labelled,
    calls (snd (createPullRequest remote cfg octokit r branchName baseBranch w))
    = calls w ++ (octokit, create) :: labelled /\
    ((labelled = [] /\
      exists error, remote (clock w) octokit create = Throw error /\
                    status_is error 422 = true) \/
     (exists pr,
        labelled = [(octokit, IssuesAddLabels (owner r) (repo r) (number pr)
                                ["automation"; "workflow-update"; "ai-review"])] /\
        remote (clock w) octokit create = Ok pr)).
Proof.
  unfold createPullRequest, try_catch, bind, request, console_log, modify, ret, throw, lift;
    simpl.
  destruct (remote (clock w) octokit _) as [pr|e] eqn:Hcreate; simpl.
  - intros _.
    destruct (remote (S (clock w)) octokit _); simpl; eexists;
      (split; [rewrite <- app_assoc; reflexivity | right; by exists pr]).
  - destruct (status_is e 422) eqn:H422; simpl; [|done]. intros _.
    exists []. split; [done|]. left. split; [done|]. by exists e.
Qed.

(** The step of [updateRepository] that creates the branch or, when it is
    there already, moves it. *)
Lemma branch_step_Ok (remote : Remote) octokit r branchName commit w :
  let create := GitCreateRef (owner r) (repo r) ("refs/heads/" +:+ branchName) commit in
  let move := GitUpdateRef (owner r) (repo r) ("heads/" +:+ branchName) commit in
  let step :=
    try_catch
      (request remote octokit create;;
       console_log ("Created branch: " +:+ branchName))
      (fun error =>
         if status_is error 422 then
           request remote octokit move;;
           console_log ("Updated existing branch: " +:+ branchName)
         else throw error) in
  fst (step w) = Ok tt ->
  exists moved,
    calls (snd (step w)) = calls w ++ (octokit, create) :: moved /\
    clock (snd (step w)) = clock w + 1 + length moved /\
    ((moved = [] /\ remote (clock w) octokit create = Ok tt) \/
     (moved = [(octokit, move)] /\
      exists error, remote (clock w) octokit create = Throw error /\
                    status_is error 422 = true)).
Proof.
  cbv zeta. unfold try_catch, bind, request, console_log, modify, ret, throw, lift; simpl.
  destruct (remote (clock w) octokit _) as [[]|e] eqn:Hcreate; simpl.
  - intros _. exists []. split; [done|]. split; [simpl; lia|]. by left.
  - destruct (status_is e 422) eqn:H422; simpl; [|done].
    destruct (remote (S (clock w)) octokit _); simpl; [|done]. intros _.
    eexists. split; [rewrite <- app_assoc; reflexivity|]. split; [simpl; lia|].
    right. split; [done|]. by exists e.
Qed.

Lemma changes_app a b : changes (a ++ b) = changes a ++ changes b.
Proof. unfold changes. apply filter_app. Qed.

Lemma updateRepository_body_Ok (remote : Remote) cfg r w :
  fst (updateRepository_body remote cfg r w) = Ok tt ->
  exists id base commit found found' moved labelled,
    let client := InstallationClient id in
    let branch := "workflow-automation/update-v" +:+ workflowVersion cfg in
    let create := GitCreateRef (owner r) (repo r) ("refs/heads/" +:+ branch) commit in
    let open := PullsCreate (owner r) (repo r) (pull_request_title cfg)
                  (pull_request_body cfg r) branch base in
    calls (snd (updateRepository_body remote cfg r w))
    = calls w ++ update_sequence cfg r client base commit found found' moved labelled /\
    remote (clock w) AppClient (AppsGetRepoInstallation (owner r) (repo r)) = Ok id /\
    remote (clock w + 1) client (ReposGet (owner r) (repo r)) = Ok base /\
    remote (clock w + 2) client (ReposGetBranch (owner r) (repo r) base) = Ok commit /\
    ((moved = [] /\ remote (clock w + 3) client create = Ok tt) \/
     (moved = [(client, GitUpdateRef (owner r) (repo r) ("heads/" +:+ branch) commit)] /\
      exists error, remote (clock w + 3) client create = Throw error /\
                    status_is error 422 = true)) /\
    ((labelled = [] /\
      exists error, remote (clock w + 8 + length moved) client open = Throw error /\
                    status_is error 422 = true) \/
     (exists pr,
        labelled = [(client, IssuesAddLabels (owner r) (repo r) (number pr)
                               ["automation"; "workflow-update"; "ai-review"])] /\
        remote (clock w + 8 + length moved) client open = Ok pr)).
Proof.
  unfold updateRepository_body. cbv zeta. intros H.
  apply bind_Ok in H as (client & Hclient & H & ->).
  apply getInstallationOctokit_Ok in Hclient as (id & -> & Hinst & Hw).
  apply bind_Ok in H as (base & Hbase & H & ->).
  apply bind_Ok in H as (commit & Hcommit & H & ->).
  apply bind_Ok in H as ([] & Hbranch & H & ->).
  apply bind_Ok in H as ([] & Hfile1 & H & ->).
  apply bind_Ok in H as ([] & Hfile2 & H & ->).
  apply bind_Ok in H as ([] & Hpull & _ & ->).
  rewrite Hw in *. clear Hw.
  apply branch_step_Ok in Hbranch as (moved & Hcalls3 & Hclock3 & Hmoved).
  apply updateFile_Ok in Hfile1 as (found & Hcalls4 & Hclock4).
  apply updateFile_Ok in Hfile2 as (found' & Hcalls5 & Hclock5).
  apply createPullRequest_Ok in Hpull as (labelled & Hcalls6 & Hlabelled).
  exists id, base, commit, found, found', moved, labelled.
  unfold request in Hbase, Hcommit; simpl in Hbase, Hcommit.
  rewrite Hclock5, Hclock4, Hclock3 in Hlabelled. simpl in Hlabelled, Hmoved.
  split; [|split; [done|split; [by rewrite Nat.add_1_r|split; [|split]]]].
  - change (calls (snd (console_log ?l ?x))) with (calls x).
    rewrite Hcalls6, Hcalls5, Hcalls4, Hcalls3. simpl.
    unfold update_sequence. rewrite <- !app_assoc. simpl. by rewrite <- ?app_assoc.
  - by replace (clock w + 2) with (S (S (clock w))) by lia.
  - by replace (clock w + 3) with (S (S (S (clock w)))) by lia.
  - by replace (clock w + 8 + length moved)
      with (S (S (S (clock w))) + 1 + length moved + 2 + 2) by lia.
Qed.

Lemma updateRepository_quiet (remote : Remote) cfg r w :
  enabled r = false \/ dryRun cfg = true \/ fst (needsUpdate remote cfg r w) = Ok false ->
  exists new,
    calls (snd (updateRepository remote cfg r w)) = calls w ++ new /\ changes new = [].
Proof.
  intros Hquiet. unfold updateRepository.
  destruct (enabled r); simpl.
  2:{ exists []. by rewrite app_nil_r. }
  unfold bind at 1. simpl. unfold bind at 1.
  match goal with |- context [needsUpdate remote cfg r ?x] => set (w' := x) end.
  assert (fst (needsUpdate remote cfg r w') = fst (needsUpdate remote cfg r w)) as Hsame
    by (by apply needsUpdate_outcome_by_clock).
  destruct (needsUpdate_calls remote cfg r w') as (reads & Hreads & Hnone).
  destruct (needsUpdate remote cfg r w') as [[stale|e] w''] eqn:Hrun; simpl in *.
  2:{ by exists reads. }
  destruct stale; simpl.
  2:{ by exists reads. }
  destruct (dryRun cfg); simpl.
  { by exists reads. }
  destruct Hquiet as [|[|Hfalse]]; try done. congruence.
Qed.

(** For a stale target and outside a dry run, [updateRepository] comes to
    its [try] block after the two requests of [needsUpdate]. *)
Lemma updateRepository_stale (remote : Remote) cfg r w :
  enabled r = true -> dryRun cfg = false ->
  fst (needsUpdate remote cfg r w) = Ok true ->
  exists id0 w',
    calls w'
    = calls w ++
      [(AppClient, AppsGetRepoInstallation (owner r) (repo r));
       (InstallationClient id0, ReposGetContent (owner r) (repo r) (workflowPath r) None)] /\
    clock w' = clock w + 2 /\
    updateRepository remote cfg r w
    = try_catch (updateRepository_body remote cfg r)
        (fun error =>
           console_log ("Failed to update " +:+ slug r +:+ ": " +:+ err_message error);;
           throw error) w'.
Proof.
  intros Henabled Hdry Hstale. unfold updateRepository. rewrite Henabled, Hdry; simpl.
  unfold bind at 1. simpl. unfold bind at 1.
  match goal with |- context [needsUpdate remote cfg r ?x] => set (w0 := x) end.
  assert (fst (needsUpdate remote cfg r w0) = Ok true) as Hstale'.
  { rewrite <- Hstale. by apply needsUpdate_outcome_by_clock. }
  destruct (needsUpdate_stale remote cfg r w0 Hstale') as (id0 & _ & Hreads & Hclock).
  destruct (needsUpdate remote cfg r w0) as [[stale|e] w'] eqn:Hrun; simpl in *; [|done].
  injection Hstale' as ->. simpl. by exists id0, w'.
Qed.

Lemma updateRepository_stale_Ok (remote : Remote) cfg r w :
  enabled r = true -> dryRun cfg = false ->
  fst (needsUpdate remote cfg r w) = Ok true ->
  fst (updateRepository remote cfg r w) = Ok tt ->
  exists id0 id base commit found found' moved labelled,
    let client := InstallationClient id in
    let branch := "workflow-automation/update-v" +:+ workflowVersion cfg in
    let create := GitCreateRef (owner r) (repo r) ("refs/heads/" +:+ branch) commit in
    let open := PullsCreate (owner r) (repo r) (pull_request_title cfg)
                  (pull_request_body cfg r) branch base in
    calls (snd (updateRepository remote cfg r w))
    = calls w ++
      [(AppClient, AppsGetRepoInstallation (owner r) (repo r));
       (InstallationClient id0, ReposGetContent (owner r) (repo r) (workflowPath r) None)]
      ++ update_sequence cfg r client base commit found found' moved labelled /\
    remote (clock w + 3) client (ReposGet (owner r) (repo r)) = Ok base /\
    remote (clock w + 4) client (ReposGetBranch (owner r) (repo r) base) = Ok commit /\
    ((moved = [] /\ remote (clock w + 5) client create = Ok tt) \/
     (moved = [(client, GitUpdateRef (owner r) (repo r) ("heads/" +:+ branch) commit)] /\
      exists error, remote (clock w + 5) client create = Throw error /\
                    status_is error 422 = true)) /\
    ((labelled = [] /\
      exists error, remote (clock w + 10 + length moved) client open = Throw error /\
                    status_is error 422 = true) \/
     (exists pr,
        labelled = [(client, IssuesAddLabels (owner r) (repo r) (number pr)
                               ["automation"; "workflow-update"; "ai-review"])] /\
        remote (clock w + 10 + length moved) client open = Ok pr)).
Proof.
  intros Henabled Hdry Hstale.
  destruct (updateRepository_stale remote cfg r w Henabled Hdry Hstale)
    as (id0 & w' & Hreads & Hclock & ->).
  unfold try_catch.
  pose proof (updateRepository_body_Ok remote cfg r w') as Hbody.
  destruct (updateRepository_body remote cfg r w') as [[[]|e] w3] eqn:Hrun'; simpl in *;
    [|done].
  intros _.
  destruct (Hbody eq_refl)
    as (id & base & commit & found & found' & moved & labelled &
        Hcalls & _ & Hbase & Hcommit & Hmoved & Hlabelled).
  exists id0, id, base, commit, found, found', moved, labelled.
  rewrite Hclock in *. rewrite Hcalls, Hreads.
  split; [by rewrite <- app_assoc|].
  replace (clock w + 3) with (clock w + 2 + 1) by lia.
  replace (clock w + 4) with (clock w + 2 + 2) by lia.
  replace (clock w + 5) with (clock w + 2 + 3) by lia.
  replace (clock w + 10 + length moved) with (clock w + 2 + 8 + length moved) by lia.
  done.
Qed.

(** X12. [updateRepository] changes nothing on the remote side for a
    target that is disabled or that [needsUpdate] finds current, and in
    a dry run. For an enabled target found stale outside a dry run, when
    it returns, its requests were exactly, in order: the two of
    [needsUpdate]; the installation, the default branch and the head
    commit of that branch, as answered; the creation of the update
    branch at that commit, followed by moving it there exactly when the
    creation answered 422; the lookup and the write of the generated
    review workflow at the configured path, and of the generated
    on-demand workflow at that path with [ai-review.yml] replaced by
    [ai-on-demand.yml]; the opening of the pull request from the update
    branch into the default branch; and one label request for the pull
    request exactly when it was opened (none when the opening answered
    422). *)
Theorem successful_update_writes_generated_files (remote : Remote) cfg r w :
  (enabled r = false \/ dryRun cfg = true \/
   fst (needsUpdate remote cfg r w) = Ok false ->
   exists new,
     calls (snd (updateRepository remote cfg r w)) = calls w ++ new /\
     changes new = []) /\
  (enabled r = true -> dryRun cfg = false ->
   fst (needsUpdate remote cfg r w) = Ok true ->
   fst (updateRepository remote cfg r w) = Ok tt ->
  exists id0 id base commit found found' moved labelled,
     let client := InstallationClient id in
     let branch := "workflow-automation/update-v" +:+ workflowVersion cfg in
     let create := GitCreateRef (owner r) (repo r) ("refs/heads/" +:+ branch) commit in
     let open := PullsCreate (owner r) (repo r) (pull_request_title cfg)
                   (pull_request_body cfg r) branch base in
     calls (snd (updateRepository remote cfg r w))
     = calls w ++
       [(AppClient, AppsGetRepoInstallation (owner r) (repo r));
        (InstallationClient id0,
         ReposGetContent (owner r) (repo r) (workflowPath r) None);
        (AppClient, AppsGetRepoInstallation (owner r) (repo r));
        (client, ReposGet (owner r) (repo r));
        (client, ReposGetBranch (owner r) (repo r) base);
        (client, create)]
       ++ moved ++
       [(client, ReposGetContent (owner r) (repo r) (workflowPath r) (Some branch));
        (client, ReposCreateOrUpdateFileContents (owner r) (repo r) (workflowPath r)
                   ("Update AI review workflow to v" +:+ workflowVersion cfg)
                   (generateCallerWorkflow cfg r) branch found);
        (client, ReposGetContent (owner r) (repo r)
                   (replace_first "ai-review.yml" "ai-on-demand.yml" (workflowPath r))
                   (Some branch));
        (client, ReposCreateOrUpdateFileContents (owner r) (repo r)
                   (replace_first "ai-review.yml" "ai-on-demand.yml" (workflowPath r))
                   ("Update AI on-demand workflow to v" +:+ workflowVersion cfg)
                   (generateOnDemandWorkflow cfg r) branch found');
        (client, open)]
       ++ labelled /\
     remote (clock w + 3) client (ReposGet (owner r) (repo r)) = Ok base /\
     remote (clock w + 4) client (ReposGetBranch (owner r) (repo r) base) = Ok commit /\
     ((moved = [] /\ remote (clock w + 5) client create = Ok tt) \/
      (moved = [(client, GitUpdateRef (owner r) (repo r) ("heads/" +:+ branch) commit)] /\
       exists error, remote (clock w + 5) client create = Throw error /\
                     status_is error 422 = true)) /\
     ((labelled = [] /\
       exists error, remote (clock w + 10 + length moved) client open = Throw error /\
                     status_is error 422 = true) \/
      (exists pr,
         labelled = [(client, IssuesAddLabels (owner r) (repo r) (number pr)
                                ["automation"; "workflow-update"; "ai-review"])] /\
         remote (clock w + 10 + length moved) client open = Ok pr))).
Proof.
  split; [apply updateRepository_quiet|].
  intros Henabled Hdry Hstale Hok.
  destruct (updateRepository_stale_Ok remote cfg r w Henabled Hdry Hstale Hok)
    as (id0 & id & base & commit & found & found' & moved & labelled &
        Hcalls & Hrest).
  exists id0, id, base, commit, found, found', moved, labelled. cbv zeta.
  split; [|exact Hrest].
  rewrite Hcalls. unfold update_sequence.
  rewrite <- ?app_assoc. simpl. by rewrite <- ?app_assoc.
Qed.

Lemma successful_update_writes_generated_files_witness :
  let remote := RemoteSamples.all_well in
  let cfg := RemoteSamples.sample_config in
  let r := RemoteSamples.repo_named "app" true in
  let w := RemoteSamples.fresh_world in
  exists id0 id base commit found found' moved labelled,
     let client := InstallationClient id in
     let branch := "workflow-automation/update-v" +:+ workflowVersion cfg in
     let create := GitCreateRef (owner r) (repo r) ("refs/heads/" +:+ branch) commit in
     let open := PullsCreate (owner r) (repo r) (pull_request_title cfg)
                   (pull_request_body cfg r) branch base in
     calls (snd (updateRepository remote cfg r w))
     = calls w ++
       [(AppClient, AppsGetRepoInstallation (owner r) (repo r));
        (InstallationClient id0,
         ReposGetContent (owner r) (repo r) (workflowPath r) None);
        (AppClient, AppsGetRepoInstallation (owner r) (repo r));
        (client, ReposGet (owner r) (repo r));
        (client, ReposGetBranch (owner r) (repo r) base);
        (client, create)]
       ++ moved ++
       [(client, ReposGetContent (owner r) (repo r) (workflowPath r) (Some branch));
        (client, ReposCreateOrUpdateFileContents (owner r) (repo r) (workflowPath r)
                   ("Update AI review workflow to v" +:+ workflowVersion cfg)
                   (generateCallerWorkflow cfg r) branch found);
        (client, ReposGetContent (owner r) (repo r)
                   (replace_first "ai-review.yml" "ai-on-demand.yml" (workflowPath r))
                   (Some branch));
        (client, ReposCreateOrUpdateFileContents (owner r) (repo r)
                   (replace_first "ai-review.yml" "ai-on-demand.yml" (workflowPath r))
                   ("Update AI on-demand workflow to v" +:+ workflowVersion cfg)
                   (generateOnDemandWorkflow cfg r) branch found');
        (client, open)]
       ++ labelled /\
     remote (clock w + 3) client (ReposGet (owner r) (repo r)) = Ok base /\
     remote (clock w + 4) client (ReposGetBranch (owner r) (repo r) base) = Ok commit /\
     ((moved = [] /\ remote (clock w + 5) client create = Ok tt) \/
      (moved = [(client, GitUpdateRef (owner r) (repo r) ("heads/" +:+ branch) commit)] /\
       exists error, remote (clock w + 5) client create = Throw error /\
                     status_is error 422 = true)) /\
     ((labelled = [] /\
       exists error, remote (clock w + 10 + length moved) client open = Throw error /\
                     status_is error 422 = true) \/
      (exists pr,
         labelled = [(client, IssuesAddLabels (owner r) (repo r) (number pr)
                                ["automation"; "workflow-update"; "ai-review"])] /\
         remote (clock w + 10 + length moved) client open = Ok pr)).
Proof.
  intros remote cfg r w.
  exact (proj2 (successful_update_writes_generated_files remote cfg r w)
           eq_refl eq_refl eq_refl eq_refl).
Defined.

End PropagatorExtras.

(** ** Which failures fail a target *)

Module PropagatorFailures.
Import JS Eff GitHub UpdatePropagator Vocabulary StringFacts TraceFacts.
Import PropagatorTheorems PropagatorExtras.
Local Open Scope eff_scope.

Lemma hard_failure_nil (remote : Remote) n : ~ hard_failure remote n [].
Proof. by intros (i & via & c & e & Hi & _). Qed.

Lemma hard_failure_cons (remote : Remote) n via c rest :
  hard_failure remote n ((via, c) :: rest) <->
  (exists e, remote n via c = Throw e /\ tolerated c e = false) \/
  hard_failure remote (S n) rest.
Proof.
  split.
  - intros ([|i] & via' & c' & e & Hi & Hr & Ht); simpl in Hi.
    + injection Hi as <- <-. left. exists e. by rewrite Nat.add_0_r in Hr.
    + right. exists i, via', c', e. by rewrite Nat.add_succ_r in Hr.
  - intros [(e & Hr & Ht)|(i & via' & c' & e & Hi & Hr & Ht)].
    + exists 0, via, c, e. by rewrite Nat.add_0_r.
    + exists (S i), via', c', e. by rewrite Nat.add_succ_r.
Qed.

Lemma hard_failure_app (remote : Remote) n a b :
  hard_failure remote n (a ++ b) <->
  hard_failure remote n a \/ hard_failure remote (n + length a) b.
Proof.
  revert n. induction a as [|[via c] a IH]; intros n; simpl.
  - rewrite Nat.add_0_r. split; [by right | intros [H|H]; [|done]].
    by apply hard_failure_nil in H.
  - rewrite !hard_failure_cons, IH, Nat.add_succ_r. simpl. tauto.
Qed.

Lemma hard_failure_nil_iff (remote : Remote) n : hard_failure remote n [] <-> False.
Proof. split; [apply hard_failure_nil | done]. Qed.

Ltac hard_side := rewrite ?hard_failure_cons, ?hard_failure_nil_iff.

(** From the answers at hand: whether an answer was a failure that is not
    tolerated. *)
Ltac settle :=
  split;
  [ first
      [ discriminate
      | intros _;
        repeat first
          [ left; eexists; split; [eassumption | first [reflexivity | assumption]]
          | right ] ]
  | first
      [ done
      | intros Hhard;
        repeat match type of Hhard with
               | _ \/ _ => destruct Hhard as [Hhard|Hhard]
               | exists _, _ => destruct Hhard as (? & Hhard)
               | _ /\ _ => destruct Hhard as [? Hhard]
               | False => destruct Hhard
               end;
        simpl in *; congruence ] ].

Lemma faithful_ret {A} (remote : Remote) (a : A) : faithful remote (ret a).
Proof.
  intros w. exists []. rewrite app_nil_r, Nat.add_0_r. repeat split; try done.
  intros H. by apply hard_failure_nil in H.
Qed.

Lemma faithful_console_log (remote : Remote) line : faithful remote (console_log line).
Proof.
  intros w. exists []. simpl. rewrite app_nil_r, Nat.add_0_r. repeat split; try done.
  intros H. by apply hard_failure_nil in H.
Qed.

Lemma faithful_request (remote : Remote) via c :
  (forall e, tolerated c e = false) -> faithful remote (request remote via c).
Proof.
  intros Hstrict w. exists [(via, c)]. simpl.
  split; [done | split; [lia|]]. hard_side.
  destruct (remote (clock w) via c) as [a|e] eqn:Hanswer; simpl.
  - settle.
  - split; [intros _ | done]. left. exists e. by split.
Qed.

Lemma faithful_bind {A B} (remote : Remote) (m : M World A) (k : A -> M World B) :
  faithful remote m -> (forall a, faithful remote (k a)) -> faithful remote (bind m k).
Proof.
  intros Hm Hk w. destruct (Hm w) as (new & Hcalls & Hclock & Hthrow). unfold bind.
  destruct (m w) as [[a|e] w'] eqn:Hrun; simpl in *.
  - destruct (Hk a w') as (new' & Hcalls' & Hclock' & Hthrow').
    exists (new ++ new'). rewrite Hcalls', Hcalls, Hclock', Hclock, length_app.
    split; [by rewrite app_assoc | split; [lia|]].
    rewrite hard_failure_app, Hthrow', Hclock.
    split; [by right | intros [H|H]; [|done]]. by apply Hthrow in H.
  - by exists new.
Qed.

(** A handler that logs and raises the failure again. *)
Lemma faithful_rethrow {A} (remote : Remote) (m : M World A) (line : JsError -> string) :
  faithful remote m ->
  faithful remote (try_catch m (fun error => console_log (line error);; throw error)).
Proof.
  intros Hm w. destruct (Hm w) as (new & Hcalls & Hclock & Hthrow). unfold try_catch.
  destruct (m w) as [[a|e] w'] eqn:Hrun; simpl in *; by exists new.
Qed.

Ltac run_requests :=
  unfold needsUpdate, updateFile, createPullRequest, getInstallationOctokit,
    try_catch, bind, request, console_log, modify, throw, lift, ret; simpl.

Ltac answer remote :=
  match goal with
  | |- context [remote ?n ?via ?c] =>
      let H := fresh "Hanswer" in destruct (remote n via c) as [?|?] eqn:H; simpl
  | |- context [status_is ?e ?code] =>
      let H := fresh "Hstatus" in destruct (status_is e code) eqn:H; simpl
  | |- context [match content ?d with _ => _ end] => destruct (content d); simpl
  end.

Ltac traced :=
  eexists; split; [rewrite <- ?app_assoc; simpl; reflexivity|];
  split; [simpl; lia|]; hard_side; settle.

Lemma faithful_getInstallationOctokit (remote : Remote) o rp :
  faithful remote (getInstallationOctokit remote o rp).
Proof. intros w. run_requests. repeat answer remote; traced. Qed.

Lemma faithful_needsUpdate (remote : Remote) cfg r :
  faithful remote (needsUpdate remote cfg r).
Proof. intros w. run_requests. repeat answer remote; traced. Qed.

Lemma faithful_updateFile (remote : Remote) octokit r branch filePath text commitMessage :
  faithful remote (updateFile remote octokit r branch filePath text commitMessage).
Proof. intros w. run_requests. repeat answer remote; traced. Qed.

Lemma faithful_createPullRequest (remote : Remote) cfg octokit r branchName baseBranch :
  faithful remote (createPullRequest remote cfg octokit r branchName baseBranch).
Proof. intros w. run_requests. repeat answer remote; traced. Qed.

Lemma faithful_branch_step (remote : Remote) octokit r branchName commit :
  faithful remote
    (try_catch
       (request remote octokit
          (GitCreateRef (owner r) (repo r) ("refs/heads/" +:+ branchName) commit);;
        console_log ("Created branch: " +:+ branchName))
       (fun error =>
          if status_is error 422 then
            request remote octokit
              (GitUpdateRef (owner r) (repo r) ("heads/" +:+ branchName) commit);;
            console_log ("Updated existing branch: " +:+ branchName)
          else throw error)).
Proof. intros w. run_requests. repeat answer remote; traced. Qed.

Lemma faithful_updateRepository_body (remote : Remote) cfg r :
  faithful remote (updateRepository_body remote cfg r).
Proof.
  unfold updateRepository_body. cbv zeta.
  apply faithful_bind; [apply faithful_getInstallationOctokit | intros client].
  apply faithful_bind; [by apply faithful_request | intros base].
  apply faithful_bind; [by apply faithful_request | intros commit].
  apply faithful_bind; [apply faithful_branch_step | intros _].
  apply faithful_bind; [apply faithful_updateFile | intros _].
  apply faithful_bind; [apply faithful_updateFile | intros _].
  apply faithful_bind; [apply faithful_createPullRequest | intros _].
  apply faithful_console_log.
Qed.

Lemma faithful_updateRepository (remote : Remote) cfg r :
  faithful remote (updateRepository remote cfg r).
Proof.
  unfold updateRepository.
  destruct (negb (enabled r)); [apply faithful_console_log|].
  apply faithful_bind; [apply faithful_console_log | intros _].
  apply faithful_bind; [apply faithful_needsUpdate | intros stale].
  destruct (negb stale); [apply faithful_console_log|].
  destruct (dryRun cfg); [apply faithful_console_log|].
  apply (faithful_rethrow remote _
           (fun error => "Failed to update " +:+ slug r +:+ ": " +:+ err_message error)).
  apply faithful_updateRepository_body.
Qed.

Lemma faithful_attempt (remote : Remote) cfg r : faithful remote (attempt remote cfg r).
Proof.
  unfold attempt.
  apply faithful_bind; [apply faithful_updateRepository | intros _].
  destruct (enabled r); [apply faithful_needsUpdate | apply faithful_ret].
Qed.

Lemma attempt_requests (remote : Remote) cfg r w :
  exists new,
    calls (snd (attempt remote cfg r w)) = calls w ++ new /\
    clock (snd (attempt remote cfg r w)) = clock w + length new /\
    Forall (fun vc => call_owner (snd vc) = owner r /\ call_repo (snd vc) = repo r) new /\
    (is_throw (fst (attempt remote cfg r w)) = true <-> hard_failure remote (clock w) new).
Proof.
  destruct (faithful_attempt remote cfg r w) as (new & Hcalls & Hclock & Hthrow).
  destruct (emits_attempt_addressed remote cfg r w) as (new' & Hcalls' & _ & Hnames).
  simpl in Hcalls'. rewrite Hcalls in Hcalls'. apply app_inv_head in Hcalls' as <-.
  exists new. split; [done|]. split; [done|]. split; [|done].
  eapply Forall_impl; [exact Hnames|]. by intros vc (? & ? & _).
Qed.

(** What follows the update in the attempt of a stale target: the second
    run of [needsUpdate]. *)
Lemma attempt_stale_Ok (remote : Remote) cfg r w :
  enabled r = true -> dryRun cfg = false ->
  fst (needsUpdate remote cfg r w) = Ok true ->
  is_throw (fst (attempt remote cfg r w)) = false ->
  exists id0 id base commit found found' moved labelled again,
    calls (snd (attempt remote cfg r w))
    = calls w ++
      [(AppClient, AppsGetRepoInstallation (owner r) (repo r));
       (InstallationClient id0, ReposGetContent (owner r) (repo r) (workflowPath r) None)]
      ++ update_sequence cfg r (InstallationClient id) base commit found found'
           moved labelled
      ++ again /\
    Forall (fun vc => is_lookup (snd vc) = true) again.
Proof.
  intros Henabled Hdry Hstale. unfold attempt, bind. rewrite Henabled.
  pose proof (updateRepository_stale_Ok remote cfg r w Henabled Hdry Hstale) as Hupdate.
  destruct (updateRepository remote cfg r w) as [[[]|e] w'] eqn:Hrun; simpl in *; [|done].
  intros _.
  destruct (Hupdate eq_refl)
    as (id0 & id & base & commit & found & found' & moved & labelled & Hcalls & _).
  destruct (emits_needsUpdate_reads remote cfg r w') as (again & Hagain & _ & Hlookups).
  simpl in Hagain.
  exists id0, id, base, commit, found, found', moved, labelled, again.
  split; [|done]. rewrite Hagain, Hcalls. unfold update_sequence.
  rewrite <- ?app_assoc. simpl. by rewrite <- ?app_assoc.
Qed.

Lemma run_step_tallies (remote : Remote) cfg t r w :
  exists new t' w',
    run_step remote cfg t r w = (Ok t', w') /\
    calls w' = calls w ++ new /\
    clock w' = clock w + length new /\
    Forall (fun vc => call_owner (snd vc) = owner r /\ call_repo (snd vc) = repo r) new /\
    (hard_failure remote (clock w) new ->
     t' = mkTally (success t) (skipped t) (S (failed t)) /\
     exists message,
       last (console w')
       = Some ("Failed to process " +:+ owner r +:+ "/" +:+ repo r +:+ ": " +:+ message)) /\
    (~ hard_failure remote (clock w) new ->
     failed t' = failed t /\ success t' + skipped t' = S (success t + skipped t)) /\
    (~ hard_failure remote (clock w) new ->
     enabled r = true -> dryRun cfg = false ->
     fst (needsUpdate remote cfg r w) = Ok true ->
     exists id0 id base commit found found' moved labelled again,
       new
       = [(AppClient, AppsGetRepoInstallation (owner r) (repo r));
          (InstallationClient id0,
           ReposGetContent (owner r) (repo r) (workflowPath r) None)]
         ++ update_sequence cfg r (InstallationClient id) base commit found found'
              moved labelled
         ++ again /\
       Forall (fun vc => is_lookup (snd vc) = true) again).
Proof.
  destruct (attempt_requests remote cfg r w) as (new & Hcalls & Hclock & Hnames & Hthrow).
  pose proof (attempt_stale_Ok remote cfg r w) as Hstale.
  rewrite run_step_spec.
  destruct (attempt remote cfg r w) as [[counted|e] w'] eqn:Hrun; simpl in *.
  - exists new. destruct counted; eexists; eexists; (split; [reflexivity|]);
      (split; [done|]); (split; [done|]); (split; [done|]).
    all: split; [intros Hhard; by apply Hthrow in Hhard|].
    all: split; [intros _; simpl; lia|].
    all: intros _ Henabled Hdry Hneeds.
    all: destruct (Hstale Henabled Hdry Hneeds eq_refl)
           as (id0 & id & base & commit & found & found' & moved & labelled & again &
               Hshape & Hlookups).
    all: rewrite Hcalls in Hshape; apply app_inv_head in Hshape.
    all: by exists id0, id, base, commit, found, found', moved, labelled, again.
  - exists new. eexists. eexists. split; [reflexivity|]. simpl.
    split; [done|]. split; [done|]. split; [done|].
    split; [|split].
    + intros _. split; [done|]. exists (err_message e).
      rewrite last_snoc. unfold slug. by rewrite !append_assoc.
    + intros Hnot. destruct Hnot. by apply Hthrow.
    + intros Hnot. destruct Hnot. by apply Hthrow.
Qed.

(** C7, as amended. [run] never throws once the targets are loaded. It
    visits the targets in list order, and each adds one to exactly one
    of the three counts. The requests made for a target name that target
    only. The target adds to the failed count, and its failure is
    logged, exactly when one of its requests was answered by a failure
    that is not tolerated; the tolerated ones are 404 on a file lookup,
    422 on the creation of the branch (the branch is then moved) or on
    the opening of the pull request, and any failure of the label
    request. Whatever happened to a target, the targets after it are
    processed. An enabled target found stale outside a dry run, for
    which no request failed otherwise, has had its whole update
    requested. After the loop the three counts are printed, and the exit
    code is 1 exactly when the failed count is positive, which needs a
    target with a failure that is not tolerated. *)
Theorem run_tallies_hard_failures (remote : Remote) cfg w :
  exists w0 tally w3,
    clock w0 = clock w /\ calls w0 = calls w /\
    run_loop remote cfg zero (repositories cfg) w0 = (Ok tally, w3) /\
    fst (run remote cfg w) = Ok (if Nat.ltb 0 (failed tally) then 1 else 0) /\
    calls (snd (run remote cfg w)) = calls w3 /\
    console (snd (run remote cfg w))
    = console w3 ++
      ["Update Summary:";
       "  Successful updates: " +:+ pretty (success tally);
       "  Skipped (up-to-date or disabled): " +:+ pretty (skipped tally);
       "  Failed updates: " +:+ pretty (failed tally)] /\
    success tally + skipped tally + failed tally = length (repositories cfg) /\
    (forall before r after,
       repositories cfg = before ++ r :: after ->
       exists t1 w1 t2 w2 new,
         run_loop remote cfg zero before w0 = (Ok t1, w1) /\
         run_step remote cfg t1 r w1 = (Ok t2, w2) /\
         run_loop remote cfg t2 after w2 = (Ok tally, w3) /\
         calls w2 = calls w1 ++ new /\
         clock w2 = clock w1 + length new /\
         Forall (fun vc => call_owner (snd vc) = owner r /\ call_repo (snd vc) = repo r)
                new /\
         (hard_failure remote (clock w1) new ->
          t2 = mkTally (success t1) (skipped t1) (S (failed t1)) /\
          exists message,
            last (console w2)
            = Some ("Failed to process " +:+ owner r +:+ "/" +:+ repo r +:+ ": " +:+
                    message)) /\
         (~ hard_failure remote (clock w1) new ->
          failed t2 = failed t1 /\
          success t2 + skipped t2 = S (success t1 + skipped t1)) /\
         (~ hard_failure remote (clock w1) new ->
          enabled r = true -> dryRun cfg = false ->
          fst (needsUpdate remote cfg r w1) = Ok true ->
          exists id0 id base commit found found' moved labelled again,
            new
            = [(AppClient, AppsGetRepoInstallation (owner r) (repo r));
               (InstallationClient id0,
                ReposGetContent (owner r) (repo r) (workflowPath r) None)]
              ++ update_sequence cfg r (InstallationClient id) base commit found found'
                   moved labelled
              ++ again /\
            Forall (fun vc => is_lookup (snd vc) = true) again) /\
         failed t2 <= failed tally) /\
    (0 < failed tally ->
     exists before r after t1 w1 t2 w2 new,
       repositories cfg = before ++ r :: after /\
       run_loop remote cfg zero before w0 = (Ok t1, w1) /\
       run_step remote cfg t1 r w1 = (Ok t2, w2) /\
       calls w2 = calls w1 ++ new /\
       hard_failure remote (clock w1) new).
Proof.
  pose (w0 := mkWorld (clock w) (calls w) (console w ++ header_lines cfg)).
  destruct (run_loop_returns remote cfg zero (repositories cfg) w0)
    as (tally & w3 & Hloop & Hsum & _).
  assert (forall before r after,
            repositories cfg = before ++ r :: after ->
            exists t1 w1 t2 w2,
              run_loop remote cfg zero before w0 = (Ok t1, w1) /\
              run_step remote cfg t1 r w1 = (Ok t2, w2) /\
              run_loop remote cfg t2 after w2 = (Ok tally, w3) /\
              failed t2 <= failed tally) as Hsplit.
  { intros before r after Heq. pose proof Hloop as Hloop'.
    rewrite Heq, run_loop_app in Hloop'.
    destruct (run_loop_returns remote cfg zero before w0) as (t1 & w1 & Hbefore & _).
    rewrite Hbefore in Hloop'. simpl in Hloop'. unfold bind in Hloop'.
    destruct (run_step_returns remote cfg t1 r w1) as (t2 & Hstep & _).
    rewrite Hstep in Hloop'.
    destruct (run_loop_returns remote cfg t2 after (snd (run_step remote cfg zero r w1)))
      as (t3 & w3' & Hafter & _ & Hmono).
    rewrite Hafter in Hloop'. injection Hloop' as -> ->.
    by exists t1, w1, t2, (snd (run_step remote cfg zero r w1)). }
  exists w0, tally, w3.
  split; [done | split; [done | split; [done|]]].
  assert (run remote cfg w
          = (Ok (if Nat.ltb 0 (failed tally) then 1 else 0),
             mkWorld (clock w3) (calls w3) (console w3 ++ summary_lines tally))) as Hrun.
  { unfold run. unfold bind at 1. rewrite for_each_console_log.
    fold w0. unfold bind at 1. rewrite Hloop.
    unfold bind. rewrite for_each_console_log.
    by destruct (Nat.ltb 0 (failed tally)). }
  rewrite Hrun. simpl.
  split; [done | split; [done | split; [done | split; [simpl in Hsum; lia | split]]]].
  - intros before r after Heq.
    destruct (Hsplit before r after Heq) as (t1 & w1 & t2 & w2 & Hbefore & Hstep & Hafter & Hmono).
    destruct (run_step_tallies remote cfg t1 r w1)
      as (new & t2' & w2' & Hstep' & Hcalls & Hclock & Hnames & Hhard & Hsoft & Hshape).
    rewrite Hstep in Hstep'. injection Hstep' as <- <-.
    by exists t1, w1, t2, w2, new.
  - intros Hfailed.
    destruct (proj1 (run_loop_failed remote cfg zero (repositories cfg) w0 tally w3 Hloop)
                Hfailed) as (before & r & after & Heq & Hthrow).
    destruct (Hsplit before r after Heq) as (t1 & w1 & t2 & w2 & Hbefore & Hstep & _).
    rewrite Hbefore in Hthrow. simpl in Hthrow.
    destruct (attempt_requests remote cfg r w1) as (new & Hcalls & _ & _ & Hiff).
    exists before, r, after, t1, w1, t2, w2, new.
    split; [done | split; [done | split; [done | split; [|by apply Hiff]]]].
    rewrite run_step_spec in Hstep.
    destruct (attempt remote cfg r w1) as [[[]|e] w'] eqn:Hattempt; simpl in *;
      by injection Hstep as <- <-.
Qed.

Lemma run_tallies_hard_failures_witness :
  let remote := RemoteSamples.one_forbidden in
  let cfg := RemoteSamples.sample_config in
  exists w0 t1 w1 t2 w2 new,
    clock w0 = 0 /\
    run_loop remote cfg zero [RemoteSamples.repo_named "app" true] w0 = (Ok t1, w1) /\
    run_step remote cfg t1 (RemoteSamples.repo_named "broken" true) w1 = (Ok t2, w2) /\
    calls w2 = calls w1 ++ new /\
    Forall (fun vc => call_owner (snd vc) = "acme" /\ call_repo (snd vc) = "broken") new.
Proof.
  intros remote cfg.
  destruct (run_tallies_hard_failures remote cfg RemoteSamples.fresh_world)
    as (w0 & tally & w3 & Hclock & _ & _ & _ & _ & _ & _ & Hsplit & _).
  destruct (Hsplit [RemoteSamples.repo_named "app" true]
                   (RemoteSamples.repo_named "broken" true)
                   [RemoteSamples.repo_named "paused" false;
                    RemoteSamples.repo_named "site" true] eq_refl)
    as (t1 & w1 & t2 & w2 & new & Hbefore & Hstep & _ & Hcalls & _ & Hnames & _).
  exists w0, t1, w1, t2, w2, new.
  exact (conj Hclock (conj Hbefore (conj Hstep (conj Hcalls Hnames)))).
Defined.

(** C7, as stated, fails: no workflow file is there yet, so every file
    lookup is answered 404, and the label request is refused with 403.
    Neither is one of the two already-exists cases, and the target is
    tallied as succeeded: the run ends with exit code 0. *)
Lemma lookup_and_label_failures_do_not_fail_the_target :
  fst (run FurtherSamples.files_missing_labels_refused FurtherSamples.one_target
         RemoteSamples.fresh_world) = Ok 0 /\
  fst (run_loop FurtherSamples.files_missing_labels_refused FurtherSamples.one_target zero
         (repositories FurtherSamples.one_target) RemoteSamples.fresh_world)
  = Ok (mkTally 1 0 0) /\
  calls (snd (run FurtherSamples.files_missing_labels_refused FurtherSamples.one_target
                RemoteSamples.fresh_world)) !! 6
  = Some (InstallationClient 7,
          ReposGetContent "acme" "app" ".github/workflows/ai-review.yml"
            (Some "workflow-automation/update-v2.0.0")) /\
  FurtherSamples.files_missing_labels_refused 6 (InstallationClient 7)
    (ReposGetContent "acme" "app" ".github/workflows/ai-review.yml"
       (Some "workflow-automation/update-v2.0.0"))
  = Throw (mkError (Some 404) "Not Found") /\
  calls (snd (run FurtherSamples.files_missing_labels_refused FurtherSamples.one_target
                RemoteSamples.fresh_world)) !! 11
  = Some (InstallationClient 7,
          IssuesAddLabels "acme" "app" 12 ["automation"; "workflow-update"; "ai-review"]) /\
  FurtherSamples.files_missing_labels_refused 11 (InstallationClient 7)
    (IssuesAddLabels "acme" "app" 12 ["automation"; "workflow-update"; "ai-review"])
  = Throw (mkError (Some 403) "Resource not accessible by integration").
Proof. repeat split; vm_compute; reflexivity. Qed.

(** The two already-exists cases: the creation of the branch and the
    opening of the pull request both answer 422; the branch is moved,
    the target is tallied as succeeded, and the exit code is 0. *)
Example existing_branch_and_pull_request_are_not_failures :
  fst (run FurtherSamples.branch_and_pull_request_exist FurtherSamples.one_target
         RemoteSamples.fresh_world) = Ok 0 /\
  fst (run_loop FurtherSamples.branch_and_pull_request_exist FurtherSamples.one_target zero
         (repositories FurtherSamples.one_target) RemoteSamples.fresh_world)
  = Ok (mkTally 1 0 0) /\
  calls (snd (run FurtherSamples.branch_and_pull_request_exist FurtherSamples.one_target
                RemoteSamples.fresh_world)) !! 6
  = Some (InstallationClient 7,
          GitUpdateRef "acme" "app" "heads/workflow-automation/update-v2.0.0"
            "9c1d2e3f4a5b").
Proof. repeat split; vm_compute; reflexivity. Qed.

End PropagatorFailures.

(** ** Further properties of the version checker *)

Module VersionExtras.
Import JS Eff GitHub VersionChecker Vocabulary StringFacts ReferenceFacts.
Local Open Scope eff_scope.



Ltac run_check :=
  unfold checkRepositoryVersion, checkRepositoryVersion_body, checkRepositoryVersion_handler,
    getInstallationOctokit, try_catch, bind, in_world, request, console_log, modify,
    update_info, throw, lift, ret, get; simpl.

(** X14. How [checkRepositoryVersion] records a failed request. A failed
    installation lookup always gives status error, with the message
    "GitHub App not installed on repository" when it answered 404. A
    failed file lookup whose message does not speak of an installation
    gives status missing when it answered 404, and status error with the
    message of the failure otherwise. *)
Theorem failures_are_told_apart (remote : Remote) t w info :
  let installation :=
    remote (clock w) AppClient (AppsGetRepoInstallation (t_owner t) (t_repo t)) in
  let lookup id :=
    remote (S (clock w)) (InstallationClient id)
      (ReposGetContent (t_owner t) (t_repo t) (t_workflowPath t) None) in
  fst (checkRepositoryVersion remote t w) = Ok info ->
  (forall error,
     installation = Throw error ->
     status info = Error /\
     (status_is error 404 = true ->
      errorMessage info = Some "GitHub App not installed on repository")) /\
  (forall id error,
     installation = Ok id -> lookup id = Throw error ->
     includes "not installed" (err_message error) = false ->
     if status_is error 404
     then status info = Missing /\
          errorMessage info = Some "Workflow file not found or repository not accessible"
     else status info = Error /\ errorMessage info = Some (err_message error)).
Proof.
  cbv zeta. intros Hinfo. split.
  - intros e Hinst. revert Hinfo. run_check. rewrite Hinst; simpl.
    destruct (status_is e 404) eqn:H404; simpl.
    + intros [= <-]. by split.
    + destruct (includes "not installed" (err_message e)) eqn:Hmsg; simpl;
        [|rewrite H404; simpl]; intros [= <-]; by split.
  - intros id e Hinst Hlookup Hmsg. revert Hinfo. run_check.
    rewrite Hinst; simpl. rewrite Hlookup; simpl. rewrite Hmsg; simpl.
    destruct (status_is e 404); simpl; intros [= <-]; by split.
Qed.

Lemma failures_are_told_apart_witness :
  exists info,
    fst (checkRepositoryVersion RemoteSamples.one_forbidden FurtherSamples.broken_target
           RemoteSamples.fresh_world) = Ok info /\
    status info = Error.
Proof.
  eexists. split; [reflexivity|].
  exact (proj1 (proj1 (failures_are_told_apart RemoteSamples.one_forbidden
                         FurtherSamples.broken_target RemoteSamples.fresh_world _ eq_refl)
                  (mkError (Some 403) "Forbidden") eq_refl)).
Defined.

Ltac split_cases remote :=
  repeat match goal with
         | |- context [match remote ?n ?via ?c with _ => _ end] =>
             destruct (remote n via c) eqn:?; simpl
         | |- context [match content ?d with _ => _ end] =>
             destruct (content d) eqn:?; simpl
         | |- context [if ?b then _ else _] => destruct b eqn:?; simpl
         | |- context [match ?l with [] => _ | _ :: _ => _ end] =>
             destruct l eqn:?; simpl
         end.

(** X15. Every entry [checkRepositoryVersion] returns names its target,
    is never marked outdated (that is left to the comparison), is marked
    up-to-date only with a non-empty version and no error message, and
    carries an error message whenever it is not up-to-date. *)
Theorem checked_entry_is_coherent (remote : Remote) t w info :
  fst (checkRepositoryVersion remote t w) = Ok info ->
  (owner info = t_owner t /\ repo info = t_repo t /\
   workflowPath info = t_workflowPath t /\ configProfile info = t_configProfile t) /\
  status info <> Outdated /\
  (status info = Up_to_date ->
   version_truthy (currentVersion info) = true /\ errorMessage info = None) /\
  (status info <> Up_to_date -> is_Some (errorMessage info)).
Proof.
  run_check. split_cases remote; intros [= <-]; simpl;
    (split; [done|]); (split; [done|]); (split; [try done | try done]).
  all: try (intros _; by eexists).
  all: try (intros ?; done).
Qed.

Lemma checked_entry_is_coherent_witness :
  exists info,
    fst (checkRepositoryVersion RemoteSamples.all_well RemoteSamples.sample_target
           RemoteSamples.fresh_world) = Ok info /\
    owner info = "acme" /\ repo info = "app" /\
    workflowPath info = ".github/workflows/ai-review.yml" /\ configProfile info = None.
Proof.
  eexists. split; [reflexivity|].
  exact (proj1 (checked_entry_is_coherent RemoteSamples.all_well RemoteSamples.sample_target
                  RemoteSamples.fresh_world _ eq_refl)).
Defined.

(** X23. When the installation lookup, the file lookup and the list of
    open pull requests are all answered, the entry holds what
    [extractVersionFromWorkflow] finds in the file (nothing for a
    response without content), is up-to-date exactly when that version is
    non-empty and is an error otherwise, with a message that tells a
    response without content from a file without a usable reference, and
    links the first open update pull request when there is one. *)
Theorem answered_lookups_are_classified (remote : Remote) t w id file pulls info :
  remote (clock w) AppClient (AppsGetRepoInstallation (t_owner t) (t_repo t)) = Ok id ->
  remote (S (clock w)) (InstallationClient id)
    (ReposGetContent (t_owner t) (t_repo t) (t_workflowPath t) None) = Ok file ->
  remote (S (S (clock w))) (InstallationClient id)
    (PullsList (t_owner t) (t_repo t) "open" (t_owner t +:+ ":workflow-automation/update-"))
  = Ok pulls ->
  fst (checkRepositoryVersion remote t w) = Ok info ->
  currentVersion info
  = match content file with
    | Some text => extractVersionFromWorkflow text
    | None => None
    end /\
  (status info = Up_to_date <-> version_truthy (currentVersion info) = true) /\
  (status info = Up_to_date \/ status info = Error) /\
  (content file = None ->
   errorMessage info = Some "Workflow file is not a regular file") /\
  (is_Some (content file) -> version_truthy (currentVersion info) = false ->
   errorMessage info = Some "Could not extract version from workflow file") /\
  pullRequestUrl info
  = match pulls with
    | first :: _ => Some (html_url first)
    | [] => None
    end.
Proof.
  intros Hinst Hfile Hpulls. run_check.
  rewrite Hinst; simpl. rewrite Hfile; simpl.
  destruct (content file) as [text|]; simpl.
  - destruct (version_truthy (extractVersionFromWorkflow text)) eqn:Hv; simpl;
      rewrite Hpulls; simpl; destruct pulls; simpl; intros [= <-]; simpl;
      rewrite ?Hv; repeat split; try done; auto.
  - rewrite Hpulls; simpl. destruct pulls; simpl; intros [= <-]; simpl;
      repeat split; try done; auto; by intros [? ?].
Qed.

Lemma answered_lookups_are_classified_witness :
  exists info,
    fst (checkRepositoryVersion RemoteSamples.all_well RemoteSamples.sample_target
           RemoteSamples.fresh_world) = Ok info /\
    currentVersion info = Some "1.2.3" /\
    pullRequestUrl info = None.
Proof.
  eexists. split; [reflexivity|].
  pose proof (answered_lookups_are_classified RemoteSamples.all_well
                RemoteSamples.sample_target RemoteSamples.fresh_world 7
                (mkContent (Some RemoteSamples.caller_workflow_text) (Some "3f2a")) [] _
                eq_refl eq_refl eq_refl eq_refl) as H.
  exact (conj (proj1 H) (proj2 (proj2 (proj2 (proj2 (proj2 H)))))).
Defined.

Lemma reads_within_bind {A B} n k (m : M World A) (f : A -> M World B) :
  reads_within n m -> (forall a, reads_within k (f a)) ->
  reads_within (n + k) (bind m f).
Proof.
  intros Hm Hf w. unfold bind.
  destruct (Hm w) as (new & Hcalls & Hclock & Hlen & HP).
  destruct (m w) as [[a|e] w']; simpl in *.
  - destruct (Hf a w') as (new' & Hcalls' & Hclock' & Hlen' & HP').
    exists (new ++ new'). rewrite Hcalls', Hcalls, Hclock', Hclock, length_app.
    split; [by rewrite app_assoc | split; [lia | split; [lia | by apply Forall_app]]].
  - exists new. repeat split; try done. lia.
Qed.

Lemma reads_within_quiet {A} (m : M World A) :
  (forall w, calls (snd (m w)) = calls w /\ clock (snd (m w)) = clock w) ->
  reads_within 0 m.
Proof.
  intros H w. exists []. destruct (H w) as [-> ->].
  rewrite app_nil_r, Nat.add_0_r. by repeat split.
Qed.

Lemma reads_within_checkRepositoryVersion (remote : Remote) t :
  reads_within 3 (checkRepositoryVersion remote t).
Proof.
  intros w. run_check. split_cases remote;
    (eexists; split; [rewrite <- ?app_assoc; simpl; reflexivity|]);
    simpl; (split; [lia|]); (split; [lia|]); by repeat constructor.
Qed.

Lemma reads_within_getCentralVersion (remote : Remote) :
  reads_within 4 (getCentralVersion remote).
Proof.
  intros w. unfold getCentralVersion, getInstallationOctokit, try_catch, bind, request,
    console_log, modify, throw, lift, ret; simpl.
  split_cases remote;
    (eexists; split; [rewrite <- ?app_assoc; simpl; reflexivity|]);
    simpl; (split; [lia|]); (split; [lia|]); by repeat constructor.
Qed.

Lemma reads_within_check_all (remote : Remote) targets acc :
  reads_within (3 * length targets) (check_all remote targets acc).
Proof.
  revert acc. induction targets as [|t targets IH]; intros acc; simpl.
  - by apply reads_within_quiet.
  - replace (S (length targets + S (length targets + S (length targets + 0))))
      with (3 + 3 * length targets) by lia.
    apply reads_within_bind; [apply reads_within_checkRepositoryVersion|].
    intros info. apply IH.
Qed.

(** X16. The version checker only reads: whatever the remote side
    answers, a run makes at most four requests to find the central
    version and at most three per target, none of which changes anything
    on the remote side. *)
Theorem checker_only_reads (remote : Remote) targets w :
  exists new,
    calls (snd (run remote targets w)) = calls w ++ new /\
    clock (snd (run remote targets w)) = clock w + length new /\
    length new <= 4 + 3 * length targets /\
    Forall (fun vc => is_read (snd vc) = true) new.
Proof.
  assert (reads_within (4 + (0 + (0 + (3 * length targets + (0 + 0)))))
            (run remote targets)) as H.
  { unfold run.
    apply reads_within_bind; [apply reads_within_getCentralVersion | intros c].
    apply reads_within_bind; [by apply reads_within_quiet | intros _].
    apply reads_within_bind; [by apply reads_within_quiet | intros _].
    apply reads_within_bind; [apply reads_within_check_all | intros checked].
    apply reads_within_bind; [by apply reads_within_quiet | intros w'].
    by apply reads_within_quiet. }
  destruct (H w) as (new & Hcalls & Hclock & Hlen & HP).
  exists new. repeat split; try done. lia.
Qed.

Lemma checkRepositoryVersion_entry (remote : Remote) t w :
  exists info,
    fst (checkRepositoryVersion remote t w) = Ok info /\
    owner info = t_owner t /\ repo info = t_repo t /\
    workflowPath info = t_workflowPath t /\ configProfile info = t_configProfile t /\
    status info <> Outdated.
Proof.
  run_check. split_cases remote; eexists; (split; [reflexivity|]); by simpl.
Qed.

Lemma check_all_entries (remote : Remote) targets acc w :
  exists infos,
    fst (check_all remote targets acc w) = Ok (acc ++ infos) /\
    Forall2 entry_of targets infos.
Proof.
  revert acc w. induction targets as [|t targets IH]; intros acc w; simpl.
  - exists []. by rewrite app_nil_r.
  - destruct (checkRepositoryVersion_entry remote t w)
      as (info & Hinfo & Ho & Hr & Hp & Hc & _).
    unfold bind. destruct (checkRepositoryVersion remote t w) as [[i|e] w']; simpl in *;
      [|done].
    injection Hinfo as ->.
    destruct (IH (acc ++ [info]) w') as (infos & Hrun & Hall).
    exists (info :: infos). rewrite Hrun, <- app_assoc. split; [done|].
    by constructor.
Qed.

Lemma updateVersionStatus_entries targets infos c :
  Forall2 entry_of targets infos ->
  Forall2 entry_of targets (updateVersionStatus infos c).
Proof.
  induction 1 as [|t i targets infos Hi _ IH]; simpl; constructor; [|done].
  unfold updateVersionStatus_step, entry_of in *.
  destruct (status i); try done; by destruct (version_matches _ _).
Qed.

Lemma count_status_partition repos :
  count_status Up_to_date repos + count_status Outdated repos +
  count_status Missing repos + count_status Error repos = length repos.
Proof.
  unfold count_status. induction repos as [|r repos IH]; [done|].
  rewrite !filter_cons. simpl length.
  destruct (status r); simpl; repeat case_decide; try done; simpl; lia.
Qed.

Lemma Status_eqb_eq a b : Status_eqb a b = true <-> a = b.
Proof. by destruct a, b. Qed.

Lemma count_status_zero s repos :
  count_status s repos = 0 <-> Forall (fun r => status r <> s) repos.
Proof.
  unfold count_status. induction repos as [|r repos IH]; [done|].
  rewrite filter_cons, Forall_cons.
  destruct (decide (Status_eqb (status r) s = true)) as [H|H]; simpl.
  - split; [done|]. intros [Hne _]. by apply Status_eqb_eq in H.
  - rewrite IH. rewrite Status_eqb_eq in H. by intuition.
Qed.

Lemma run_report (remote : Remote) targets w report :
  fst (run remote targets w) = Ok report ->
  exists c checked,
    Forall2 entry_of targets checked /\
    repositories report = updateVersionStatus checked c /\
    centralVersion report = c /\
    totalRepositories report = length (repositories report) /\
    upToDate report = count_status Up_to_date (repositories report) /\
    outdated report = count_status Outdated (repositories report) /\
    missing report = count_status Missing (repositories report) /\
    errors report = count_status Error (repositories report) /\
    summary report = generateSummary (repositories report).
Proof.
  unfold run, bind at 1.
  destruct (getCentralVersion remote w) as [[c|e] w1]; simpl; [|done].
  unfold bind, console_log, modify, get, ret; simpl.
  match goal with
  | |- context [check_all remote targets [] ?w2] =>
      destruct (check_all_entries remote targets [] w2) as (infos & Hrun & Hall);
      destruct (check_all remote targets [] w2) as [[checked|e] w3]
  end; simpl in *; [|done].
  injection Hrun as ->. intros [= <-]. simpl.
  by exists c, infos.
Qed.

Lemma run_report_exists (remote : Remote) targets w c :
  fst (getCentralVersion remote w) = Ok c ->
  exists report, fst (run remote targets w) = Ok report.
Proof.
  intros Hc. unfold run, bind at 1.
  destruct (getCentralVersion remote w) as [[c'|e] w1]; simpl in *; [|done].
  unfold bind, console_log, modify, get, ret; simpl.
  match goal with
  | |- context [check_all remote targets [] ?w2] =>
      destruct (check_all_entries remote targets [] w2) as (infos & Hrun & _);
      destruct (check_all remote targets [] w2) as [[checked|e] w3]
  end; simpl in *; [|done].
  by eexists.
Qed.

(** X17. A report that [run] returns has one entry per configured
    target, in order, each naming its target; the four status counts add
    up to the number of entries; and [main] exits with code 0 exactly
    when every entry is up-to-date. *)
Theorem version_report_accounts_for_targets (remote : Remote) targets w report :
  fst (run remote targets w) = Ok report ->
  Forall2 (fun t info => owner info = t_owner t /\ repo info = t_repo t /\
                         workflowPath info = t_workflowPath t /\
                         configProfile info = t_configProfile t)
          targets (repositories report) /\
  totalRepositories report = length targets /\
  upToDate report + outdated report + missing report + errors report
  = totalRepositories report /\
  (exit_code remote targets w = 0 <->
   Forall (fun info => status info = Up_to_date) (repositories report)).
Proof.
  intros Hrun. unfold exit_code. rewrite Hrun.
  destruct (run_report _ _ _ _ Hrun)
    as (c & checked & Hall & Hrepos & _ & Htotal & Hup & Hout & Hmiss & Herr & _).
  assert (Forall2 entry_of targets (repositories report)) as Hentries.
  { rewrite Hrepos. by apply updateVersionStatus_entries. }
  split; [done|]. split.
  { rewrite Htotal. symmetry. by eapply Forall2_length. }
  split.
  { rewrite Hup, Hout, Hmiss, Herr, Htotal. apply count_status_partition. }
  rewrite Hout, Hmiss, Herr.
  split.
  - intros Hcode.
    destruct (count_status Outdated (repositories report)) eqn:Ho; [|done].
    destruct (count_status Missing (repositories report)) eqn:Hm; [|done].
    destruct (count_status Error (repositories report)) eqn:He; [|done].
    apply count_status_zero in Ho, Hm, He.
    rewrite Forall_forall in Ho, Hm, He. apply Forall_forall. intros r Hr.
    specialize (Ho r Hr). specialize (Hm r Hr). specialize (He r Hr).
    by destruct (status r).
  - intros Hall'.
    assert (forall s, s <> Up_to_date -> count_status s (repositories report) = 0) as Hz.
    { intros s Hs. apply count_status_zero. eapply Forall_impl; [exact Hall'|].
      simpl. intros r -> . done. }
    by rewrite !Hz.
Qed.

Lemma version_report_accounts_for_targets_witness :
  exists report,
    fst (run RemoteSamples.all_well [RemoteSamples.sample_target; FurtherSamples.broken_target]
           RemoteSamples.fresh_world) = Ok report /\
    totalRepositories report = 2 /\
    upToDate report + outdated report + missing report + errors report
    = totalRepositories report.
Proof.
  destruct (run_report_exists RemoteSamples.all_well
              [RemoteSamples.sample_target; FurtherSamples.broken_target]
              RemoteSamples.fresh_world "1.2.3" eq_refl) as (report & Hrun).
  exists report. split; [exact Hrun|].
  pose proof (version_report_accounts_for_targets RemoteSamples.all_well
                [RemoteSamples.sample_target; FurtherSamples.broken_target]
                RemoteSamples.fresh_world report Hrun) as H.
  exact (conj (proj1 (proj2 H)) (proj1 (proj2 (proj2 H)))).
Defined.

Lemma string_lt_trans a b c :
  string_lt a b = true -> string_lt b c = true -> string_lt a c = true.
Proof.
  unfold string_lt. intros Hab Hbc.
  destruct (String.compare a b) eqn:H1; try done.
  destruct (String.compare b c) eqn:H2; try done.
  apply (proj1 (OrderedTypeEx.String_as_OT.cmp_lt a b)) in H1.
  apply (proj1 (OrderedTypeEx.String_as_OT.cmp_lt b c)) in H2.
  pose proof (OrderedTypeEx.String_as_OT.lt_trans _ _ _ H1 H2) as H3.
  apply (proj2 (OrderedTypeEx.String_as_OT.cmp_lt a c)) in H3.
  unfold OrderedTypeEx.String_as_OT.cmp in H3. by rewrite H3.
Qed.

Lemma string_lt_irrefl a : string_lt a a = false.
Proof.
  unfold string_lt. destruct (String.compare a a) eqn:H; try done.
  apply (proj1 (OrderedTypeEx.String_as_OT.cmp_lt a a)) in H.
  by apply OrderedTypeEx.String_as_OT.lt_not_eq in H.
Qed.

Lemma string_lt_total a b :
  string_lt a b = false -> string_lt b a = false -> a = b.
Proof.
  unfold string_lt. intros Hab Hba.
  rewrite String.compare_antisym in Hba.
  destruct (String.compare a b) eqn:H; try done.
  by apply String.compare_eq_iff.
Qed.

Lemma generateSummary_snoc repos r :
  generateSummary (repos ++ [r]) = generateSummary_step (generateSummary repos) r.
Proof. unfold generateSummary. by rewrite fold_left_app. Qed.

Lemma reported_versions_snoc repos r :
  reported_versions (repos ++ [r])
  = reported_versions repos ++ match reported_version r with Some v => [v] | None => [] end.
Proof.
  unfold reported_versions. rewrite omap_app. simpl. by destruct (reported_version r).
Qed.

Lemma generateSummary_step_skip acc r :
  reported_version r = None -> generateSummary_step acc r = acc.
Proof.
  unfold reported_version, generateSummary_step.
  destruct (currentVersion r) as [v|]; [|done]. by destruct (String.eqb v "").
Qed.

Lemma count_version_lookup dist x v n :
  dist !! v = recorded v n ->
  count_version dist x !! v = recorded v (n + (if decide (x = v) then 1 else 0)).
Proof.
  intros H. unfold count_version. destruct (decide (x = v)) as [->|Hne].
  - rewrite H. unfold recorded.
    destruct n as [|n]; simpl.
    + destruct (String.eqb v "__proto__"); [by rewrite H|].
      destruct (bool_decide _); by rewrite lookup_insert_eq.
    + destruct (String.eqb v "__proto__") eqn:Hproto.
      { rewrite H. unfold recorded. by rewrite Hproto. }
      destruct (bool_decide _); rewrite lookup_insert_eq; do 2 f_equal; lia.
  - rewrite Nat.add_0_r, <- H.
    destruct (dist !! x) as [[k|member ones]|]; try (by rewrite lookup_insert_ne).
    destruct (String.eqb x "__proto__"); [done|].
    destruct (bool_decide _); by rewrite lookup_insert_ne.
Qed.

Lemma generateSummary_distribution repos v :
  versionDistribution (generateSummary repos) !! v
  = recorded v (occurrences v (reported_versions repos)).
Proof.
  induction repos as [|r repos IH] using rev_ind; [done|].
  rewrite generateSummary_snoc, reported_versions_snoc.
  destruct (reported_version r) as [x|] eqn:Hx.
  - unfold reported_version in Hx. unfold generateSummary_step.
    destruct (currentVersion r) as [y|]; [|done].
    destruct (String.eqb y "") eqn:Hy; [done|]. injection Hx as ->. simpl.
    rewrite (count_version_lookup _ x v _ IH).
    unfold occurrences. rewrite filter_app, length_app, filter_cons, filter_nil.
    by destruct (decide (x = v)).
  - rewrite generateSummary_step_skip by done. by rewrite app_nil_r.
Qed.

Lemma reported_versions_truthy repos :
  Forall (fun v => v <> "") (reported_versions repos).
Proof.
  unfold reported_versions. apply Forall_forall. intros v Hv.
  apply list_elem_of_omap in Hv as (r' & _ & Hr').
  unfold reported_version in Hr'. destruct (currentVersion r') as [y|]; [|done].
  destruct (String.eqb y "") eqn:Hy'; [done|]. injection Hr' as ->.
  by apply String.eqb_neq.
Qed.

Lemma extremes_snoc vs oldest newest x :
  Forall (fun v => v <> "") vs ->
  extremes vs oldest newest ->
  extremes (vs ++ [x])
    (match oldest with
     | Some o => if String.eqb o EmptyString || string_lt x o then Some x else Some o
     | None => Some x
     end)
    (match newest with
     | Some n => if String.eqb n EmptyString || string_lt n x then Some x else Some n
     | None => Some x
     end).
Proof.
  intros Htruthy H. destruct vs as [|v0 vs].
  - destruct H as [-> ->]. simpl. exists x, x.
    repeat split; try apply list_elem_of_singleton; try done.
    repeat constructor; apply string_lt_irrefl.
  - destruct H as (o & n & -> & -> & Ho & Hn & Hall).
    assert (o <> "" /\ n <> "") as [Hone Hnne].
    { rewrite Forall_forall in Htruthy. split; by apply Htruthy. }
    apply String.eqb_neq in Hone, Hnne. rewrite Hone, Hnne.
    change (extremes ((v0 :: vs) ++ [x])
              (if false || string_lt x o then Some x else Some o)
              (if false || string_lt n x then Some x else Some n)).
    generalize dependent (v0 :: vs). intros seen _ Ho Hn Hall.
    assert (exists o' n',
        (if false || string_lt x o then Some x else Some o) = Some o' /\
        (if false || string_lt n x then Some x else Some n) = Some n' /\
        o' ∈ seen ++ [x] /\ n' ∈ seen ++ [x] /\
        Forall (fun v => string_lt v o' = false /\ string_lt n' v = false) (seen ++ [x]))
      as Hgoal.
    { simpl.
      exists (if string_lt x o then x else o), (if string_lt n x then x else n).
      split; [by destruct (string_lt x o)|]. split; [by destruct (string_lt n x)|].
      split; [destruct (string_lt x o); apply elem_of_app;
              [right; by apply list_elem_of_singleton | by left]|].
      split; [destruct (string_lt n x); apply elem_of_app;
              [right; by apply list_elem_of_singleton | by left]|].
      apply Forall_app. split.
      + eapply Forall_impl; [exact Hall|]. simpl. intros v [Hvo Hnv]. split.
        * destruct (string_lt x o) eqn:Hxo; [|done].
          destruct (string_lt v x) eqn:Hvx; [|done].
          by rewrite (string_lt_trans _ _ _ Hvx Hxo) in Hvo.
        * destruct (string_lt n x) eqn:Hnx; [|done].
          destruct (string_lt x v) eqn:Hxv; [|done].
          by rewrite (string_lt_trans _ _ _ Hnx Hxv) in Hnv.
      + constructor; [|done]. split.
        * destruct (string_lt x o) eqn:Hxo; [apply string_lt_irrefl | done].
        * destruct (string_lt n x) eqn:Hnx; [apply string_lt_irrefl | done]. }
    unfold extremes. destruct (seen ++ [x]) eqn:Hs; [|done].
    by apply app_nil in Hs as [_ ?].
Qed.

Lemma generateSummary_extremes repos :
  extremes (reported_versions repos)
           (oldestVersion (generateSummary repos)) (newestVersion (generateSummary repos)).
Proof.
  induction repos as [|r repos IH] using rev_ind; [done|].
  rewrite generateSummary_snoc, reported_versions_snoc.
  destruct (reported_version r) as [x|] eqn:Hx.
  2:{ rewrite generateSummary_step_skip by done. by rewrite app_nil_r. }
  unfold reported_version in Hx. unfold generateSummary_step.
  destruct (currentVersion r) as [y|]; [|done].
  destruct (String.eqb y "") eqn:Hy; [done|]. injection Hx as ->. simpl.
  apply extremes_snoc; [apply reported_versions_truthy | done].
Qed.

(** X18. What [generateSummary] holds for a string depends on how many
    entries carry it as a non-empty version. With none there is no entry.
    Otherwise an ordinary version has their number; a version that is
    the name of a member of [Object.prototype] has, in place of a
    number, the text of that member followed by one [1] for each of
    them; and [__proto__] has no entry. The oldest and newest versions
    are a least and a greatest of the versions carried, in the order of
    [<] on strings, and are null when no entry carries a version. *)
Theorem summary_counts_versions repos :
  (forall v,
     versionDistribution (generateSummary repos) !! v
     = match occurrences v (reported_versions repos) with
       | 0 => None
       | S n =>
           if String.eqb v "__proto__" then None
           else if bool_decide (v ∈ object_prototype_members)
                then Some (MemberText v (S n))
                else Some (Count (S n))
       end) /\
  match reported_versions repos with
  | [] => oldestVersion (generateSummary repos) = None /\
          newestVersion (generateSummary repos) = None
  | _ :: _ =>
      exists o n,
        oldestVersion (generateSummary repos) = Some o /\
        newestVersion (generateSummary repos) = Some n /\
        o ∈ reported_versions repos /\ n ∈ reported_versions repos /\
        Forall (fun v => string_lt v o = false /\ string_lt n v = false)
               (reported_versions repos)
  end.
Proof.
  split; [|exact (generateSummary_extremes repos)].
  intros v. rewrite generateSummary_distribution. unfold recorded.
  by destruct (occurrences v (reported_versions repos)).
Qed.

(** Two entries carry [1.2.3] and two carry [toString]. *)
Lemma summary_counts_versions_witness :
  versionDistribution
    (generateSummary
       [RemoteSamples.info_with (Some "1.2.3") Up_to_date;
        RemoteSamples.info_with (Some "toString") Outdated;
        RemoteSamples.info_with (Some "1.2.3") Up_to_date;
        RemoteSamples.info_with (Some "toString") Outdated]) !! "1.2.3" = Some (Count 2) /\
  versionDistribution
    (generateSummary
       [RemoteSamples.info_with (Some "1.2.3") Up_to_date;
        RemoteSamples.info_with (Some "toString") Outdated;
        RemoteSamples.info_with (Some "1.2.3") Up_to_date;
        RemoteSamples.info_with (Some "toString") Outdated]) !! "toString"
  = Some (MemberText "toString" 2).
Proof.
  split.
  - exact (proj1 (summary_counts_versions
                    [RemoteSamples.info_with (Some "1.2.3") Up_to_date;
                     RemoteSamples.info_with (Some "toString") Outdated;
                     RemoteSamples.info_with (Some "1.2.3") Up_to_date;
                     RemoteSamples.info_with (Some "toString") Outdated]) "1.2.3").
  - exact (proj1 (summary_counts_versions
                    [RemoteSamples.info_with (Some "1.2.3") Up_to_date;
                     RemoteSamples.info_with (Some "toString") Outdated;
                     RemoteSamples.info_with (Some "1.2.3") Up_to_date;
                     RemoteSamples.info_with (Some "toString") Outdated]) "toString").
Defined.

Lemma match_reference_tail_sound s capture :
  match_reference_tail s = Some capture ->
  exists path rest,
    s = path +:+ String "@" rest /\ has_at path = false /\
    token rest = capture /\ capture <> "".
Proof.
  induction s as [|c s IH]; [done|]. cbn [match_reference_tail].
  destruct (Ascii.eqb c "@") eqn:Hc.
  - apply Ascii.eqb_eq in Hc as ->.
    destruct (String.eqb (token s) "") eqn:Htoken; [done|]. intros [= <-].
    exists "", s. repeat split; try done. by apply String.eqb_neq.
  - intros H. destruct (IH H) as (path & rest & -> & Hpath & Htoken & Hne).
    exists (String c path), rest. rewrite append_cons. cbn [has_at]. rewrite Hc.
    by repeat split.
Qed.

Lemma match_reference_sound s capture :
  match_reference s = Some capture ->
  exists head path rest,
    s = head +:+ central_reference +:+ path +:+ String "@" rest /\
    has_at path = false /\ token rest = capture /\ capture <> "".
Proof.
  induction s as [|c s IH]; rewrite match_reference_unfold.
  - destruct (String.prefix central_reference ""); done.
  - destruct (String.prefix central_reference (String c s)) eqn:Hprefix.
    + apply prefix_spec in Hprefix as (tail & Htail). rewrite Htail.
      rewrite drop_chars_append.
      destruct (match_reference_tail tail) as [capture'|] eqn:Hmatch.
      * intros [= <-].
        destruct (match_reference_tail_sound _ _ Hmatch)
          as (path & rest & -> & Hpath & Htoken & Hne).
        by exists "", path, rest.
      * intros H. destruct (IH H) as (head & path & rest & -> & Hpath & Htoken & Hne).
        exists (String c head), path, rest. rewrite <- Htail, append_cons.
        by repeat split.
    + intros H. destruct (IH H) as (head & path & rest & -> & Hpath & Htoken & Hne).
      exists (String c head), path, rest. rewrite append_cons.
      by repeat split.
Qed.

Lemma has_space_drop_chars n s : has_space s = false -> has_space (drop_chars n s) = false.
Proof.
  revert s. induction n as [|n IH]; intros s; [by destruct s|].
  destruct s as [|c s]; [done|]. simpl. intros H. apply orb_false_iff in H as [_ H].
  by apply IH.
Qed.

(** X19. A version that [extractVersionFromWorkflow] returns holds no
    white space and is the run of non-space characters (without one
    leading [v]) that follows the first at-sign after an occurrence of
    the reference to the central repository; a text without that
    reference, or without an at-sign, gives no version. *)
Theorem extracted_version_follows_a_reference text :
  (forall version, extractVersionFromWorkflow text = Some version ->
     has_space version = false /\
     exists head path rest,
       text = head +:+ central_reference +:+ path +:+ String "@" rest /\
       has_at path = false /\ token rest <> "" /\
       version = if startsWith "v" (token rest) then drop_chars 1 (token rest)
                 else token rest) /\
  (includes central_reference text = false -> extractVersionFromWorkflow text = None) /\
  (includes "@" text = false -> extractVersionFromWorkflow text = None).
Proof.
  assert (forall version, extractVersionFromWorkflow text = Some version ->
     has_space version = false /\
     exists head path rest,
       text = head +:+ central_reference +:+ path +:+ String "@" rest /\
       has_at path = false /\ token rest <> "" /\
       version = if startsWith "v" (token rest) then drop_chars 1 (token rest)
                 else token rest) as Hsound.
  { intros version. unfold extractVersionFromWorkflow.
    destruct (match_reference text) as [capture|] eqn:Hmatch; [|done]. intros [= <-].
    destruct (match_reference_sound _ _ Hmatch)
      as (head & path & rest & -> & Hpath & <- & Hne).
    split.
    - destruct (startsWith "v" (token rest));
        [apply (has_space_drop_chars 1)|]; apply token_has_no_space.
    - by exists head, path, rest. }
  split; [exact Hsound|]. split.
  - intros Habsent. destruct (extractVersionFromWorkflow text) as [version|] eqn:H; [|done].
    destruct (Hsound version eq_refl) as (_ & head & path & rest & -> & _).
    assert (includes central_reference
              (head +:+ central_reference +:+ path +:+ String "@" rest) = true) as Hyes
      by (apply includes_spec; by exists head, (path +:+ String "@" rest)).
    congruence.
  - intros Habsent. destruct (extractVersionFromWorkflow text) as [version|] eqn:H; [|done].
    destruct (Hsound version eq_refl) as (_ & head & path & rest & -> & _).
    assert (includes "@"
              (head +:+ central_reference +:+ path +:+ String "@" rest) = true) as Hyes.
    { apply includes_spec. exists (head +:+ central_reference +:+ path), rest.
      by rewrite !append_assoc. }
    congruence.
Qed.

Lemma generated_holds_marker cfg r text :
  text = UpdatePropagator.generateCallerWorkflow cfg r \/
  text = UpdatePropagator.generateOnDemandWorkflow cfg r ->
  includes ("@v" +:+ UpdatePropagator.workflowVersion cfg) text = true.
Proof.
  intros [->| ->]; apply includes_spec.
  - exists (caller_preamble +:+ central_reference +:+ "/.github/workflows/pr-review.yml"),
           (String line_feed (caller_rest r)).
    rewrite generateCallerWorkflow_shape, !append_assoc. reflexivity.
  - exists (on_demand_preamble +:+ central_reference +:+
            "/.github/workflows/issue-response.yml"),
           (String line_feed (on_demand_rest r)).
    rewrite generateOnDemandWorkflow_shape, !append_assoc. reflexivity.
Qed.

Lemma generated_is_read_back cfg r text :
  has_space (UpdatePropagator.workflowVersion cfg) = false ->
  text = UpdatePropagator.generateCallerWorkflow cfg r \/
  text = UpdatePropagator.generateOnDemandWorkflow cfg r ->
  extractVersionFromWorkflow text = Some (UpdatePropagator.workflowVersion cfg).
Proof.
  intros Hversion [->| ->].
  - rewrite generateCallerWorkflow_shape. by apply extract_generated.
  - rewrite generateOnDemandWorkflow_shape. by apply extract_generated.
Qed.

(** X20. The checker reads back the version the propagator writes: for
    a version without white space, [extractVersionFromWorkflow] applied to
    either generated workflow returns that version. *)
Theorem propagated_version_is_read_back cfg r :
  has_space (UpdatePropagator.workflowVersion cfg) = false ->
  extractVersionFromWorkflow (UpdatePropagator.generateCallerWorkflow cfg r)
  = Some (UpdatePropagator.workflowVersion cfg) /\
  extractVersionFromWorkflow (UpdatePropagator.generateOnDemandWorkflow cfg r)
  = Some (UpdatePropagator.workflowVersion cfg).
Proof.
  intros Hversion. split; apply (generated_is_read_back cfg r); auto.
Qed.

Lemma propagated_version_is_read_back_witness :
  extractVersionFromWorkflow
    (UpdatePropagator.generateCallerWorkflow RemoteSamples.sample_config
       (RemoteSamples.repo_named "app" true)) = Some "2.0.0" /\
  extractVersionFromWorkflow
    (UpdatePropagator.generateOnDemandWorkflow RemoteSamples.sample_config
       (RemoteSamples.repo_named "app" true)) = Some "2.0.0".
Proof.
  exact (propagated_version_is_read_back RemoteSamples.sample_config
           (RemoteSamples.repo_named "app" true) eq_refl).
Defined.

(** X21. Once a file the propagator generates is the workflow file of a
    repository, both scripts regard the repository as settled:
    [needsUpdate] answers that no update is needed, and
    [checkRepositoryVersion] records the propagated version with status
    up-to-date, which the comparison against that version leaves as it
    is. *)
Theorem propagated_file_settles_both_scripts
    (remote : Remote) cfg r text w id file pulls :
  has_space (UpdatePropagator.workflowVersion cfg) = false ->
  UpdatePropagator.workflowVersion cfg <> "" ->
  text = UpdatePropagator.generateCallerWorkflow cfg r \/
  text = UpdatePropagator.generateOnDemandWorkflow cfg r ->
  (forall n, remote n AppClient
               (AppsGetRepoInstallation (UpdatePropagator.owner r) (UpdatePropagator.repo r))
             = Ok id) ->
  (forall n, remote n (InstallationClient id)
               (ReposGetContent (UpdatePropagator.owner r) (UpdatePropagator.repo r)
                                (UpdatePropagator.workflowPath r) None)
             = Ok file) ->
  content file = Some text ->
  (forall n, remote n (InstallationClient id)
               (PullsList (UpdatePropagator.owner r) (UpdatePropagator.repo r) "open"
                          (UpdatePropagator.owner r +:+ ":workflow-automation/update-"))
             = Ok pulls) ->
  fst (UpdatePropagator.needsUpdate remote cfg r w) = Ok false /\
  exists info,
    fst (checkRepositoryVersion remote
(target_of r) w)
    = Ok info /\
    currentVersion info = Some (UpdatePropagator.workflowVersion cfg) /\
    status info = Up_to_date /\
    updateVersionStatus [info] (UpdatePropagator.workflowVersion cfg) = [info].
Proof.
  intros Hversion Hne Htext Hinst Hfile Hcontent Hpulls.
  pose proof (generated_holds_marker _ _ _ Htext) as Hmarker.
  pose proof (generated_is_read_back _ _ _ Hversion Htext) as Hread.
  apply String.eqb_neq in Hne.
  split.
  - unfold UpdatePropagator.needsUpdate, UpdatePropagator.getInstallationOctokit,
      try_catch, bind, request, ret, throw, lift; simpl.
    rewrite Hinst; simpl. rewrite Hfile; simpl. rewrite Hcontent; simpl.
    by rewrite Hmarker.
  - unfold checkRepositoryVersion, checkRepositoryVersion_body,
      checkRepositoryVersion_handler, getInstallationOctokit, try_catch, bind, in_world,
      request, console_log, modify, update_info, throw, lift, ret, get; simpl.
    rewrite Hinst; simpl. rewrite Hfile; simpl. rewrite Hcontent; simpl.
    rewrite Hread; simpl. rewrite Hne; simpl. rewrite Hpulls; simpl.
    destruct pulls; simpl; eexists; (split; [reflexivity|]); simpl;
      (split; [done|]); (split; [done|]);
      unfold updateVersionStatus_step, version_matches; simpl;
      by rewrite String.eqb_refl.
Qed.

Lemma propagated_file_settles_both_scripts_witness :
  fst (UpdatePropagator.needsUpdate FurtherSamples.update_merged RemoteSamples.sample_config
         (RemoteSamples.repo_named "app" true) RemoteSamples.fresh_world) = Ok false /\
  exists info,
    fst (checkRepositoryVersion FurtherSamples.update_merged
           (target_of (RemoteSamples.repo_named "app" true)) RemoteSamples.fresh_world)
    = Ok info /\
    currentVersion info = Some "2.0.0" /\
    status info = Up_to_date /\
    updateVersionStatus [info] "2.0.0" = [info].
Proof.
  refine (propagated_file_settles_both_scripts FurtherSamples.update_merged
            RemoteSamples.sample_config (RemoteSamples.repo_named "app" true)
            (UpdatePropagator.generateCallerWorkflow RemoteSamples.sample_config
               (RemoteSamples.repo_named "app" true))
            RemoteSamples.fresh_world 7
            (mkContent
               (Some (UpdatePropagator.generateCallerWorkflow RemoteSamples.sample_config
                        (RemoteSamples.repo_named "app" true)))
               (Some "7b1e"))
            [] eq_refl _ (or_introl eq_refl) (fun _ => eq_refl) (fun _ => eq_refl)
            eq_refl (fun _ => eq_refl)).
  discriminate.
Defined.

End VersionExtras.
